(** * MIDI Studio core: input pipeline, event bus and MIDI mapper

  A shallow embedding of the controller firmware's input-to-event
  pipeline: the quadrature [Encoder] state machine, the
  [ButtonController] debounce with the [ButtonFactory] behind it, the
  fixed-capacity [EventBus], the [InputBinding] dispatcher, the
  [MidiMapper], and the default configuration tables with the factories
  that load them.

  Conventions.
  - Fixed-width integers are [Z] with their wrap-around written out
    ([wrap32], [wrapU32], [wrapU8]).
  - C [float] is IEEE binary32, taken from the standard library's
    executable specification [SpecFloat] at precision 24 / emax 128.
  - Callbacks ([std::function]) are opaque labels; an empty
    [std::function] is [None].  Running a callback appends its label to
    a trace, so "which actions ran, in which order" is a list.
  - [std::unordered_map] and [etl::flat_map] are [gmap]s; the ordered
    [etl::map] of the event bus, whose iteration order matters, is a
    key-sorted association list. *)

From Stdlib Require Import ZArith Lia Bool List Sorted.
From Stdlib Require Import Floats.SpecFloat.
From stdpp Require Import base option list gmap.

Open Scope Z_scope.

(** ** Machine integers *)

Definition wrapU8 (z : Z) : Z := z mod 256.
Definition wrapU16 (z : Z) : Z := z mod 65536.
Definition wrapU32 (z : Z) : Z := z mod 4294967296.

(** Two's complement [int32_t], as on the target. *)
Definition wrap32 (z : Z) : Z := (z + 2147483648) mod 4294967296 - 2147483648.

(** Arduino's [constrain(amt, low, high)]. *)
Definition constrain (amt low high : Z) : Z :=
if amt <? low then low else if amt >? high then high else amt.

(** Arduino's [abs(x)] on [int32_t]. *)
Definition c_abs (x : Z) : Z := if x >? 0 then x else wrap32 (- x).

(** ** IEEE binary32 *)

Module Float32.

Definition prec : Z := 24.
Definition emax : Z := 128.

Definition float : Type := spec_float.

(** Conversion of an integer to [float] (round to nearest even). *)
Definition of_int (z : Z) : float := binary_normalize prec emax z 0 false.

Definition add : float -> float -> float := SFadd prec emax.
Definition mul : float -> float -> float := SFmul prec emax.
Definition div : float -> float -> float := SFdiv prec emax.
Definition eqb : float -> float -> bool := SFeqb.

Definition zero : float := of_int 0.
Definition one : float := of_int 1.
Definition minus_one : float := of_int (-1).
Definition half : float := div (of_int 1) (of_int 2).

(** The integer part of a float, towards zero; [None] on NaN and the
    infinities. *)
Definition trunc (f : float) : option Z :=
  match f with
  | S754_zero _ => Some 0
  | S754_finite s m e =>
      let a := match e with
               | Zneg p => Z.shiftr (Zpos m) (Zpos p)
               | _ => Z.shiftl (Zpos m) e
               end in
      Some (if s then - a else a)
  | S754_infinity _ | S754_nan => None
  end.

(** [static_cast<int32_t>(f)]; out of range (or NaN) is undefined in C
    and is [None] here. *)
Definition to_int32 (f : float) : option Z :=
  match trunc f with
  | Some z => if (-2147483648 <=? z) && (z <=? 2147483647) then Some z else None
  | None => None
  end.

(** [static_cast<uint8_t>(f)]; out of range (or NaN) is undefined in C
    and is [None] here. *)
Definition to_uint8 (f : float) : option Z :=
  match trunc f with
  | Some z => if (0 <=? z) && (z <=? 255) then Some z else None
  | None => None
  end.

(** Modelled from the spec: [round] comes from [<Arduino.h>] / [<cmath>],
    which are not part of the sources.  The spec says the output "is
    snapped to the nearest of n evenly spaced levels"; this is
    round-to-nearest with halves away from zero, as C's [roundf]. *)
Definition round (f : float) : float :=
  match f with
  | S754_finite s m (Zneg p) =>
      let q := Z.shiftr (Zpos m) (Zpos p) in
      let r := Zpos m - Z.shiftl q (Zpos p) in
      let k := if 2 * r >=? Z.shiftl 1 (Zpos p) then q + 1 else q in
      binary_normalize prec emax (if s then - k else k) 0 s
  | _ => f
  end.


End Float32.

(** ** Events (core/event/Events.hpp) *)

Inductive Event : Type :=
| EncoderChangedEvent (encoderId : Z) (normalizedValue : Float32.float)
| ButtonPressEvent (buttonId : Z) (pressed : bool)
| ButtonReleaseEvent (buttonId : Z)
| MidiCCEvent (channel controller value source : Z).

(** config/System.hpp *)
Module System.
Module Input.
Definition LONG_PRESS_DEFAULT_MS : Z := 500.
Definition DOUBLE_TAP_WINDOW_MS : Z := 300.
Definition BUTTON_DEBOUNCE_MS : Z := 50.
End Input.
Module Hardware.
Definition ENCODERS_COUNT : nat := 10.
Definition BUTTONS_COUNT : nat := 15.
End Hardware.
Module Memory.
Definition MAX_EVENT_TYPES : nat := 96.
Definition MAX_CALLBACKS_PER_EVENT : nat := 16.
Definition MAX_CONTROL_DEFINITIONS : nat :=
  (Hardware.ENCODERS_COUNT + Hardware.BUTTONS_COUNT)%nat.
Definition MAX_MIDI_MAPPINGS : nat := MAX_CONTROL_DEFINITIONS.
End Memory.
End System.

(** ** Encoder (adapter/input/encoder/Encoder.cpp) *)

Module Encoder.
Import Float32.

Inductive EncoderMode : Type := Absolute | Relative.

(** [Hardware::Encoder], the static setup (pins omitted). *)
Record Setup : Type := {
  setup_id : Z;               (* EncoderID, uint16_t *)
  setup_ppr : Z;              (* uint16_t *)
  setup_stepsPerDetent : Z;   (* uint8_t *)
  setup_mode : EncoderMode
}.

Record t : Type := mk {
  id_ : Z;
  mode_ : EncoderMode;
  ppr_ : Z;
  stepsPerDetent_ : Z;
  virtualRange_ : Z;
  virtualPosition_ : Z;
  lastNormalizedValue_ : float;
  accumulatedDelta_ : Z;
  relativePosition_ : float;
  hasPendingEvent_ : bool;
  pendingValue_ : float;
  discreteSteps_ : Z;
  lastQuantizedValue_ : float
}.

Definition TICK_COUNT_METHOD : Z := 4.
Definition FULL_RANGE_ANGLE : Z := 270.
Definition DISCRETE_VALUES_SENSITIVITY : float := half.

Definition set_virtualRange (e : t) (v : Z) : t :=
  mk (id_ e) (mode_ e) (ppr_ e) (stepsPerDetent_ e) v (virtualPosition_ e)
     (lastNormalizedValue_ e) (accumulatedDelta_ e) (relativePosition_ e)
     (hasPendingEvent_ e) (pendingValue_ e) (discreteSteps_ e) (lastQuantizedValue_ e).

Definition set_virtualPosition (e : t) (v : Z) : t :=
  mk (id_ e) (mode_ e) (ppr_ e) (stepsPerDetent_ e) (virtualRange_ e) v
     (lastNormalizedValue_ e) (accumulatedDelta_ e) (relativePosition_ e)
     (hasPendingEvent_ e) (pendingValue_ e) (discreteSteps_ e) (lastQuantizedValue_ e).

Definition set_lastNormalizedValue (e : t) (v : float) : t :=
  mk (id_ e) (mode_ e) (ppr_ e) (stepsPerDetent_ e) (virtualRange_ e) (virtualPosition_ e)
     v (accumulatedDelta_ e) (relativePosition_ e)
     (hasPendingEvent_ e) (pendingValue_ e) (discreteSteps_ e) (lastQuantizedValue_ e).

Definition set_accumulatedDelta (e : t) (v : Z) : t :=
  mk (id_ e) (mode_ e) (ppr_ e) (stepsPerDetent_ e) (virtualRange_ e) (virtualPosition_ e)
     (lastNormalizedValue_ e) v (relativePosition_ e)
     (hasPendingEvent_ e) (pendingValue_ e) (discreteSteps_ e) (lastQuantizedValue_ e).

Definition set_relativePosition (e : t) (v : float) : t :=
  mk (id_ e) (mode_ e) (ppr_ e) (stepsPerDetent_ e) (virtualRange_ e) (virtualPosition_ e)
     (lastNormalizedValue_ e) (accumulatedDelta_ e) v
     (hasPendingEvent_ e) (pendingValue_ e) (discreteSteps_ e) (lastQuantizedValue_ e).

Definition set_hasPendingEvent (e : t) (v : bool) : t :=
  mk (id_ e) (mode_ e) (ppr_ e) (stepsPerDetent_ e) (virtualRange_ e) (virtualPosition_ e)
     (lastNormalizedValue_ e) (accumulatedDelta_ e) (relativePosition_ e)
     v (pendingValue_ e) (discreteSteps_ e) (lastQuantizedValue_ e).

Definition set_pendingValue (e : t) (v : float) : t :=
  mk (id_ e) (mode_ e) (ppr_ e) (stepsPerDetent_ e) (virtualRange_ e) (virtualPosition_ e)
     (lastNormalizedValue_ e) (accumulatedDelta_ e) (relativePosition_ e)
     (hasPendingEvent_ e) v (discreteSteps_ e) (lastQuantizedValue_ e).

Definition set_discreteSteps (e : t) (v : Z) : t :=
  mk (id_ e) (mode_ e) (ppr_ e) (stepsPerDetent_ e) (virtualRange_ e) (virtualPosition_ e)
     (lastNormalizedValue_ e) (accumulatedDelta_ e) (relativePosition_ e)
     (hasPendingEvent_ e) (pendingValue_ e) v (lastQuantizedValue_ e).

Definition set_lastQuantizedValue (e : t) (v : float) : t :=
  mk (id_ e) (mode_ e) (ppr_ e) (stepsPerDetent_ e) (virtualRange_ e) (virtualPosition_ e)
     (lastNormalizedValue_ e) (accumulatedDelta_ e) (relativePosition_ e)
     (hasPendingEvent_ e) (pendingValue_ e) (discreteSteps_ e) v.

(** [(ppr_ * TICK_COUNT_METHOD) * (FULL_RANGE_ANGLE / 360.0f)], converted
    to [int32_t].  The product is finite and small, so the conversion is
    defined; the fallback is never taken. *)
Definition calculateDefaultVirtualRange (ppr : Z) : Z :=
  default 0 (to_int32 (mul (of_int (ppr * TICK_COUNT_METHOD))
                           (div (of_int FULL_RANGE_ANGLE) (of_int 360)))).

(** The constructor. *)
Definition create (setup : Setup) : t :=
  let range := calculateDefaultVirtualRange (setup_ppr setup) in
  {| id_ := setup_id setup;
     mode_ := setup_mode setup;
     ppr_ := setup_ppr setup;
     stepsPerDetent_ := setup_stepsPerDetent setup;
     virtualRange_ := range;
     virtualPosition_ := Z.quot range 2;
     lastNormalizedValue_ := half;
     accumulatedDelta_ := 0;
     relativePosition_ := zero;
     hasPendingEvent_ := false;
     pendingValue_ := zero;
     discreteSteps_ := 0;
     lastQuantizedValue_ := minus_one |}.

(** [flushEvents]: the state afterwards and the events put on the bus. *)
Definition flushEvents (e : t) : t * list Event :=
  if negb (hasPendingEvent_ e) then (e, [])
  else (set_hasPendingEvent e false,
        [EncoderChangedEvent (id_ e) (pendingValue_ e)]).

Definition emitPendingEvent (e : t) (value : float) : t :=
  set_hasPendingEvent (set_pendingValue e value) true.

(** [applyQuantization]: the [bool] result and [outValue] together are
    the [option]. *)
Definition applyQuantization (e : t) (normalizedValue : float) : t * option float :=
  if discreteSteps_ e =? 0 then (e, Some normalizedValue)
  else
    let n1 := of_int (discreteSteps_ e - 1) in
    let quantized := div (round (mul normalizedValue n1)) n1 in
    if eqb quantized (lastQuantizedValue_ e) then (e, None)
    else (set_lastQuantizedValue e quantized, Some quantized).

(** The handlers return the new state and the value they buffered in the
    pending slot, if any. *)
Definition handleRelativeMode (e : t) (delta : Z) : t * option float :=
  let acc := wrap32 (accumulatedDelta_ e + delta) in
  let e1 := set_accumulatedDelta e acc in
  let shouldEmit := c_abs acc >=? stepsPerDetent_ e in
  if negb shouldEmit then (e1, None)
  else
    let step := if acc >? 0 then one else minus_one in
    let rel := add (relativePosition_ e1) step in
    let e2 := set_accumulatedDelta (set_relativePosition e1 rel) 0 in
    (emitPendingEvent e2 rel, Some rel).

Definition handleAbsoluteMode (e : t) (delta : Z) : t * option float :=
  let movement := if delta >? 0 then -1 else 1 in
  let pos := constrain (wrap32 (virtualPosition_ e + movement)) 0
                       (wrap32 (virtualRange_ e - 1)) in
  let e1 := set_virtualPosition e pos in
  let normalizedValue := div (of_int pos) (of_int (wrap32 (virtualRange_ e - 1))) in
  if eqb normalizedValue (lastNormalizedValue_ e1) then (e1, None)
  else
    let e2 := set_lastNormalizedValue e1 normalizedValue in
    match applyQuantization e2 normalizedValue with
    | (e3, Some valueToEmit) => (emitPendingEvent e3 valueToEmit, Some valueToEmit)
    | (e3, None) => (e3, None)
    end.

Definition processEncoderChange (e : t) (delta : Z) : t * option float :=
  if delta =? 0 then (e, None)
  else
    match mode_ e with
    | Relative => handleRelativeMode e delta
    | Absolute => handleAbsoluteMode e delta
    end.

(** [setDiscreteSteps]; the two conversions to [int32_t] are [None] where
    C leaves them undefined. *)
Definition setDiscreteSteps (e : t) (steps : Z) : option t :=
  match mode_ e with
  | Relative => Some e
  | Absolute =>
      let e1 := set_lastQuantizedValue (set_discreteSteps e steps) minus_one in
      let defaultRange := calculateDefaultVirtualRange (ppr_ e) in
      match to_int32 (mul (of_int steps) (div one DISCRETE_VALUES_SENSITIVITY)) with
      | None => None
      | Some minRangeForSteps =>
          let range :=
            if (steps >? 0) && (minRangeForSteps >? defaultRange)
            then minRangeForSteps else defaultRange in
          let e2 := set_virtualRange e1 range in
          match to_int32 (mul (lastNormalizedValue_ e2) (of_int (wrap32 (range - 1)))) with
          | None => None
          | Some pos => Some (set_virtualPosition e2 pos)
          end
      end
  end.

Definition setContinuous (e : t) : option t := setDiscreteSteps e 0.



(** The value the encoder stands at: the cumulative position in relative
    mode, the last (quantized) normalized value in absolute mode. *)
Definition currentValue (e : t) : float :=
  match mode_ e with
  | Relative => relativePosition_ e
  | Absolute =>
      if discreteSteps_ e =? 0 then lastNormalizedValue_ e else lastQuantizedValue_ e
  end.

(** The absolute-mode invariant: a non-degenerate range and a position
    inside it. *)
Definition inRange (e : t) : Prop :=
  2 <= virtualRange_ e <= 2 ^ 24 /\ 0 <= virtualPosition_ e < virtualRange_ e.


(** A run of quadrature transitions: the final state and, per
    transition, what it buffered. *)
Fixpoint processAll (e : t) (deltas : list Z) : t * list (option float) :=
  match deltas with
  | [] => (e, [])
  | d :: ds =>
      let '(e1, o) := processEncoderChange e d in
      let '(e2, os) := processAll e1 ds in
      (e2, o :: os)
  end.

(** The last value buffered in a run, if any. *)
Fixpoint lastBuffered (os : list (option float)) : option float :=
  match os with
  | [] => None
  | o :: rest =>
      match lastBuffered rest with
      | Some v => Some v
      | None => o
      end
  end.

(** How many transitions of a run buffered a value. *)
Fixpoint bufferedCount (os : list (option float)) : Z :=
  match os with
  | [] => 0
  | Some _ :: rest => 1 + bufferedCount rest
  | None :: rest => bufferedCount rest
  end.

(** Whether the default range comes out as 3 * ppr for the [count] values
    of ppr from [ppr] up. *)
Fixpoint defaultRangeIsTriple (count : nat) (ppr : Z) : bool :=
  match count with
  | O => true
  | S count' =>
      (calculateDefaultVirtualRange ppr =? 3 * ppr)
      && defaultRangeIsTriple count' (ppr + 1)
  end.

End Encoder.

(** ** Event bus (core/event/EventBus.hpp) *)

Module EventBus.

(** A subscriber callback is an opaque label. *)
Record CallbackSubscription : Type := {
  sub_id : Z;            (* SubscriptionId, uint8_t *)
  sub_callback : nat
}.

Definition CallbackList : Type := list CallbackSubscription.

(** [etl::map<uint32_t, CallbackList, MAX_EVENT_TYPES>]: entries in
    ascending key order. *)
Definition SubscriptionMap : Type := list (Z * CallbackList).

Record t : Type := {
  callbackSubscriptions_ : SubscriptionMap;
  nextId_ : Z
}.

Definition create : t := {| callbackSubscriptions_ := []; nextId_ := 1 |}.

Module EventCategory.
Definition System : Z := 0.
Definition Input : Z := 1.
Definition MIDI : Z := 2.
Definition UI : Z := 3.
Definition Integration : Z := 4.
End EventCategory.

Module InputEvent.
Definition EncoderChanged : Z := 100.
Definition ButtonPress : Z := 101.
Definition ButtonRelease : Z := 102.
End InputEvent.

Module MidiEvent.
Definition CC : Z := 2002.
End MidiEvent.

Definition getCategory (e : Event) : Z :=
  match e with
  | EncoderChangedEvent _ _ | ButtonPressEvent _ _ | ButtonReleaseEvent _ =>
      EventCategory.Input
  | MidiCCEvent _ _ _ _ => EventCategory.MIDI
  end.

Definition getType (e : Event) : Z :=
  match e with
  | EncoderChangedEvent _ _ => InputEvent.EncoderChanged
  | ButtonPressEvent _ _ => InputEvent.ButtonPress
  | ButtonReleaseEvent _ => InputEvent.ButtonRelease
  | MidiCCEvent _ _ _ _ => MidiEvent.CC
  end.

(** [(static_cast<uint32_t>(category) << 16) | type] *)
Definition makeKey (category type : Z) : Z :=
  Z.lor (wrapU32 (Z.shiftl category 16)) type.

(** [callbackSubscriptions_.find(key)] *)
Fixpoint find (m : SubscriptionMap) (key : Z) : option CallbackList :=
  match m with
  | [] => None
  | (k, l) :: rest => if k =? key then Some l else find rest key
  end.

(** Storing a list under a key: replace it in place, or insert it at its
    place in key order. *)
Fixpoint assign (m : SubscriptionMap) (key : Z) (l : CallbackList) : SubscriptionMap :=
  match m with
  | [] => [(key, l)]
  | (k, v) :: rest =>
      if key <? k then (key, l) :: (k, v) :: rest
      else if key =? k then (k, l) :: rest
      else (k, v) :: assign rest key l
  end.

(** [on].  [None] stands for the one path the function does not handle
    itself: a new key when the map already holds [MAX_EVENT_TYPES] keys,
    where [etl::map::operator[]] raises ETL's [map_full] error. *)
Definition on (bus : t) (category type : Z) (callback : option nat) : option (Z * t) :=
  match callback with
  | None => Some (0, bus)
  | Some cb =>
      let key := makeKey category type in
      let id := nextId_ bus in
      let next := wrapU8 (id + 1) in
      let sub := {| sub_id := id; sub_callback := cb |} in
      match find (callbackSubscriptions_ bus) key with
      | None =>
          if (length (callbackSubscriptions_ bus) <? System.Memory.MAX_EVENT_TYPES)%nat
          then Some (id, {| callbackSubscriptions_ :=
                              assign (callbackSubscriptions_ bus) key [sub];
                            nextId_ := next |})
          else None
      | Some l =>
          if (System.Memory.MAX_CALLBACKS_PER_EVENT <=? length l)%nat
          then Some (0, {| callbackSubscriptions_ := callbackSubscriptions_ bus;
                           nextId_ := next |})
          else Some (id, {| callbackSubscriptions_ :=
                              assign (callbackSubscriptions_ bus) key (l ++ [sub]);
                            nextId_ := next |})
      end
  end.

(** [emit]: the callbacks invoked, in order, each with the event. *)
Definition emit (bus : t) (event : Event) : list (nat * Event) :=
  match find (callbackSubscriptions_ bus) (makeKey (getCategory event) (getType event)) with
  | Some l => map (fun sub => (sub_callback sub, event)) l
  | None => []
  end.

(** Erasing the first subscription with the given id from one list. *)
Fixpoint erase_first (id : Z) (l : CallbackList) : option CallbackList :=
  match l with
  | [] => None
  | sub :: rest =>
      if sub_id sub =? id then Some rest
      else match erase_first id rest with
           | Some rest' => Some (sub :: rest')
           | None => None
           end
  end.

Fixpoint off_map (id : Z) (m : SubscriptionMap) : SubscriptionMap :=
  match m with
  | [] => []
  | (k, l) :: rest =>
      match erase_first id l with
      | Some l' => (k, l') :: rest
      | None => (k, l) :: off_map id rest
      end
  end.

(** [off] *)
Definition off (bus : t) (id : Z) : t :=
  {| callbackSubscriptions_ := off_map id (callbackSubscriptions_ bus);
     nextId_ := nextId_ bus |}.

Definition clear (bus : t) : t := create.

Definition getSubscriberCount (bus : t) : nat :=
  fold_right (fun kv count => (length (snd kv) + count)%nat) 0%nat
             (callbackSubscriptions_ bus).

(** No subscription stored in the map carries the given id. *)
Definition idFree (id : Z) (m : SubscriptionMap) : Prop :=
  Forall (fun kv => Forall (fun sub => sub_id sub <> id) (snd kv)) m.

(** The two invariants of the container: keys strictly ascending (so
    unique), and both fixed capacities respected. *)
Definition keysAscending (m : SubscriptionMap) : Prop :=
  StronglySorted Z.lt (map fst m).

Definition withinCapacity (m : SubscriptionMap) : Prop :=
  (length m <= System.Memory.MAX_EVENT_TYPES)%nat /\
  Forall (fun kv => (length (snd kv) <= System.Memory.MAX_CALLBACKS_PER_EVENT)%nat) m.

(** Subscribing a run of (category, type, callback) requests in order. *)
Fixpoint onAll (bus : t) (reqs : list (Z * Z * option nat)) : option (list Z * t) :=
  match reqs with
  | [] => Some ([], bus)
  | (c, ty, cb) :: rest =>
      match on bus c ty cb with
      | None => None
      | Some (id, bus1) =>
          match onAll bus1 rest with
          | None => None
          | Some (ids, bus2) => Some (id :: ids, bus2)
          end
      end
  end.

End EventBus.

(** ** Button controller (adapter/input/button/ButtonController.cpp) *)

Module ButtonController.

(** The per-button columns [ownedButtons_[i]->getId()], [lastStates_[i]],
    [lastChangeTime_[i]]. *)
Record Slot : Type := {
  slot_id : Z;
  lastState : bool;
  lastChangeTime : Z      (* uint32_t *)
}.

Definition t : Type := list Slot.

(** The loop body of [updateAll] for one button; [currentState] is
    [btn->isPressed()] after [btn->update()]. *)
Definition updateOne (now : Z) (b : Slot) (currentState : bool) : Slot * list Event :=
  if Bool.eqb currentState (lastState b) then (b, [])
  else
    let elapsed := wrapU32 (now - lastChangeTime b) in
    if elapsed <? System.Input.BUTTON_DEBOUNCE_MS then (b, [])
    else
      ({| slot_id := slot_id b; lastState := currentState; lastChangeTime := now |},
       [if currentState then ButtonPressEvent (slot_id b) true
        else ButtonReleaseEvent (slot_id b)]).

(** [updateAll] at time [now = millis()]; [reads] gives each button's
    logical state in index order (a missing reading leaves the button
    as it is). *)
Fixpoint updateAll (now : Z) (bs : t) (reads : list bool) : t * list Event :=
  match bs, reads with
  | b :: bs', r :: reads' =>
      let '(b1, ev) := updateOne now b r in
      let '(bs1, evs) := updateAll now bs' reads' in
      (b1 :: bs1, ev ++ evs)
  | _, _ => (bs, [])
  end.

(** One button polled at successive times with successive readings. *)
Fixpoint pollOne (b : Slot) (polls : list (Z * bool)) : Slot * list Event :=
  match polls with
  | [] => (b, [])
  | (now, r) :: rest =>
      let '(b1, ev) := updateOne now b r in
      let '(b2, evs) := pollOne b1 rest in
      (b2, ev ++ evs)
  end.

(** Press and release events of one button in strict alternation, the
    first one leaving the state [reported]. *)
Fixpoint alternates (reported : bool) (id : Z) (evs : list Event) : Prop :=
  match evs with
  | [] => True
  | e :: rest =>
      e = (if reported then ButtonReleaseEvent id else ButtonPressEvent id true) /\
      alternates (negb reported) id rest
  end.

(** [GpioPin] (core/Type.hpp), without the pull mode. *)
Inductive Source : Type := MCU | MUX.

Record GpioPin : Type := {
  source : Source;
  pin : Z          (* uint8_t *)
}.

Definition isValid (g : GpioPin) : bool :=
  match source g with
  | MUX => pin g <=? 15
  | MCU => pin g <=? 99
  end.

(** [Hardware::Button] *)
Record Setup : Type := {
  setup_id : Z;
  setup_pin : GpioPin
}.

(** The two pin readers. *)
Inductive PinReader : Type :=
| TeensyPinReader (pin : Z)
| TeensyMultiplexerPinReader (channel : Z).

(** [ButtonFactory::createPinReader]; [None] is [nullptr]. *)
Definition createPinReader (gpio : GpioPin) : option PinReader :=
  match source gpio with
  | MCU => if pin gpio >? 41 then None else Some (TeensyPinReader (pin gpio))
  | MUX => if pin gpio >? 15 then None else Some (TeensyMultiplexerPinReader (pin gpio))
  end.

(** The controller with its id index. *)
Record Controller : Type := {
  buttons : t;
  idToIndex_ : gmap Z nat
}.

(** The constructor's loop: a button whose reader cannot be created is
    skipped. *)
Fixpoint addButtons (c : Controller) (buttonSetups : list Setup) : Controller :=
  match buttonSetups with
  | [] => c
  | setup :: rest =>
      match createPinReader (setup_pin setup) with
      | Some _ =>
          let index := length (buttons c) in
          addButtons
            {| buttons := buttons c ++ [{| slot_id := setup_id setup;
                                           lastState := false;
                                           lastChangeTime := 0 |}];
               idToIndex_ := <[setup_id setup := index]> (idToIndex_ c) |}
            rest
      | None => addButtons c rest
      end
  end.

Definition construct (buttonSetups : list Setup) : Controller :=
  addButtons {| buttons := []; idToIndex_ := ∅ |} buttonSetups.

(** The index points at a button with the indexed id. *)
Definition indexed (c : Controller) : Prop :=
  forall id index, idToIndex_ c !! id = Some index ->
                   exists b, buttons c !! index = Some b /\ slot_id b = id.

(** [getButton]; [None] is [nullptr]. *)
Definition getButton (c : Controller) (id : Z) : option Slot :=
  match idToIndex_ c !! id with
  | Some index => buttons c !! index
  | None => None
  end.

End ButtonController.

(** ** Input bindings (core/input/InputBinding.cpp) *)

Module InputBinding.
Import Float32.

Inductive ButtonBindingType : Type := PRESS | RELEASE | LONG_PRESS | DOUBLE_TAP | COMBO.
Inductive EncoderBindingType : Type := TURN | TURN_WHILE_PRESSED.

Definition ButtonBindingType_eqb (a b : ButtonBindingType) : bool :=
  match a, b with
  | PRESS, PRESS | RELEASE, RELEASE | LONG_PRESS, LONG_PRESS
  | DOUBLE_TAP, DOUBLE_TAP | COMBO, COMBO => true
  | _, _ => false
  end.

(** A scope is an [lv_obj_t*]: [None] is [nullptr], [Some o] an LVGL
    object.  An action is a [std::function]: [None] when empty, otherwise
    an opaque label. *)
Record ButtonBinding : Type := {
  bb_type : ButtonBindingType;
  bb_buttonId : Z;
  bb_secondaryButton : option Z;
  bb_longPressMs : Z;
  bb_action : option nat;
  bb_enabled : bool;
  bb_scope : option nat
}.

Record EncoderBinding : Type := {
  eb_type : EncoderBindingType;
  eb_encoderId : Z;
  eb_requiredButton : option Z;
  eb_action : option nat;
  eb_enabled : bool;
  eb_scope : option nat
}.

(** What a dispatch did: the callbacks it invoked, in order. *)
Inductive Call : Type :=
| CallAction (label : nat)
| CallEncoderAction (label : nat) (value : float).

Record t : Type := mk {
  buttonBindings_ : list ButtonBinding;
  encoderBindings_ : list EncoderBinding;
  buttonStates_ : gmap Z bool;
  buttonPressTime_ : gmap Z Z;
  buttonReleaseTime_ : gmap Z Z;
  buttonTapCount_ : gmap Z Z;
  longPressTriggered_ : gmap Z bool;
  bindingsEnabled_ : bool;
  currentTime_ : Z
}.

Definition create : t :=
  mk [] [] ∅ ∅ ∅ ∅ ∅ true 0.

Definition set_buttonBindings (s : t) (v : list ButtonBinding) : t :=
  mk v (encoderBindings_ s) (buttonStates_ s) (buttonPressTime_ s)
     (buttonReleaseTime_ s) (buttonTapCount_ s) (longPressTriggered_ s)
     (bindingsEnabled_ s) (currentTime_ s).

Definition set_encoderBindings (s : t) (v : list EncoderBinding) : t :=
  mk (buttonBindings_ s) v (buttonStates_ s) (buttonPressTime_ s)
     (buttonReleaseTime_ s) (buttonTapCount_ s) (longPressTriggered_ s)
     (bindingsEnabled_ s) (currentTime_ s).

Definition set_buttonStates (s : t) (v : gmap Z bool) : t :=
  mk (buttonBindings_ s) (encoderBindings_ s) v (buttonPressTime_ s)
     (buttonReleaseTime_ s) (buttonTapCount_ s) (longPressTriggered_ s)
     (bindingsEnabled_ s) (currentTime_ s).

Definition set_buttonPressTime (s : t) (v : gmap Z Z) : t :=
  mk (buttonBindings_ s) (encoderBindings_ s) (buttonStates_ s) v
     (buttonReleaseTime_ s) (buttonTapCount_ s) (longPressTriggered_ s)
     (bindingsEnabled_ s) (currentTime_ s).

Definition set_buttonReleaseTime (s : t) (v : gmap Z Z) : t :=
  mk (buttonBindings_ s) (encoderBindings_ s) (buttonStates_ s) (buttonPressTime_ s)
     v (buttonTapCount_ s) (longPressTriggered_ s)
     (bindingsEnabled_ s) (currentTime_ s).

Definition set_buttonTapCount (s : t) (v : gmap Z Z) : t :=
  mk (buttonBindings_ s) (encoderBindings_ s) (buttonStates_ s) (buttonPressTime_ s)
     (buttonReleaseTime_ s) v (longPressTriggered_ s)
     (bindingsEnabled_ s) (currentTime_ s).

Definition set_longPressTriggered (s : t) (v : gmap Z bool) : t :=
  mk (buttonBindings_ s) (encoderBindings_ s) (buttonStates_ s) (buttonPressTime_ s)
     (buttonReleaseTime_ s) (buttonTapCount_ s) v
     (bindingsEnabled_ s) (currentTime_ s).

Definition set_currentTime (s : t) (v : Z) : t :=
  mk (buttonBindings_ s) (encoderBindings_ s) (buttonStates_ s) (buttonPressTime_ s)
     (buttonReleaseTime_ s) (buttonTapCount_ s) (longPressTriggered_ s)
     (bindingsEnabled_ s) v.

(** [setBindingsEnabled] *)
Definition setBindingsEnabled (s : t) (enabled : bool) : t :=
  mk (buttonBindings_ s) (encoderBindings_ s) (buttonStates_ s) (buttonPressTime_ s)
     (buttonReleaseTime_ s) (buttonTapCount_ s) (longPressTriggered_ s)
     enabled (currentTime_ s).

(** [std::unordered_map::operator[]] used as a read: an absent key is
    inserted with the value-initialised default. *)
Definition index {V : Type} (dflt : V) (m : gmap Z V) (k : Z) : V * gmap Z V :=
  match m !! k with
  | Some v => (v, m)
  | None => (dflt, <[k := dflt]> m)
  end.

(** *** Registration *)

Definition newButtonBinding (ty : ButtonBindingType) (id : Z) (secondary : option Z)
    (ms : Z) (cb : option nat) (scope : option nat) : ButtonBinding :=
  {| bb_type := ty; bb_buttonId := id; bb_secondaryButton := secondary;
     bb_longPressMs := ms; bb_action := cb; bb_enabled := true; bb_scope := scope |}.

Definition newEncoderBinding (ty : EncoderBindingType) (id : Z) (required : option Z)
    (cb : option nat) (scope : option nat) : EncoderBinding :=
  {| eb_type := ty; eb_encoderId := id; eb_requiredButton := required;
     eb_action := cb; eb_enabled := true; eb_scope := scope |}.

Definition push_button (s : t) (b : ButtonBinding) : t :=
  set_buttonBindings s (buttonBindings_ s ++ [b]).

Definition push_encoder (s : t) (b : EncoderBinding) : t :=
  set_encoderBindings s (encoderBindings_ s ++ [b]).

(** The global and the scoped overloads differ in [scope] only. *)
Definition onPressed (s : t) (id : Z) (cb : option nat) (scope : option nat) : t :=
  push_button s (newButtonBinding PRESS id None 0 cb scope).

Definition onReleased (s : t) (id : Z) (cb : option nat) (scope : option nat) : t :=
  push_button s (newButtonBinding RELEASE id None 0 cb scope).

Definition onLongPress (s : t) (id : Z) (cb : option nat) (ms : Z) (scope : option nat) : t :=
  push_button s (newButtonBinding LONG_PRESS id None ms cb scope).

Definition onDoubleTap (s : t) (id : Z) (cb : option nat) (scope : option nat) : t :=
  push_button s (newButtonBinding DOUBLE_TAP id None 0 cb scope).

Definition onCombo (s : t) (btn1 btn2 : Z) (cb : option nat) (scope : option nat) : t :=
  push_button s (newButtonBinding COMBO btn1 (Some btn2) 0 cb scope).

Definition onTurned (s : t) (id : Z) (cb : option nat) (scope : option nat) : t :=
  push_encoder s (newEncoderBinding TURN id None cb scope).

Definition onTurnedWhilePressed (s : t) (encoderId buttonId : Z) (cb : option nat)
    (scope : option nat) : t :=
  push_encoder s (newEncoderBinding TURN_WHILE_PRESSED encoderId (Some buttonId) cb scope).

Definition scope_eqb (a b : option nat) : bool :=
  match a, b with
  | None, None => true
  | Some x, Some y => Nat.eqb x y
  | _, _ => false
  end.

(** [clearScope] *)
Definition clearScope (s : t) (scope : option nat) : t :=
  set_encoderBindings
    (set_buttonBindings s
       (List.filter (fun b => negb (scope_eqb (bb_scope b) scope)) (buttonBindings_ s)))
    (List.filter (fun b => negb (scope_eqb (eb_scope b) scope)) (encoderBindings_ s)).

(** [clearBindings] *)
Definition clearBindings (s : t) : t :=
  set_encoderBindings (set_buttonBindings s []) [].

(** *** Dispatch

    [hidden o] is [lv_obj_has_flag(o, LV_OBJ_FLAG_HIDDEN)] at the time of
    the dispatch.  Callbacks are opaque: what a callback itself does to the
    bindings or to the LVGL tree is outside the model. *)

Section Dispatch.
Variable hidden : nat -> bool.

Definition isBindingActive (scope : option nat) : bool :=
  match scope with
  | None => true
  | Some o => negb (hidden o)
  end.

Definition is_null (scope : option nat) : bool :=
  match scope with None => true | Some _ => false end.

(** The vocabulary in which the dispatch rule is stated: the enabled
    bindings for (button, kind), those of them whose scope is a visible
    object, those without scope, and the callbacks a list of bindings
    holds. *)
Definition matchesButton (buttonId : Z) (type : ButtonBindingType)
    (b : ButtonBinding) : bool :=
  bb_enabled b && (bb_buttonId b =? buttonId) && ButtonBindingType_eqb (bb_type b) type.

Definition scopedVisible (b : ButtonBinding) : bool :=
  negb (is_null (bb_scope b)) && isBindingActive (bb_scope b).

Definition hasAction (b : ButtonBinding) : bool :=
  match bb_action b with Some _ => true | None => false end.

Fixpoint actionsOf (bs : list ButtonBinding) : list Call :=
  match bs with
  | [] => []
  | b :: rest =>
      match bb_action b with
      | Some a => CallAction a :: actionsOf rest
      | None => actionsOf rest
      end
  end.

Fixpoint triggerScopedButtonBindings (bs : list ButtonBinding) (buttonId : Z)
    (type : ButtonBindingType) : bool * list Call :=
  match bs with
  | [] => (false, [])
  | binding :: rest =>
      let '(any, calls) := triggerScopedButtonBindings rest buttonId type in
      if negb (bb_enabled binding) then (any, calls)
      else if negb (bb_buttonId binding =? buttonId) then (any, calls)
      else if negb (ButtonBindingType_eqb (bb_type binding) type) then (any, calls)
      else if is_null (bb_scope binding) then (any, calls)
      else if negb (isBindingActive (bb_scope binding)) then (any, calls)
      else match bb_action binding with
           | Some a => (true, CallAction a :: calls)
           | None => (any, calls)
           end
  end.

Fixpoint triggerGlobalButtonBindings (bs : list ButtonBinding) (buttonId : Z)
    (type : ButtonBindingType) : bool * list Call :=
  match bs with
  | [] => (false, [])
  | binding :: rest =>
      let '(any, calls) := triggerGlobalButtonBindings rest buttonId type in
      if negb (bb_enabled binding) then (any, calls)
      else if negb (bb_buttonId binding =? buttonId) then (any, calls)
      else if negb (ButtonBindingType_eqb (bb_type binding) type) then (any, calls)
      else if negb (is_null (bb_scope binding)) then (any, calls)
      else match bb_action binding with
           | Some a => (true, CallAction a :: calls)
           | None => (any, calls)
           end
  end.

Definition triggerMatchingButtonBindings (s : t) (buttonId : Z)
    (type : ButtonBindingType) : list Call :=
  if negb (bindingsEnabled_ s) then []
  else
    let '(scoped, calls) := triggerScopedButtonBindings (buttonBindings_ s) buttonId type in
    if scoped then calls
    else snd (triggerGlobalButtonBindings (buttonBindings_ s) buttonId type).

(** The [TURN_WHILE_PRESSED] guard: [true] when the binding is to be
    skipped. *)
Definition requiredButtonMissing (states : gmap Z bool) (binding : EncoderBinding) : bool :=
  match eb_type binding with
  | TURN_WHILE_PRESSED =>
      match eb_requiredButton binding with
      | Some b =>
          match states !! b with
          | Some true => false
          | _ => true
          end
      | None => false
      end
  | TURN => false
  end.

Fixpoint triggerScopedEncoderBindings (states : gmap Z bool) (bs : list EncoderBinding)
    (encoderId : Z) (encoderValue : float) : bool * list Call :=
  match bs with
  | [] => (false, [])
  | binding :: rest =>
      let '(any, calls) := triggerScopedEncoderBindings states rest encoderId encoderValue in
      if negb (eb_enabled binding) then (any, calls)
      else if negb (eb_encoderId binding =? encoderId) then (any, calls)
      else if is_null (eb_scope binding) then (any, calls)
      else if negb (isBindingActive (eb_scope binding)) then (any, calls)
      else if requiredButtonMissing states binding then (any, calls)
      else match eb_action binding with
           | Some a => (true, CallEncoderAction a encoderValue :: calls)
           | None => (any, calls)
           end
  end.

Fixpoint triggerGlobalEncoderBindings (states : gmap Z bool) (bs : list EncoderBinding)
    (encoderId : Z) (encoderValue : float) : bool * list Call :=
  match bs with
  | [] => (false, [])
  | binding :: rest =>
      let '(any, calls) := triggerGlobalEncoderBindings states rest encoderId encoderValue in
      if negb (eb_enabled binding) then (any, calls)
      else if negb (eb_encoderId binding =? encoderId) then (any, calls)
      else if negb (is_null (eb_scope binding)) then (any, calls)
      else if requiredButtonMissing states binding then (any, calls)
      else match eb_action binding with
           | Some a => (true, CallEncoderAction a encoderValue :: calls)
           | None => (any, calls)
           end
  end.

Definition triggerMatchingEncoderBindings (s : t) (encoderId : Z)
    (encoderValue : float) : list Call :=
  if negb (bindingsEnabled_ s) then []
  else
    let '(scoped, calls) :=
      triggerScopedEncoderBindings (buttonStates_ s) (encoderBindings_ s)
                                   encoderId encoderValue in
    if scoped then calls
    else snd (triggerGlobalEncoderBindings (buttonStates_ s) (encoderBindings_ s)
                                           encoderId encoderValue).

(** [onEncoderChanged] *)
Definition onEncoderChanged (s : t) (encoderId : Z) (normalizedValue : float) : list Call :=
  triggerMatchingEncoderBindings s encoderId normalizedValue.

(** [onButtonPress] at [now = millis()] *)
Definition onButtonPress (s : t) (now : Z) (buttonId : Z) : t * list Call :=
  let s1 := set_buttonStates s (<[buttonId := true]> (buttonStates_ s)) in
  let s2 := set_buttonPressTime s1 (<[buttonId := now]> (buttonPressTime_ s1)) in
  let '(release, releaseTimes) := index 0 (buttonReleaseTime_ s2) buttonId in
  let s3 := set_buttonReleaseTime s2 releaseTimes in
  let '(taps, tapCounts) := index 0 (buttonTapCount_ s3) buttonId in
  let s4 :=
    if wrapU32 (now - release) <? System.Input.DOUBLE_TAP_WINDOW_MS
    then set_buttonTapCount s3 (<[buttonId := wrapU8 (taps + 1)]> tapCounts)
    else set_buttonTapCount s3 (<[buttonId := 1]> (buttonTapCount_ s3)) in
  (s4, triggerMatchingButtonBindings s4 buttonId PRESS).

(** [isButtonComboActive] *)
Definition isButtonComboActive (s : t) (btn1 btn2 : Z) : bool :=
  match buttonStates_ s !! btn1, buttonStates_ s !! btn2 with
  | Some true, Some true => true
  | _, _ => false
  end.

Definition isPartOfCombo (binding : ButtonBinding) (releasedButtonID : Z) : bool :=
  (bb_buttonId binding =? releasedButtonID)
  || match bb_secondaryButton binding with
     | Some b => b =? releasedButtonID
     | None => false
     end.

(** One pass of [checkAndTriggerCombosOnRelease]; [scoped] selects the
    first (scoped) or the second (global) pass. *)
Fixpoint comboPass (scoped : bool) (s : t) (bs : list ButtonBinding)
    (releasedButtonID : Z) : bool * list Call :=
  match bs with
  | [] => (false, [])
  | binding :: rest =>
      let '(any, calls) := comboPass scoped s rest releasedButtonID in
      if negb (bb_enabled binding) then (any, calls)
      else if negb (ButtonBindingType_eqb (bb_type binding) COMBO) then (any, calls)
      else if (if scoped then is_null (bb_scope binding)
               else negb (is_null (bb_scope binding))) then (any, calls)
      else if scoped && negb (isBindingActive (bb_scope binding)) then (any, calls)
      else if negb (isPartOfCombo binding releasedButtonID) then (any, calls)
      else match bb_secondaryButton binding with
           | Some b2 =>
               if isButtonComboActive s (bb_buttonId binding) b2
               then match bb_action binding with
                    | Some a => (true, CallAction a :: calls)
                    | None => (any, calls)
                    end
               else (any, calls)
           | None => (any, calls)
           end
  end.

Definition checkAndTriggerCombosOnRelease (s : t) (releasedButtonID : Z) : list Call :=
  let '(scopedTriggered, calls) := comboPass true s (buttonBindings_ s) releasedButtonID in
  if scopedTriggered then calls
  else snd (comboPass false s (buttonBindings_ s) releasedButtonID).

(** [checkAndTriggerDoubleTap] *)
Definition checkAndTriggerDoubleTap (s : t) (buttonId : Z) (now : Z) : t * list Call :=
  match buttonTapCount_ s !! buttonId with
  | None => (s, [])
  | Some taps =>
      if taps <? 2 then (s, [])
      else
        match buttonReleaseTime_ s !! buttonId with
        | None => (s, [])
        | Some release =>
            if wrapU32 (now - release) <? System.Input.DOUBLE_TAP_WINDOW_MS
            then (set_buttonTapCount s (<[buttonId := 0]> (buttonTapCount_ s)),
                  triggerMatchingButtonBindings s buttonId DOUBLE_TAP)
            else (s, [])
        end
  end.

(** [onButtonRelease] at [now = millis()] *)
Definition onButtonRelease (s : t) (now : Z) (buttonId : Z) : t * list Call :=
  let combos := checkAndTriggerCombosOnRelease s buttonId in
  let s1 := set_buttonStates s (<[buttonId := false]> (buttonStates_ s)) in
  let s2 := set_buttonReleaseTime s1 (<[buttonId := now]> (buttonReleaseTime_ s1)) in
  let s3 := set_longPressTriggered s2 (<[buttonId := false]> (longPressTriggered_ s2)) in
  let released := triggerMatchingButtonBindings s3 buttonId RELEASE in
  let '(s4, doubleTap) := checkAndTriggerDoubleTap s3 buttonId now in
  (s4, combos ++ released ++ doubleTap).

(** One pass of [checkAndTriggerLongPress]: whether [longPressTriggered_]
    was set, whether an action ran, and the calls. *)
Fixpoint longPressPass (scoped : bool) (bs : list ButtonBinding) (buttonId : Z)
    (now pressTime : Z) : bool * bool * list Call :=
  match bs with
  | [] => (false, false, [])
  | binding :: rest =>
      let '(flagged, any, calls) := longPressPass scoped rest buttonId now pressTime in
      if negb (bb_enabled binding) then (flagged, any, calls)
      else if negb (ButtonBindingType_eqb (bb_type binding) LONG_PRESS) then (flagged, any, calls)
      else if negb (bb_buttonId binding =? buttonId) then (flagged, any, calls)
      else if (if scoped then is_null (bb_scope binding)
               else negb (is_null (bb_scope binding))) then (flagged, any, calls)
      else if scoped && negb (isBindingActive (bb_scope binding)) then (flagged, any, calls)
      else
        let duration :=
          if bb_longPressMs binding >? 0 then bb_longPressMs binding
          else System.Input.LONG_PRESS_DEFAULT_MS in
        if wrapU32 (now - pressTime) >=? duration
        then match bb_action binding with
             | Some a => (true, true, CallAction a :: calls)
             | None => (true, any, calls)
             end
        else (flagged, any, calls)
  end.

Definition checkAndTriggerLongPress (s : t) (buttonId : Z) (now : Z) : t * list Call :=
  let '(pressed, states) := index false (buttonStates_ s) buttonId in
  let s1 := set_buttonStates s states in
  if negb pressed then (s1, [])
  else
    let '(fired, triggered) := index false (longPressTriggered_ s1) buttonId in
    let s2 := set_longPressTriggered s1 triggered in
    if fired then (s2, [])
    else
      match buttonPressTime_ s2 !! buttonId with
      | None => (s2, [])
      | Some pressTime =>
          let '(flagged1, scopedTriggered, calls1) :=
            longPressPass true (buttonBindings_ s2) buttonId now pressTime in
          let s3 :=
            if flagged1
            then set_longPressTriggered s2 (<[buttonId := true]> (longPressTriggered_ s2))
            else s2 in
          if scopedTriggered then (s3, calls1)
          else
            let '(flagged2, _, calls2) :=
              longPressPass false (buttonBindings_ s3) buttonId now pressTime in
            let s4 :=
              if flagged2
              then set_longPressTriggered s3 (<[buttonId := true]> (longPressTriggered_ s3))
              else s3 in
            (s4, calls1 ++ calls2)
      end.

(** The order in which a range-for over [buttonStates_] yields its keys:
    every key once, in an order [std::unordered_map] leaves to the
    container. *)
Definition iterationOf (visit : list Z) (states : gmap Z bool) : Prop :=
  NoDup visit /\ forall buttonId, In buttonId visit <-> is_Some (states !! buttonId).

(** [processTick]; [visit] is the order in which the container yields the
    keys of [buttonStates_] in this loop. *)
Definition processTick (visit : list Z) (s : t) (currentTimeMs : Z) : t * list Call :=
  let s0 := set_currentTime s currentTimeMs in
  fold_left
    (fun (acc : t * list Call) (buttonId : Z) =>
       match buttonStates_ (fst acc) !! buttonId with
       | Some true =>
           let '(s1, calls) :=
             checkAndTriggerLongPress (fst acc) buttonId currentTimeMs in
           (s1, snd acc ++ calls)
       | _ => acc
       end)
    visit (s0, []).

(** The same vocabulary for the other dispatches: encoder bindings for an
    encoder, long-press bindings whose threshold has been reached, combo
    bindings the released button is part of with both buttons held. *)
Definition matchesEncoder (states : gmap Z bool) (encoderId : Z)
    (b : EncoderBinding) : bool :=
  eb_enabled b && (eb_encoderId b =? encoderId) && negb (requiredButtonMissing states b).

Definition encoderScopedVisible (b : EncoderBinding) : bool :=
  negb (is_null (eb_scope b)) && isBindingActive (eb_scope b).

Definition encoderHasAction (b : EncoderBinding) : bool :=
  match eb_action b with Some _ => true | None => false end.

Fixpoint encoderActionsOf (value : float) (bs : list EncoderBinding) : list Call :=
  match bs with
  | [] => []
  | b :: rest =>
      match eb_action b with
      | Some a => CallEncoderAction a value :: encoderActionsOf value rest
      | None => encoderActionsOf value rest
      end
  end.

Definition longPressDue (now pressTime : Z) (b : ButtonBinding) : bool :=
  wrapU32 (now - pressTime)
  >=? (if bb_longPressMs b >? 0 then bb_longPressMs b
       else System.Input.LONG_PRESS_DEFAULT_MS).

Definition comboHeld (s : t) (releasedButtonID : Z) (b : ButtonBinding) : bool :=
  isPartOfCombo b releasedButtonID
  && match bb_secondaryButton b with
     | Some b2 => isButtonComboActive s (bb_buttonId b) b2
     | None => false
     end.

Definition isCombo (b : ButtonBinding) : bool :=
  bb_enabled b && ButtonBindingType_eqb (bb_type b) COMBO.

(** The bindings a pass of the long-press check, and of the combo check,
    acts on; [scoped] selects the pass. *)
Definition longPressSelected (scoped : bool) (buttonId now pressTime : Z)
    (b : ButtonBinding) : bool :=
  matchesButton buttonId LONG_PRESS b
  && (if scoped then scopedVisible b else is_null (bb_scope b))
  && longPressDue now pressTime b.

Definition comboSelected (scoped : bool) (s : t) (released : Z)
    (b : ButtonBinding) : bool :=
  isCombo b
  && (if scoped then scopedVisible b else is_null (bb_scope b))
  && comboHeld s released b.

(** Two services agree on what a long-press check of [id] reads: the
    bindings and the three entries of [id]. *)
Definition agreeAt (id : Z) (s s' : t) : Prop :=
  buttonBindings_ s = buttonBindings_ s' /\
  buttonStates_ s !! id = buttonStates_ s' !! id /\
  longPressTriggered_ s !! id = longPressTriggered_ s' !! id /\
  buttonPressTime_ s !! id = buttonPressTime_ s' !! id.

(** The operations of the service, and a run of them. *)
Inductive Op : Type :=
| OpPress (now buttonId : Z)
| OpRelease (now buttonId : Z)
| OpTurn (encoderId : Z) (value : float)
| OpTick (visit : list Z) (now : Z)
| OpOnPressed (id : Z) (cb scope : option nat)
| OpOnReleased (id : Z) (cb scope : option nat)
| OpOnLongPress (id : Z) (cb : option nat) (ms : Z) (scope : option nat)
| OpOnDoubleTap (id : Z) (cb scope : option nat)
| OpOnCombo (btn1 btn2 : Z) (cb scope : option nat)
| OpOnTurned (id : Z) (cb scope : option nat)
| OpOnTurnedWhilePressed (encoderId buttonId : Z) (cb scope : option nat)
| OpClearScope (scope : option nat)
| OpClearBindings
| OpSetBindingsEnabled (enabled : bool).

Definition apply (s : t) (op : Op) : t * list Call :=
  match op with
  | OpPress now b => onButtonPress s now b
  | OpRelease now b => onButtonRelease s now b
  | OpTurn e v => (s, onEncoderChanged s e v)
  | OpTick visit now => processTick visit s now
  | OpOnPressed id cb scope => (onPressed s id cb scope, [])
  | OpOnReleased id cb scope => (onReleased s id cb scope, [])
  | OpOnLongPress id cb ms scope => (onLongPress s id cb ms scope, [])
  | OpOnDoubleTap id cb scope => (onDoubleTap s id cb scope, [])
  | OpOnCombo b1 b2 cb scope => (onCombo s b1 b2 cb scope, [])
  | OpOnTurned id cb scope => (onTurned s id cb scope, [])
  | OpOnTurnedWhilePressed e b cb scope => (onTurnedWhilePressed s e b cb scope, [])
  | OpClearScope scope => (clearScope s scope, [])
  | OpClearBindings => (clearBindings s, [])
  | OpSetBindingsEnabled enabled => (setBindingsEnabled s enabled, [])
  end.

Fixpoint applyAll (s : t) (ops : list Op) : t * list Call :=
  match ops with
  | [] => (s, [])
  | op :: rest =>
      let '(s1, calls) := apply s op in
      let '(s2, calls') := applyAll s1 rest in
      (s2, calls ++ calls')
  end.

Definition isReleaseOf (buttonId : Z) (op : Op) : bool :=
  match op with
  | OpRelease _ b => b =? buttonId
  | _ => false
  end.

(** The callbacks the long-press check of one button invokes when the
    button is recorded as held, and none otherwise. *)
Definition heldCheck (s : t) (now : Z) (buttonId : Z) : list Call :=
  match buttonStates_ s !! buttonId with
  | Some true => snd (checkAndTriggerLongPress s buttonId now)
  | _ => []
  end.

(** Input events delivered to the binding service, each at its time. *)
Inductive Input : Type :=
| Press (now buttonId : Z)
| Release (now buttonId : Z).

Definition step (s : t) (i : Input) : t * list Call :=
  match i with
  | Press now b => onButtonPress s now b
  | Release now b => onButtonRelease s now b
  end.

Fixpoint run (s : t) (inputs : list Input) : t * list Call :=
  match inputs with
  | [] => (s, [])
  | i :: rest =>
      let '(s1, calls) := step s i in
      let '(s2, calls') := run s1 rest in
      (s2, calls ++ calls')
  end.

End Dispatch.

End InputBinding.

(** ** MIDI mapper (core/midi/MidiMapper.cpp) *)

Module MidiMapper.
Import Float32.

(** [core/struct/MidiCCMapping.hpp] *)
Record MidiCCMapping : Type := {
  inputId : Z;      (* uint16_t *)
  channel : Z;      (* uint8_t *)
  cc : Z            (* uint8_t *)
}.

Record MidiConfig : Type := {
  cfg_channel : Z;
  cfg_control : Z
}.

(** The two [etl::flat_map]s.  Their capacity is that of the mapping
    vector they are filled from, so filling them cannot overflow. *)
Record t : Type := {
  encoders_ : gmap Z MidiConfig;
  buttons_ : gmap Z MidiConfig;
  encoderSub_ : Z;
  buttonSub_ : Z
}.

(** What a handler does to the outside: calls on [MidiOutput] and events
    put on the bus. *)
Inductive Effect : Type :=
| SendControlChange (channel control value : Z)
| BusEmit (e : Event).

(** The labels under which the mapper's two lambdas are registered. *)
Definition cb_onEncoderChangedEvent : nat := 1.
Definition cb_onButtonPressEvent : nat := 2.

(** The constructor's loop over [mappings]. *)
Fixpoint loadMappings (encoders buttons : gmap Z MidiConfig)
    (mappings : list MidiCCMapping) : gmap Z MidiConfig * gmap Z MidiConfig :=
  match mappings with
  | [] => (encoders, buttons)
  | mapping :: rest =>
      let config := {| cfg_channel := channel mapping; cfg_control := cc mapping |} in
      if (inputId mapping >=? 300) && (inputId mapping <? 500)
      then loadMappings (<[inputId mapping := config]> encoders) buttons rest
      else if (inputId mapping >=? 10) && (inputId mapping <? 100)
      then loadMappings encoders (<[inputId mapping := config]> buttons) rest
      else loadMappings encoders buttons rest
  end.

(** The constructor: fills the maps, then subscribes to [EncoderChanged]
    and [ButtonPress].  [None] when a subscription hits the bus's
    unhandled [map_full] path. *)
Definition create (bus : EventBus.t) (mappings : list MidiCCMapping)
    : option (t * EventBus.t) :=
  let '(encoders, buttons) := loadMappings ∅ ∅ mappings in
  match EventBus.on bus EventBus.EventCategory.Input EventBus.InputEvent.EncoderChanged
                    (Some cb_onEncoderChangedEvent) with
  | None => None
  | Some (encoderSub, bus1) =>
      match EventBus.on bus1 EventBus.EventCategory.Input EventBus.InputEvent.ButtonPress
                        (Some cb_onButtonPressEvent) with
      | None => None
      | Some (buttonSub, bus2) =>
          Some ({| encoders_ := encoders; buttons_ := buttons;
                   encoderSub_ := encoderSub; buttonSub_ := buttonSub |}, bus2)
      end
  end.

(** The destructor's effect on the bus. *)
Definition destroy (m : t) (bus : EventBus.t) : EventBus.t :=
  let bus1 := if encoderSub_ m =? 0 then bus else EventBus.off bus (encoderSub_ m) in
  if buttonSub_ m =? 0 then bus1 else EventBus.off bus1 (buttonSub_ m).

Definition findEncoder (m : t) (id : Z) : option MidiConfig := encoders_ m !! id.
Definition findButton (m : t) (id : Z) : option MidiConfig := buttons_ m !! id.

(** [onEncoderChangedEvent]; [None] where the conversion of the product to
    [uint8_t] is undefined. *)
Definition onEncoderChangedEvent (m : t) (encoderId : Z) (normalizedValue : float)
    : option (t * list Effect) :=
  match findEncoder m encoderId with
  | None => Some (m, [])
  | Some config =>
      match to_uint8 (mul normalizedValue (of_int 127)) with
      | None => None
      | Some value =>
          Some (m, [SendControlChange (cfg_channel config) (cfg_control config) value;
                    BusEmit (MidiCCEvent (cfg_channel config) (cfg_control config) value
                                         (wrapU8 encoderId))])
      end
  end.

(** [onButtonPressEvent] *)
Definition onButtonPressEvent (m : t) (buttonId : Z) (pressed : bool)
    : option (t * list Effect) :=
  match findButton m buttonId with
  | None => Some (m, [])
  | Some config =>
      let value := if pressed then 127 else 0 in
      Some (m, [SendControlChange (cfg_channel config) (cfg_control config) value;
                BusEmit (MidiCCEvent (cfg_channel config) (cfg_control config) value
                                     (wrapU8 buttonId))])
  end.

(** The configuration the last entry for [id] in the list gives. *)
Fixpoint lastMapping (id : Z) (mappings : list MidiCCMapping) : option MidiConfig :=
  match mappings with
  | [] => None
  | mapping :: rest =>
      match lastMapping id rest with
      | Some config => Some config
      | None =>
          if inputId mapping =? id
          then Some {| cfg_channel := channel mapping; cfg_control := cc mapping |}
          else None
      end
  end.

(** The value the specification gives for an encoder:
    [round(normalizedValue * 127)]. *)
Definition spec_encoder_value (normalizedValue : float) : option Z :=
  to_uint8 (round (mul normalizedValue (of_int 127))).

End MidiMapper.

(** ** The default configuration (config/InputID.hpp,
    config/InputDefinition.hpp, config/MidiMapping.hpp) and the factories
    that load it *)

Module Config.

Module ButtonID.
Definition LEFT_TOP : Z := 10.
Definition LEFT_CENTER : Z := 11.
Definition LEFT_BOTTOM : Z := 12.
Definition BOTTOM_LEFT : Z := 20.
Definition BOTTOM_CENTER : Z := 21.
Definition BOTTOM_RIGHT : Z := 22.
Definition MACRO_1 : Z := 31.
Definition MACRO_2 : Z := 32.
Definition MACRO_3 : Z := 33.
Definition MACRO_4 : Z := 34.
Definition MACRO_5 : Z := 35.
Definition MACRO_6 : Z := 36.
Definition MACRO_7 : Z := 37.
Definition MACRO_8 : Z := 38.
Definition NAV : Z := 40.
End ButtonID.

Module EncoderID.
Definition MACRO_1 : Z := 301.
Definition MACRO_2 : Z := 302.
Definition MACRO_3 : Z := 303.
Definition MACRO_4 : Z := 304.
Definition MACRO_5 : Z := 305.
Definition MACRO_6 : Z := 306.
Definition MACRO_7 : Z := 307.
Definition MACRO_8 : Z := 308.
Definition NAV : Z := 400.
Definition OPT : Z := 410.
End EncoderID.

Definition mcuPin (pinNum : Z) : ButtonController.GpioPin :=
  {| ButtonController.source := ButtonController.MCU; ButtonController.pin := pinNum |}.

Definition muxPin (channel : Z) : ButtonController.GpioPin :=
  {| ButtonController.source := ButtonController.MUX; ButtonController.pin := channel |}.

Definition button (id : Z) (gpio : ButtonController.GpioPin) : ButtonController.Setup :=
  {| ButtonController.setup_id := id; ButtonController.setup_pin := gpio |}.

Definition BUTTONS : list ButtonController.Setup :=
  [ button ButtonID.LEFT_TOP (muxPin 9);
    button ButtonID.LEFT_CENTER (muxPin 10);
    button ButtonID.LEFT_BOTTOM (muxPin 11);
    button ButtonID.BOTTOM_LEFT (muxPin 14);
    button ButtonID.BOTTOM_CENTER (muxPin 13);
    button ButtonID.BOTTOM_RIGHT (muxPin 12);
    button ButtonID.NAV (mcuPin 32);
    button ButtonID.MACRO_1 (muxPin 7);
    button ButtonID.MACRO_2 (muxPin 4);
    button ButtonID.MACRO_3 (muxPin 2);
    button ButtonID.MACRO_4 (muxPin 0);
    button ButtonID.MACRO_5 (muxPin 6);
    button ButtonID.MACRO_6 (muxPin 5);
    button ButtonID.MACRO_7 (muxPin 3);
    button ButtonID.MACRO_8 (muxPin 1) ].

(** [Hardware::Encoder] defaults: 24 pulses per revolution, one step per
    detent, absolute mode. *)
Definition encoder (id ppr stepsPerDetent : Z) (mode : Encoder.EncoderMode)
    : Encoder.Setup :=
  {| Encoder.setup_id := id; Encoder.setup_ppr := ppr;
     Encoder.setup_stepsPerDetent := stepsPerDetent; Encoder.setup_mode := mode |}.

Definition ENCODERS : list Encoder.Setup :=
  [ encoder EncoderID.MACRO_1 24 1 Encoder.Absolute;
    encoder EncoderID.MACRO_2 24 1 Encoder.Absolute;
    encoder EncoderID.MACRO_3 24 1 Encoder.Absolute;
    encoder EncoderID.MACRO_4 24 1 Encoder.Absolute;
    encoder EncoderID.MACRO_5 24 1 Encoder.Absolute;
    encoder EncoderID.MACRO_6 24 1 Encoder.Absolute;
    encoder EncoderID.MACRO_7 24 1 Encoder.Absolute;
    encoder EncoderID.MACRO_8 24 1 Encoder.Absolute;
    encoder EncoderID.NAV 24 4 Encoder.Relative;
    encoder EncoderID.OPT 600 1 Encoder.Absolute ].

Definition mapping (id channel cc : Z) : MidiMapper.MidiCCMapping :=
  {| MidiMapper.inputId := id; MidiMapper.channel := channel; MidiMapper.cc := cc |}.

Definition MIDI_MAPPINGS : list MidiMapper.MidiCCMapping :=
  [ mapping EncoderID.MACRO_1 0 1;
    mapping EncoderID.MACRO_2 0 2;
    mapping EncoderID.MACRO_3 0 3;
    mapping EncoderID.MACRO_4 0 4;
    mapping EncoderID.MACRO_5 0 5;
    mapping EncoderID.MACRO_6 0 6;
    mapping EncoderID.MACRO_7 0 7;
    mapping EncoderID.MACRO_8 0 8;
    mapping EncoderID.NAV 0 9;
    mapping EncoderID.OPT 0 10;
    mapping ButtonID.MACRO_1 0 11;
    mapping ButtonID.MACRO_2 0 12;
    mapping ButtonID.MACRO_3 0 13;
    mapping ButtonID.MACRO_4 0 14;
    mapping ButtonID.MACRO_5 0 15;
    mapping ButtonID.MACRO_6 0 16;
    mapping ButtonID.MACRO_7 0 17;
    mapping ButtonID.MACRO_8 0 18;
    mapping ButtonID.LEFT_TOP 0 19;
    mapping ButtonID.LEFT_CENTER 0 20;
    mapping ButtonID.LEFT_BOTTOM 0 21;
    mapping ButtonID.BOTTOM_LEFT 0 22;
    mapping ButtonID.BOTTOM_CENTER 0 23;
    mapping ButtonID.BOTTOM_RIGHT 0 24;
    mapping ButtonID.NAV 0 25 ].

End Config.

(** Copying a table into an [etl::vector] of fixed capacity with
    [push_back]; [None] when the table does not fit, where ETL raises
    [vector_full]. *)
Definition pushAll {A : Type} (capacity : nat) (table : list A) : option (list A) :=
  if (length table <=? capacity)%nat then Some table else None.

Module MidiFactory.
Definition createDefault : option (list MidiMapper.MidiCCMapping) :=
  pushAll System.Memory.MAX_MIDI_MAPPINGS Config.MIDI_MAPPINGS.
End MidiFactory.

Module InputFactory.
Definition createEncoders : option (list Encoder.Setup) :=
  pushAll System.Hardware.ENCODERS_COUNT Config.ENCODERS.

Definition createButtons : option (list ButtonController.Setup) :=
  pushAll System.Hardware.BUTTONS_COUNT Config.BUTTONS.
End InputFactory.

(** * Theorems *)

(** * Facts about binary32 arithmetic *)

Module Float32Facts.





















End Float32Facts.

(** * Exact results in binary32 *)

Module Float32Exact.
Import Float32Facts.














End Float32Exact.

(** * Rounded results in binary32 *)

Module Float32Round.
Import Float32Facts Float32Exact.







End Float32Round.

(** * The encoder *)

Module EncoderFacts.
Import Float32 Encoder.

Local Opaque Float32.add Float32.mul Float32.div Float32.of_int Float32.eqb
  Float32.round Float32.one Float32.minus_one Float32.zero.

Lemma wrap32_small (z : Z) : -2147483648 <= z <= 2147483647 -> wrap32 z = z.
Proof. intros H. unfold wrap32. rewrite Z.mod_small; lia. Qed.

Lemma handleRelativeMode_below (e : Encoder.t) (delta : Z) :
  c_abs (wrap32 (accumulatedDelta_ e + delta)) < stepsPerDetent_ e ->
  handleRelativeMode e delta =
  (set_accumulatedDelta e (wrap32 (accumulatedDelta_ e + delta)), None).
Proof.
  intros H. unfold handleRelativeMode.
  destruct e as [id md ppr spd vr vp ln acc rp hp pv ds lq].
  cbn [accumulatedDelta_ stepsPerDetent_ set_accumulatedDelta] in *.
  destruct (Z.geb_spec (c_abs (wrap32 (acc + delta))) spd); [lia|].
  reflexivity.
Qed.

Lemma handleRelativeMode_reached (e : Encoder.t) (delta : Z) :
  stepsPerDetent_ e <= c_abs (wrap32 (accumulatedDelta_ e + delta)) ->
  let acc := wrap32 (accumulatedDelta_ e + delta) in
  let rel := add (relativePosition_ e) (if acc >? 0 then one else minus_one) in
  handleRelativeMode e delta =
  (emitPendingEvent
     (set_accumulatedDelta (set_relativePosition (set_accumulatedDelta e acc) rel) 0) rel,
   Some rel).
Proof.
  intros H acc rel. unfold handleRelativeMode.
  destruct e as [id md ppr spd vr vp ln acc0 rp hp pv ds lq].
  cbn [accumulatedDelta_ stepsPerDetent_ set_accumulatedDelta relativePosition_] in *.
  fold acc.
  destruct (Z.geb_spec (c_abs acc) spd); [|subst acc; lia].
  reflexivity.
Qed.

(** What one transition does to the pending slot and to the value the
    encoder stands at. *)
Lemma processEncoderChange_pending (e e' : Encoder.t) (d : Z) (o : option float) :
  processEncoderChange e d = (e', o) ->
  id_ e' = id_ e /\
  match o with
  | Some v => hasPendingEvent_ e' = true /\ pendingValue_ e' = v /\ currentValue e' = v
  | None => hasPendingEvent_ e' = hasPendingEvent_ e /\
            pendingValue_ e' = pendingValue_ e /\
            currentValue e' = currentValue e
  end.
Proof.
  unfold processEncoderChange.
  destruct (d =? 0); [intros [= <- <-]; auto|].
  destruct e as [id md ppr spd vr vp ln acc rp hp pv ds lq].
  destruct md; cbn [mode_].
  - unfold handleAbsoluteMode, applyQuantization, currentValue. cbn.
    destruct (eqb _ ln).
    + intros [= <- <-]. cbn. auto.
    + destruct (ds =? 0) eqn:Hds.
      * intros [= <- <-]. cbn. rewrite Hds. auto.
      * destruct (eqb _ lq); intros [= <- <-]; cbn; rewrite Hds; auto.
  - unfold handleRelativeMode, currentValue. cbn.
    destruct (negb _); intros [= <- <-]; cbn; auto.
Qed.


Lemma flushEvents_events (e : Encoder.t) :
  snd (flushEvents e) =
  if hasPendingEvent_ e then [EncoderChangedEvent (id_ e) (pendingValue_ e)] else [].
Proof. unfold flushEvents. destruct (hasPendingEvent_ e); reflexivity. Qed.

Lemma flushEvents_clears (e : Encoder.t) :
  hasPendingEvent_ (fst (flushEvents e)) = false /\ id_ (fst (flushEvents e)) = id_ e.
Proof.
  unfold flushEvents. destruct (hasPendingEvent_ e) eqn:Hp; cbn; auto.
Qed.

Lemma processAll_pending (deltas : list Z) (e : Encoder.t) :
  let e1 := fst (processAll e deltas) in
  let buffered := snd (processAll e deltas) in
  id_ e1 = id_ e /\
  match lastBuffered buffered with
  | Some v => hasPendingEvent_ e1 = true /\ pendingValue_ e1 = v /\ currentValue e1 = v
  | None => hasPendingEvent_ e1 = hasPendingEvent_ e /\
            pendingValue_ e1 = pendingValue_ e /\
            currentValue e1 = currentValue e
  end.
Proof.
  revert e. induction deltas as [|d ds IH]; intros e; [cbn; auto|].
  cbn [processAll].
  destruct (processEncoderChange e d) as [e' o] eqn:Hstep.
  specialize (IH e'). destruct (processAll e' ds) as [e2 os] eqn:Hrest.
  cbn [fst snd lastBuffered] in *.
  apply processEncoderChange_pending in Hstep. destruct Hstep as [Hid Hstep].
  destruct IH as [Hid2 IH]. split; [congruence|].
  destruct (lastBuffered os) as [v|]; [exact IH|].
  destruct IH as (Hp & Hv & Hc).
  destruct o as [v|]; destruct Hstep as (Hp' & Hv' & Hc'); repeat split; congruence.
Qed.

End EncoderFacts.

Import Float32 Encoder.

(** C2 (as amended).  Between two flushes the pending slot coalesces: the
    flush after any run of transitions emits at most one
    [EncoderChangedEvent]; it emits exactly one, carrying the value buffered
    last (which is the value the encoder stands at), when some transition
    of the run buffered a value, and nothing otherwise.  A flush with an
    empty slot emits nothing. *)
Theorem flush_coalesces (e : Encoder.t) (deltas : list Z) :
  let e0 := fst (flushEvents e) in
  let e1 := fst (processAll e0 deltas) in
  let buffered := snd (processAll e0 deltas) in
  snd (flushEvents e1) =
    match lastBuffered buffered with
    | Some v => [EncoderChangedEvent (id_ e) v]
    | None => []
    end /\
  (forall v, lastBuffered buffered = Some v -> v = currentValue e1) /\
  snd (flushEvents (fst (flushEvents e1))) = [].
Proof.
  intros e0 e1 buffered.
  destruct (EncoderFacts.flushEvents_clears e) as [Hp0 Hid0]. fold e0 in Hp0, Hid0.
  pose proof (EncoderFacts.processAll_pending deltas e0) as [Hid H].
  fold e1 buffered in Hid, H.
  split; [|split].
  - rewrite EncoderFacts.flushEvents_events.
    destruct (lastBuffered buffered) as [v|].
    + destruct H as (-> & -> & _). congruence.
    + destruct H as (-> & _). rewrite Hp0. reflexivity.
  - intros v Hv. rewrite Hv in H. destruct H as (_ & _ & ->). reflexivity.
  - rewrite EncoderFacts.flushEvents_events.
    destruct (EncoderFacts.flushEvents_clears e1) as [-> _]. reflexivity.
Qed.

(** C2, as first stated, fails: a relative-mode encoder with four steps per
    detent that sees one transition emits no event at the next flush. *)
Lemma flush_after_one_transition_is_empty :
  let e := create {| setup_id := 400; setup_ppr := 24;
                     setup_stepsPerDetent := 4; setup_mode := Relative |} in
  snd (flushEvents (fst (processAll (fst (flushEvents e)) [1]))) = [] /\
  length (snd (flushEvents (fst (processAll (fst (flushEvents e)) [1])))) <> 1%nat.
Proof. split; [reflexivity | discriminate]. Qed.

Module AbsoluteModeFacts.

Local Opaque Float32.add Float32.mul Float32.div Float32.of_int Float32.eqb
  Float32.round Float32.one Float32.minus_one Float32.zero.






End AbsoluteModeFacts.




Module RelativeModeFacts.
Local Opaque Float32.add Float32.one Float32.minus_one.





End RelativeModeFacts.




(** * The binding dispatcher *)

Module InputBindingFacts.
Import InputBinding.

Section Dispatch.
Variable hidden : nat -> bool.

Lemma triggerScopedButtonBindings_spec (bs : list ButtonBinding) (id : Z)
    (ty : ButtonBindingType) :
  let scoped :=
    List.filter (fun b => matchesButton id ty b && scopedVisible hidden b) bs in
  triggerScopedButtonBindings hidden bs id ty = (existsb hasAction scoped, actionsOf scoped).
Proof.
  induction bs as [|b rest IH]; [reflexivity|].
  cbn [triggerScopedButtonBindings List.filter]. cbv zeta in IH. rewrite IH.
  unfold matchesButton, scopedVisible, hasAction.
  destruct (bb_enabled b), (bb_buttonId b =? id),
    (ButtonBindingType_eqb (bb_type b) ty), (is_null (bb_scope b)),
    (isBindingActive hidden (bb_scope b));
    cbn [negb andb existsb actionsOf]; try reflexivity;
    destruct (bb_action b); reflexivity.
Qed.

Lemma triggerGlobalButtonBindings_spec (bs : list ButtonBinding) (id : Z)
    (ty : ButtonBindingType) :
  let globals :=
    List.filter (fun b => matchesButton id ty b && is_null (bb_scope b)) bs in
  triggerGlobalButtonBindings bs id ty = (existsb hasAction globals, actionsOf globals).
Proof.
  induction bs as [|b rest IH]; [reflexivity|].
  cbn [triggerGlobalButtonBindings List.filter]. cbv zeta in IH. rewrite IH.
  unfold matchesButton, hasAction.
  destruct (bb_enabled b), (bb_buttonId b =? id),
    (ButtonBindingType_eqb (bb_type b) ty), (is_null (bb_scope b));
    cbn [negb andb existsb actionsOf]; try reflexivity;
    destruct (bb_action b); reflexivity.
Qed.

End Dispatch.
End InputBindingFacts.

Import InputBinding.

(** C1 (as amended).  With bindings enabled, a dispatch for (button, kind)
    runs the callbacks of the enabled matching bindings whose scope is a
    visible object, in registration order, and no global one, as soon as
    one of those scoped bindings holds a callback; otherwise it runs the
    callbacks of all enabled matching bindings without scope. *)
Theorem scoped_bindings_preempt_globals (hidden : nat -> bool) (s : InputBinding.t)
    (buttonId : Z) (type : ButtonBindingType) :
  bindingsEnabled_ s = true ->
  let scoped :=
    List.filter (fun b => matchesButton buttonId type b && scopedVisible hidden b)
                (buttonBindings_ s) in
  let globals :=
    List.filter (fun b => matchesButton buttonId type b && is_null (bb_scope b))
                (buttonBindings_ s) in
  triggerMatchingButtonBindings hidden s buttonId type =
  if existsb hasAction scoped then actionsOf scoped else actionsOf globals.
Proof.
  intros Hen scoped globals. unfold triggerMatchingButtonBindings.
  rewrite Hen. cbn [negb].
  rewrite InputBindingFacts.triggerScopedButtonBindings_spec.
  rewrite InputBindingFacts.triggerGlobalButtonBindings_spec.
  reflexivity.
Qed.

Lemma scoped_bindings_preempt_globals_witness :
  let hidden := fun o : nat => Nat.eqb o 2 in
  let s := onPressed (onPressed (onPressed InputBinding.create 10 (Some 7%nat) None)
                                10 (Some 8%nat) (Some 1%nat))
                     10 (Some 9%nat) (Some 2%nat) in
  bindingsEnabled_ s = true /\
  triggerMatchingButtonBindings hidden s 10 PRESS = [CallAction 8%nat].
Proof.
  intros hidden s. split; [reflexivity|].
  exact (scoped_bindings_preempt_globals hidden s 10 PRESS eq_refl).
Defined.

(** C1, as first stated, fails: a visible scoped binding that holds no
    callback does not stop the global binding of the same button and kind. *)
Lemma scoped_binding_without_callback_does_not_preempt :
  let hidden := fun _ : nat => false in
  let s := onPressed (onPressed InputBinding.create 10 None (Some 1%nat))
                     10 (Some 7%nat) None in
  bindingsEnabled_ s = true /\
  existsb (fun b => matchesButton 10 PRESS b && scopedVisible hidden b)
          (buttonBindings_ s) = true /\
  triggerMatchingButtonBindings hidden s 10 PRESS = [CallAction 7%nat].
Proof. repeat split. Qed.

Module DoubleTapFacts.

Section Dispatch.
Variable hidden : nat -> bool.

(** [onButtonPress] on the tap counter. *)
Lemma onButtonPress_tapCount (s : InputBinding.t) (now id : Z) :
  let release := default 0 (buttonReleaseTime_ s !! id) in
  let taps := default 0 (buttonTapCount_ s !! id) in
  let s1 := fst (onButtonPress hidden s now id) in
  buttonTapCount_ s1 !! id =
    Some (if wrapU32 (now - release) <? System.Input.DOUBLE_TAP_WINDOW_MS
          then wrapU8 (taps + 1) else 1) /\
  buttonReleaseTime_ s1 !! id = Some release.
Proof.
  destruct s as [bb eb st pt rt tc lp en ct]. unfold onButtonPress, index. cbn.
  destruct (rt !! id) as [r|] eqn:Hr; destruct (tc !! id) as [c|] eqn:Hc; cbn;
    destruct (wrapU32 _ <? _); cbn;
    rewrite ?lookup_insert_eq, ?Hr; auto.
Qed.

(** [onButtonRelease] on the tap counter and on the calls it makes: the
    double-tap dispatch runs exactly when the counter has reached 2; the
    time of the release plays no part. *)
Lemma onButtonRelease_doubleTap (s : InputBinding.t) (now id : Z) :
  let s2 := fst (onButtonRelease hidden s now id) in
  let calls := snd (onButtonRelease hidden s now id) in
  let combos := checkAndTriggerCombosOnRelease hidden s id in
  let released := triggerMatchingButtonBindings hidden s id RELEASE in
  match buttonTapCount_ s !! id with
  | Some taps =>
      if 2 <=? taps
      then calls = combos ++ released ++ triggerMatchingButtonBindings hidden s id DOUBLE_TAP /\
           buttonTapCount_ s2 !! id = Some 0
      else calls = combos ++ released /\ buttonTapCount_ s2 !! id = Some taps
  | None => calls = combos ++ released /\ buttonTapCount_ s2 !! id = None
  end.
Proof.
  destruct s as [bb eb st pt rt tc lp en ct].
  unfold onButtonRelease, checkAndTriggerDoubleTap. cbn.
  rewrite lookup_insert_eq.
  replace (wrapU32 (now - now)) with 0 by (unfold wrapU32; rewrite Z.sub_diag; reflexivity).
  destruct (tc !! id) as [c|] eqn:Hc; cbn.
  - destruct (Z.ltb_spec c 2); destruct (Z.leb_spec 2 c); try lia; cbn.
    + rewrite app_nil_r. auto.
    + rewrite lookup_insert_eq. auto.
  - rewrite app_nil_r. auto.
Qed.

End Dispatch.
End DoubleTapFacts.

(** C5 (the code departs from the claim).  A button with a double-tap
    binding is pressed at 1000 ms, released at 1010, pressed again at 1100
    and held, and released at 2000.  The two releases are 990 ms apart,
    beyond the window of [DOUBLE_TAP_WINDOW_MS] = 300 ms, where the claim
    has the binding never fire and the tap counter reset to 1.  The code
    fires the double tap at the second release and leaves the counter at
    0: the counter went to 2 at the second press (90 ms after the first
    release), and the window test made at the release compares the
    release time with itself, [onButtonRelease] having just stored it, so
    it always passes; run against the release time still stored before
    that release, the same test refuses.  The first release alone fires
    nothing.  In general, whatever the state and the time of the release,
    the double-tap dispatch runs at a release exactly when the counter has
    reached 2; and the counter is advanced by a press that comes within
    the window of the previous release, and set to 1 by any other
    press. *)
Theorem double_tap_fires_on_late_release :
  let hidden := fun _ : nat => false in
  let s0 := onDoubleTap InputBinding.create 10 (Some 5%nat) None in
  let first := run hidden s0 [Press 1000 10; Release 1010 10] in
  let pressed := run hidden s0 [Press 1000 10; Release 1010 10; Press 1100 10] in
  let out := run hidden s0
               [Press 1000 10; Release 1010 10; Press 1100 10; Release 2000 10] in
  System.Input.DOUBLE_TAP_WINDOW_MS = 300 /\
  System.Input.DOUBLE_TAP_WINDOW_MS <= 2000 - 1010 /\
  (snd first = [] /\ buttonTapCount_ (fst first) !! 10 = Some 1 /\
   buttonReleaseTime_ (fst first) !! 10 = Some 1010) /\
  (snd pressed = [] /\ buttonTapCount_ (fst pressed) !! 10 = Some 2) /\
  snd out = [CallAction 5%nat] /\
  buttonTapCount_ (fst out) !! 10 = Some 0 /\
  buttonReleaseTime_ (fst out) !! 10 = Some 2000 /\
  snd (checkAndTriggerDoubleTap hidden (fst pressed) 10 2000) = [] /\
  (forall (s : InputBinding.t) (now id : Z),
     let calls := snd (onButtonRelease hidden s now id) in
     let before := checkAndTriggerCombosOnRelease hidden s id ++
                   triggerMatchingButtonBindings hidden s id RELEASE in
     match buttonTapCount_ s !! id with
     | Some taps =>
         if 2 <=? taps
         then calls = before ++ triggerMatchingButtonBindings hidden s id DOUBLE_TAP /\
              buttonTapCount_ (fst (onButtonRelease hidden s now id)) !! id = Some 0
         else calls = before /\
              buttonTapCount_ (fst (onButtonRelease hidden s now id)) !! id = Some taps
     | None => calls = before
     end) /\
  (forall (s : InputBinding.t) (now id : Z),
     let release := default 0 (buttonReleaseTime_ s !! id) in
     let taps := default 0 (buttonTapCount_ s !! id) in
     buttonTapCount_ (fst (onButtonPress hidden s now id)) !! id =
       Some (if wrapU32 (now - release) <? System.Input.DOUBLE_TAP_WINDOW_MS
             then wrapU8 (taps + 1) else 1)).
Proof.
  intros hidden s0 first pressed out.
  split; [reflexivity|]. split; [vm_compute; discriminate|].
  split; [vm_compute; repeat split|]. split; [vm_compute; repeat split|].
  split; [vm_compute; reflexivity|]. split; [vm_compute; reflexivity|].
  split; [vm_compute; reflexivity|]. split; [vm_compute; reflexivity|].
  split.
  - intros s now id calls before.
    pose proof (DoubleTapFacts.onButtonRelease_doubleTap hidden s now id) as H.
    cbv zeta in H. subst calls before.
    destruct (buttonTapCount_ s !! id) as [taps|].
    + destruct (2 <=? taps); destruct H as [H1 H2]; rewrite H1, ?app_assoc; auto.
    + destruct H as [H1 _]. exact H1.
  - intros s now id release taps.
    apply (DoubleTapFacts.onButtonPress_tapCount hidden s now id).
Qed.

(** * The button controller *)

Module ButtonControllerFacts.
Import ButtonController.

(** Inside the debounce window nothing is reported and nothing changes. *)
Lemma updateOne_absorbed (now : Z) (b : Slot) (r : bool) :
  wrapU32 (now - lastChangeTime b) < System.Input.BUTTON_DEBOUNCE_MS ->
  updateOne now b r = (b, []).
Proof.
  intros H. unfold updateOne. destruct (Bool.eqb r (lastState b)); [reflexivity|].
  destruct (Z.ltb_spec (wrapU32 (now - lastChangeTime b)) System.Input.BUTTON_DEBOUNCE_MS);
    [reflexivity | lia].
Qed.

(** With the window open, a differing state is reported, once. *)
Lemma updateOne_reported (now : Z) (b : Slot) (r : bool) :
  System.Input.BUTTON_DEBOUNCE_MS <= wrapU32 (now - lastChangeTime b) ->
  updateOne now b r =
  if Bool.eqb r (lastState b) then (b, [])
  else ({| slot_id := slot_id b; lastState := r; lastChangeTime := now |},
        [if r then ButtonPressEvent (slot_id b) true else ButtonReleaseEvent (slot_id b)]).
Proof.
  intros H. unfold updateOne. destruct (Bool.eqb r (lastState b)); [reflexivity|].
  destruct (Z.ltb_spec (wrapU32 (now - lastChangeTime b)) System.Input.BUTTON_DEBOUNCE_MS);
    [lia | reflexivity].
Qed.

Lemma pollOne_absorbed (polls : list (Z * bool)) (b : Slot) :
  Forall (fun p => wrapU32 (fst p - lastChangeTime b) < System.Input.BUTTON_DEBOUNCE_MS)
         polls ->
  pollOne b polls = (b, []).
Proof.
  induction 1 as [|[now r] rest Hnow _ IH]; [reflexivity|].
  cbn [pollOne]. cbn [fst] in Hnow. rewrite (updateOne_absorbed now b r Hnow), IH.
  reflexivity.
Qed.

Lemma pollOne_app (p1 p2 : list (Z * bool)) (b : Slot) :
  pollOne b (p1 ++ p2) =
  (fst (pollOne (fst (pollOne b p1)) p2),
   snd (pollOne b p1) ++ snd (pollOne (fst (pollOne b p1)) p2)).
Proof.
  revert b. induction p1 as [|[now r] rest IH]; intros b.
  - cbn. destruct (pollOne b p2); reflexivity.
  - cbn [pollOne app]. destruct (updateOne now b r) as [b1 ev].
    rewrite IH. destruct (pollOne b1 rest) as [b2 evs]. cbn [fst snd].
    rewrite app_assoc. reflexivity.
Qed.

End ButtonControllerFacts.

Import ButtonController.

(** C9 (as amended).  Whatever raw states are polled while fewer than
    [BUTTON_DEBOUNCE_MS] ms have passed since the last reported change,
    none is reported; the first poll at or after the interval reports
    exactly one transition, to the state read at that poll, when that
    state differs from the reported one, and nothing when the button has
    toggled back to it.  Never two. *)
Theorem debounce_absorbs_then_catches_up (b : Slot) (polls : list (Z * bool))
    (now : Z) (r : bool) :
  Forall (fun p => wrapU32 (fst p - lastChangeTime b) < System.Input.BUTTON_DEBOUNCE_MS)
         polls ->
  System.Input.BUTTON_DEBOUNCE_MS <= wrapU32 (now - lastChangeTime b) ->
  pollOne b polls = (b, []) /\
  pollOne b (polls ++ [(now, r)]) =
    if Bool.eqb r (lastState b) then (b, [])
    else ({| slot_id := slot_id b; lastState := r; lastChangeTime := now |},
          [if r then ButtonPressEvent (slot_id b) true
           else ButtonReleaseEvent (slot_id b)]).
Proof.
  intros Hin Hout.
  pose proof (ButtonControllerFacts.pollOne_absorbed polls b Hin) as Habs.
  split; [exact Habs|].
  rewrite ButtonControllerFacts.pollOne_app, Habs. cbn [fst snd pollOne app].
  rewrite (ButtonControllerFacts.updateOne_reported now b r Hout).
  destruct (Bool.eqb r (lastState b)); reflexivity.
Qed.

Lemma debounce_absorbs_then_catches_up_witness :
  let b := {| slot_id := 10; lastState := true; lastChangeTime := 1000 |} in
  Forall (fun p => wrapU32 (fst p - lastChangeTime b) < System.Input.BUTTON_DEBOUNCE_MS)
         [(1010, false); (1020, true); (1030, false)] /\
  System.Input.BUTTON_DEBOUNCE_MS <= wrapU32 (1060 - lastChangeTime b) /\
  pollOne b [(1010, false); (1020, true); (1030, false); (1060, false)] =
    ({| slot_id := 10; lastState := false; lastChangeTime := 1060 |},
     [ButtonReleaseEvent 10]).
Proof.
  intros b.
  assert (H1 : Forall (fun p => wrapU32 (fst p - lastChangeTime b)
                                < System.Input.BUTTON_DEBOUNCE_MS)
                      [(1010, false); (1020, true); (1030, false)])
    by (repeat constructor).
  assert (H2 : System.Input.BUTTON_DEBOUNCE_MS <= wrapU32 (1060 - lastChangeTime b))
    by (vm_compute; discriminate).
  split; [exact H1|]. split; [exact H2|].
  exact (proj2 (debounce_absorbs_then_catches_up b _ 1060 false H1 H2)).
Defined.

(** C9, as first stated, fails: a button reported pressed at 1000 ms whose
    raw state toggles twice inside the window (released at 1010, pressed
    again at 1020) is back at the reported state, and the polls up to and
    after the end of the window report no transition at all. *)
Lemma two_toggles_inside_window_report_nothing :
  let b := {| slot_id := 10; lastState := true; lastChangeTime := 1000 |} in
  pollOne b [(1010, false); (1020, true); (1060, true); (1100, true)] = (b, []).
Proof. reflexivity. Qed.

(** * The event bus *)

Module EventBusFacts.
Import EventBus.

Lemma find_assign_eq (m : SubscriptionMap) (key : Z) (l : CallbackList) :
  find (assign m key l) key = Some l.
Proof.
  induction m as [|[k v] rest IH]; cbn.
  - rewrite Z.eqb_refl. reflexivity.
  - destruct (Z.ltb_spec key k); cbn.
    + rewrite Z.eqb_refl. reflexivity.
    + destruct (Z.eqb_spec key k) as [->|Hne]; cbn.
      * rewrite Z.eqb_refl. reflexivity.
      * destruct (Z.eqb_spec k key); [congruence | exact IH].
Qed.

Lemma find_assign_ne (m : SubscriptionMap) (key key' : Z) (l : CallbackList) :
  key' <> key -> find (assign m key l) key' = find m key'.
Proof.
  intros Hne. induction m as [|[k v] rest IH]; cbn.
  - destruct (Z.eqb_spec key key'); [congruence | reflexivity].
  - destruct (Z.ltb_spec key k); cbn.
    + destruct (Z.eqb_spec key key'); [congruence | reflexivity].
    + destruct (Z.eqb_spec key k) as [->|Hk]; cbn.
      * destruct (Z.eqb_spec k key'); [congruence | reflexivity].
      * destruct (Z.eqb_spec k key'); [reflexivity | exact IH].
Qed.

End EventBusFacts.

Import EventBus.

(** C6 (the code departs from the claim).  On a fresh bus, 255
    subscriptions with a callback, 15 under each of 17 keys, all succeed
    with non-zero ids and stay within both capacities (17 of
    [MAX_EVENT_TYPES] keys, 15 of [MAX_CALLBACKS_PER_EVENT] subscribers
    per key).  The next subscription, for a new key, exceeds no capacity
    either, and yet [on] returns the invalid id 0 for it, the 8-bit id
    counter having wrapped; and although 0 is returned the registry has
    changed: the subscription is stored under id 0 (256 subscribers) and
    its callback is invoked on [emit].  The per-key capacity, for
    comparison, is guarded: the 17th subscriber of one key gets 0 and the
    registry stays as it is. *)
Theorem on_returns_zero_for_stored_subscription :
  let reqs := flat_map (fun ty => repeat (EventCategory.Input, Z.of_nat ty, Some 7%nat) 15)
                       (seq 1 17) in
  let full := repeat (EventCategory.Input, InputEvent.ButtonPress, Some 7%nat) 16 in
  let event := MidiCCEvent 0 0 7 64 in
  match onAll EventBus.create reqs with
  | Some (ids, bus) =>
      length ids = 255%nat /\ forallb (fun id => negb (id =? 0)) ids = true /\
      length (callbackSubscriptions_ bus) = 17%nat /\
      (17 <? System.Memory.MAX_EVENT_TYPES)%nat = true /\
      forallb (fun kv => (length (snd kv) <? System.Memory.MAX_CALLBACKS_PER_EVENT)%nat)
              (callbackSubscriptions_ bus) = true /\
      find (callbackSubscriptions_ bus) (makeKey EventCategory.MIDI MidiEvent.CC) = None /\
      getSubscriberCount bus = 255%nat /\
      match on bus EventCategory.MIDI MidiEvent.CC (Some 9%nat) with
      | Some (id, bus') =>
          id = 0 /\
          find (callbackSubscriptions_ bus') (makeKey EventCategory.MIDI MidiEvent.CC)
          = Some [{| sub_id := 0; sub_callback := 9%nat |}] /\
          getSubscriberCount bus' = 256%nat /\
          emit bus' event = [(9%nat, event)]
      | None => False
      end
  | None => False
  end /\
  match onAll EventBus.create full with
  | Some (ids, bus) =>
      forallb (fun id => negb (id =? 0)) ids = true /\
      match on bus EventCategory.Input InputEvent.ButtonPress (Some 9%nat) with
      | Some (id, bus') =>
          id = 0 /\ callbackSubscriptions_ bus' = callbackSubscriptions_ bus
      | None => False
      end
  | None => False
  end.
Proof. vm_compute. repeat split. Qed.

(** * The MIDI mapper *)

Module MidiMapperFacts.
Import MidiMapper.

(** [loadMappings] stores an id only in the map of its range. *)
Lemma loadMappings_ranges (mappings : list MidiCCMapping)
    (encoders buttons : gmap Z MidiConfig) (id : Z) :
  let '(encoders', buttons') := loadMappings encoders buttons mappings in
  (~ (300 <= id < 500) -> encoders' !! id = encoders !! id) /\
  (~ (10 <= id < 100) -> buttons' !! id = buttons !! id).
Proof.
  revert encoders buttons.
  induction mappings as [|m rest IH]; intros encoders buttons; cbn [loadMappings].
  - auto.
  - destruct (Z.geb_spec (inputId m) 300); destruct (Z.ltb_spec (inputId m) 500);
      cbn [andb].
    + specialize (IH (<[inputId m := {| cfg_channel := channel m; cfg_control := cc m |}]>
                        encoders) buttons).
      destruct (loadMappings _ buttons rest) as [e' b']. destruct IH as [IHe IHb].
      split; [|exact IHb]. intros Hid. rewrite (IHe Hid).
      apply lookup_insert_ne. lia.
    + all: destruct (Z.geb_spec (inputId m) 10); destruct (Z.ltb_spec (inputId m) 100);
        cbn [andb]; try apply IH; try lia.
    + destruct (Z.geb_spec (inputId m) 10); destruct (Z.ltb_spec (inputId m) 100);
        cbn [andb]; try apply IH.
      specialize (IH encoders
                     (<[inputId m := {| cfg_channel := channel m; cfg_control := cc m |}]>
                        buttons)).
      destruct (loadMappings encoders _ rest) as [e' b']. destruct IH as [IHe IHb].
      split; [exact IHe|]. intros Hid. rewrite (IHb Hid).
      apply lookup_insert_ne. lia.
    + lia.
Qed.

End MidiMapperFacts.

Import Float32 MidiMapper.

(** C7 (as amended).  For an encoder event whose id is in the table the
    mapper makes exactly one [sendControlChange], on the mapped channel and
    controller, with the product [normalizedValue * 127.0f] converted to
    [uint8_t] (cut towards zero, not rounded), and then emits one
    [MidiCCEvent] with the same channel, controller and value.  For a
    mapped button a press sends 127. *)
Theorem mapped_control_sends_one_cc (m : MidiMapper.t) (id : Z) (config : MidiConfig) :
  (findEncoder m id = Some config ->
   forall normalizedValue value,
     to_uint8 (mul normalizedValue (of_int 127)) = Some value ->
     onEncoderChangedEvent m id normalizedValue =
     Some (m, [SendControlChange (cfg_channel config) (cfg_control config) value;
               BusEmit (MidiCCEvent (cfg_channel config) (cfg_control config) value
                                    (wrapU8 id))])) /\
  (findButton m id = Some config ->
   onButtonPressEvent m id true =
   Some (m, [SendControlChange (cfg_channel config) (cfg_control config) 127;
             BusEmit (MidiCCEvent (cfg_channel config) (cfg_control config) 127
                                  (wrapU8 id))])).
Proof.
  split.
  - intros Hf nv value Hv. unfold onEncoderChangedEvent. rewrite Hf, Hv. reflexivity.
  - intros Hf. unfold onButtonPressEvent. rewrite Hf. reflexivity.
Qed.

(** C7, as first stated, fails: for the value 0.25 on a mapped encoder the
    mapper sends 31, where rounding 0.25 * 127 = 31.75 gives 32. *)
Lemma encoder_value_is_truncated_not_rounded :
  let m := {| encoders_ := {[ 301 := {| cfg_channel := 0; cfg_control := 1 |} ]};
              buttons_ := ∅; encoderSub_ := 1; buttonSub_ := 2 |} in
  let quarter := div (of_int 1) (of_int 4) in
  onEncoderChangedEvent m 301 quarter =
    Some (m, [SendControlChange 0 1 31; BusEmit (MidiCCEvent 0 1 31 45)]) /\
  spec_encoder_value quarter = Some 32.
Proof. split; vm_compute; reflexivity. Qed.

(** C8.  An encoder or button event whose id has no entry in the mapper's
    table makes no [sendControlChange], emits no event and leaves the
    mapper as it is. *)
Theorem unmapped_control_is_ignored (m : MidiMapper.t) (id : Z) :
  (findEncoder m id = None ->
   forall normalizedValue, onEncoderChangedEvent m id normalizedValue = Some (m, [])) /\
  (findButton m id = None ->
   forall pressed, onButtonPressEvent m id pressed = Some (m, [])).
Proof.
  split; intros Hf ?.
  - unfold onEncoderChangedEvent. rewrite Hf. reflexivity.
  - unfold onButtonPressEvent. rewrite Hf. reflexivity.
Qed.

(** C10.  An entry of the mapping table whose id lies outside both 10..99
    and 300..499 is stored in neither map by the constructor: the control
    is unmapped, and its encoder and button events send nothing. *)
Theorem out_of_range_mapping_is_dropped (bus bus' : EventBus.t)
    (mappings : list MidiCCMapping) (m : MidiMapper.t) (id : Z) :
  MidiMapper.create bus mappings = Some (m, bus') ->
  ~ (300 <= id < 500) -> ~ (10 <= id < 100) ->
  findEncoder m id = None /\ findButton m id = None /\
  (forall normalizedValue, onEncoderChangedEvent m id normalizedValue = Some (m, [])) /\
  (forall pressed, onButtonPressEvent m id pressed = Some (m, [])).
Proof.
  intros Hc He Hb. unfold MidiMapper.create in Hc.
  pose proof (MidiMapperFacts.loadMappings_ranges mappings ∅ ∅ id) as Hl.
  destruct (loadMappings ∅ ∅ mappings) as [encoders buttons].
  destruct Hl as [Hle Hlb]. specialize (Hle He). specialize (Hlb Hb).
  rewrite lookup_empty in Hle, Hlb.
  destruct (EventBus.on bus _ _ _) as [[encoderSub bus1]|]; [|discriminate].
  destruct (EventBus.on bus1 _ _ _) as [[buttonSub bus2]|]; [|discriminate].
  injection Hc as <- <-.
  assert (Hfe : findEncoder
                  {| encoders_ := encoders; buttons_ := buttons;
                     encoderSub_ := encoderSub; buttonSub_ := buttonSub |} id = None)
    by exact Hle.
  assert (Hfb : findButton
                  {| encoders_ := encoders; buttons_ := buttons;
                     encoderSub_ := encoderSub; buttonSub_ := buttonSub |} id = None)
    by exact Hlb.
  repeat split; try assumption; intros ?.
  - unfold onEncoderChangedEvent. rewrite Hfe. reflexivity.
  - unfold onButtonPressEvent. rewrite Hfb. reflexivity.
Qed.

Lemma out_of_range_mapping_is_dropped_witness :
  let mappings := [ {| inputId := 600; channel := 0; cc := 1 |};
                    {| inputId := 5; channel := 0; cc := 2 |};
                    {| inputId := 10; channel := 0; cc := 19 |} ] in
  exists m bus',
    MidiMapper.create EventBus.create mappings = Some (m, bus') /\
    ~ (300 <= 600 < 500) /\ ~ (10 <= 600 < 100) /\
    findEncoder m 600 = None /\ findButton m 600 = None /\
    (forall normalizedValue, onEncoderChangedEvent m 600 normalizedValue = Some (m, [])) /\
    (forall pressed, onButtonPressEvent m 600 pressed = Some (m, [])).
Proof.
  intros mappings.
  destruct (MidiMapper.create EventBus.create mappings) as [[m bus']|] eqn:Hc;
    [|discriminate Hc].
  exists m, bus'. split; [reflexivity|].
  assert (H1 : ~ (300 <= 600 < 500)) by lia.
  assert (H2 : ~ (10 <= 600 < 100)) by lia.
  split; [exact H1|]. split; [exact H2|].
  exact (out_of_range_mapping_is_dropped EventBus.create bus' mappings m 600 Hc H1 H2).
Defined.

Lemma mapped_control_sends_one_cc_witness :
  let config := {| cfg_channel := 0; cfg_control := 1 |} in
  let m := {| encoders_ := {[ 301 := config ]};
              buttons_ := {[ 10 := {| cfg_channel := 0; cfg_control := 19 |} ]};
              encoderSub_ := 1; buttonSub_ := 2 |} in
  findEncoder m 301 = Some config /\
  to_uint8 (mul one (of_int 127)) = Some 127 /\
  onEncoderChangedEvent m 301 one =
    Some (m, [SendControlChange 0 1 127; BusEmit (MidiCCEvent 0 1 127 (wrapU8 301))]).
Proof.
  intros config m.
  assert (H1 : findEncoder m 301 = Some config) by reflexivity.
  assert (H2 : to_uint8 (mul one (of_int 127)) = Some 127) by (vm_compute; reflexivity).
  split; [exact H1|]. split; [exact H2|].
  exact (proj1 (mapped_control_sends_one_cc m 301 config) H1 one 127 H2).
Defined.

Lemma unmapped_control_is_ignored_witness :
  let m := {| encoders_ := {[ 301 := {| cfg_channel := 0; cfg_control := 1 |} ]};
              buttons_ := {[ 10 := {| cfg_channel := 0; cfg_control := 19 |} ]};
              encoderSub_ := 1; buttonSub_ := 2 |} in
  findButton m 11 = None /\
  onButtonPressEvent m 11 true = Some (m, []).
Proof.
  intros m.
  assert (H1 : findButton m 11 = None) by reflexivity.
  split; [exact H1|].
  exact (proj2 (unmapped_control_is_ignored m 11) H1 true).
Defined.

(** * More on the event bus *)

Module EventBusMore.
Import EventBus.

Lemma makeKey_value (category type : Z) :
  0 <= category < 256 -> 0 <= type < 65536 ->
  makeKey category type = category * 65536 + type.
Proof.
  intros Hc Ht. unfold makeKey, wrapU32.
  rewrite Z.shiftl_mul_pow2 by lia. change (2 ^ 16) with 65536.
  rewrite Z.mod_small by lia.
  rewrite <- Z.lxor_lor, <- Z.add_nocarry_lxor; try reflexivity.
  all: apply Z.bits_inj'; intros n Hn; rewrite Z.land_spec, Z.bits_0;
    destruct (Z_lt_le_dec n 16) as [Hlt|Hge].
  all: try (replace (category * 65536) with (category * 2 ^ 16) by reflexivity;
            rewrite Z.mul_pow2_bits_low by lia; reflexivity).
  all: assert (Z.testbit type n = false) as ->;
    [| apply andb_false_r].
  all: destruct (Z.eq_dec type 0) as [->|Hne]; [apply Z.bits_0|];
    apply Z.bits_above_log2; [lia|];
    apply Z.log2_lt_pow2; [lia|];
    apply Z.lt_le_trans with (2 ^ 16); [change (2 ^ 16) with 65536; lia|];
    apply Z.pow_le_mono_r; lia.
Qed.

End EventBusMore.

Import EventBus.

(** X1.  Distinct (category, type) pairs, with an 8-bit category and a 16-bit
    type, never share a subscription key. *)
Theorem makeKey_injective (c1 t1 c2 t2 : Z) :
  0 <= c1 < 256 -> 0 <= c2 < 256 -> 0 <= t1 < 65536 -> 0 <= t2 < 65536 ->
  (c1, t1) <> (c2, t2) -> makeKey c1 t1 <> makeKey c2 t2.
Proof.
  intros H1 H2 H3 H4 Hne. rewrite !EventBusMore.makeKey_value by assumption.
  intros Heq. apply Hne. f_equal; lia.
Qed.

Lemma makeKey_injective_witness :
  makeKey EventCategory.Input InputEvent.ButtonPress
  <> makeKey EventCategory.MIDI MidiEvent.CC.
Proof.
  apply (makeKey_injective 1 101 2 2002); try lia.
  intros H. discriminate H.
Defined.

Module EventBusLemmas.

Lemma erase_first_free (id : Z) (l : CallbackList) :
  Forall (fun sub => sub_id sub <> id) l -> erase_first id l = None.
Proof.
  induction 1 as [|sub rest Hsub _ IH]; [reflexivity|]. cbn.
  destruct (Z.eqb_spec (sub_id sub) id); [contradiction|]. rewrite IH. reflexivity.
Qed.

Lemma erase_first_last (id : Z) (cb : nat) (l : CallbackList) :
  Forall (fun sub => sub_id sub <> id) l ->
  erase_first id (l ++ [{| sub_id := id; sub_callback := cb |}]) = Some l.
Proof.
  induction 1 as [|sub rest Hsub _ IH]; cbn.
  - rewrite Z.eqb_refl. reflexivity.
  - destruct (Z.eqb_spec (sub_id sub) id); [contradiction|]. rewrite IH. reflexivity.
Qed.

Lemma off_map_free (id : Z) (m : SubscriptionMap) :
  idFree id m -> off_map id m = m.
Proof.
  induction 1 as [|[k l] rest Hl _ IH]; [reflexivity|]. cbn in *.
  rewrite (erase_first_free id l Hl), IH. reflexivity.
Qed.

Lemma find_free (id : Z) (m : SubscriptionMap) (key : Z) (l : CallbackList) :
  idFree id m -> find m key = Some l -> Forall (fun sub => sub_id sub <> id) l.
Proof.
  induction 1 as [|[k v] rest Hv _ IH]; cbn; [discriminate|].
  destruct (k =? key); [intros [= <-]; exact Hv | exact IH].
Qed.

(** Unsubscribing what [assign] has just stored gives the map with the
    shorter list under the key. *)
Lemma off_map_assign (id : Z) (m : SubscriptionMap) (key : Z) (l' l : CallbackList) :
  idFree id m -> erase_first id l' = Some l ->
  off_map id (assign m key l') = assign m key l.
Proof.
  intros Hfree Herase. induction Hfree as [|[k v] rest Hv Hrest IH]; cbn.
  - rewrite Herase. reflexivity.
  - destruct (key <? k); cbn.
    + rewrite Herase. reflexivity.
    + destruct (key =? k); cbn.
      * rewrite Herase. reflexivity.
      * cbn in Hv. rewrite (erase_first_free id v Hv), IH. reflexivity.
Qed.

Lemma find_assign (m : SubscriptionMap) (key k : Z) (l : CallbackList) :
  find (assign m key l) k = if k =? key then Some l else find m k.
Proof.
  destruct (Z.eqb_spec k key) as [->|Hne].
  - apply EventBusFacts.find_assign_eq.
  - apply EventBusFacts.find_assign_ne. exact Hne.
Qed.

(** [emit] sees a map only through [find], and an empty list like no list. *)
Lemma emit_find (bus bus' : EventBus.t) (e : Event) :
  (forall k, default [] (find (callbackSubscriptions_ bus') k)
             = default [] (find (callbackSubscriptions_ bus) k)) ->
  emit bus' e = emit bus e.
Proof.
  intros H. unfold emit. specialize (H (makeKey (getCategory e) (getType e))).
  destruct (find (callbackSubscriptions_ bus') _), (find (callbackSubscriptions_ bus) _);
    cbn in H; subst; reflexivity.
Qed.

End EventBusLemmas.

(** X2.  Registration order: an accepted subscription is called last for the
    events of its own key, after the subscribers already there, and is not
    called for any other key. *)
Theorem emit_after_on (bus bus' : EventBus.t) (category type : Z) (cb : nat) (id : Z) :
  on bus category type (Some cb) = Some (id, bus') ->
  (length (default [] (find (callbackSubscriptions_ bus) (makeKey category type)))
   < System.Memory.MAX_CALLBACKS_PER_EVENT)%nat ->
  forall e,
    emit bus' e =
    if makeKey (getCategory e) (getType e) =? makeKey category type
    then emit bus e ++ [(cb, e)] else emit bus e.
Proof.
  intros Hon Hroom e. unfold on in Hon. unfold emit.
  set (key := makeKey category type) in *.
  set (k := makeKey (getCategory e) (getType e)).
  destruct (find (callbackSubscriptions_ bus) key) as [l|] eqn:Hfind; cbn in Hroom.
  - destruct (Nat.leb_spec System.Memory.MAX_CALLBACKS_PER_EVENT (length l)); [lia|].
    injection Hon as <- <-. cbn [callbackSubscriptions_].
    rewrite EventBusLemmas.find_assign.
    destruct (Z.eqb_spec k key) as [->|Hne]; [|reflexivity].
    rewrite Hfind, map_app. reflexivity.
  - destruct (length (callbackSubscriptions_ bus) <? System.Memory.MAX_EVENT_TYPES)%nat;
      [|discriminate].
    injection Hon as <- <-. cbn [callbackSubscriptions_].
    rewrite EventBusLemmas.find_assign.
    destruct (Z.eqb_spec k key) as [->|Hne]; [|reflexivity].
    rewrite Hfind. reflexivity.
Qed.

Lemma emit_after_on_witness :
  let bus := {| callbackSubscriptions_ :=
                  [(makeKey 1 101, [{| sub_id := 1; sub_callback := 7%nat |}])];
                nextId_ := 2 |} in
  exists bus',
    on bus 1 101 (Some 8%nat) = Some (2, bus') /\
    emit bus' (ButtonPressEvent 10 true)
    = [(7%nat, ButtonPressEvent 10 true); (8%nat, ButtonPressEvent 10 true)] /\
    emit bus' (ButtonReleaseEvent 10) = [].
Proof.
  intros bus.
  destruct (on bus 1 101 (Some 8%nat)) as [[id bus']|] eqn:Hon; [|discriminate Hon].
  assert (Hid : id = 2) by (vm_compute in Hon; congruence). subst id.
  assert (Hroom : (length (default [] (find (callbackSubscriptions_ bus) (makeKey 1 101)))
                   < System.Memory.MAX_CALLBACKS_PER_EVENT)%nat)
    by (vm_compute; lia).
  exists bus'. split; [reflexivity|]. split.
  - exact (emit_after_on bus bus' 1 101 8%nat 2 Hon Hroom (ButtonPressEvent 10 true)).
  - exact (emit_after_on bus bus' 1 101 8%nat 2 Hon Hroom (ButtonReleaseEvent 10)).
Defined.

(** X3.  Subscribe, then unsubscribe with the returned id: every event is
    delivered as before, provided the id was not already in use (and also
    when the subscription was refused). *)
Theorem off_undoes_on (bus bus' : EventBus.t) (category type : Z) (cb : nat) (id : Z) :
  on bus category type (Some cb) = Some (id, bus') ->
  idFree id (callbackSubscriptions_ bus) ->
  forall e, emit (off bus' id) e = emit bus e.
Proof.
  intros Hon Hfree e. apply EventBusLemmas.emit_find. intros k.
  unfold on in Hon. set (key := makeKey category type) in *.
  destruct (find (callbackSubscriptions_ bus) key) as [l|] eqn:Hfind.
  - destruct (System.Memory.MAX_CALLBACKS_PER_EVENT <=? length l)%nat.
    + injection Hon as <- <-. cbn [off callbackSubscriptions_].
      rewrite EventBusLemmas.off_map_free by exact Hfree. reflexivity.
    + injection Hon as <- <-. cbn [off callbackSubscriptions_].
      rewrite (EventBusLemmas.off_map_assign _ _ key _ l Hfree)
        by (apply EventBusLemmas.erase_first_last;
            eapply EventBusLemmas.find_free; eassumption).
      rewrite EventBusLemmas.find_assign.
      destruct (Z.eqb_spec k key) as [->|]; [rewrite Hfind|]; reflexivity.
  - destruct (length (callbackSubscriptions_ bus) <? System.Memory.MAX_EVENT_TYPES)%nat;
      [|discriminate].
    injection Hon as <- <-. cbn [off callbackSubscriptions_].
    rewrite (EventBusLemmas.off_map_assign _ _ key _ [] Hfree)
      by (cbn; rewrite Z.eqb_refl; reflexivity).
    rewrite EventBusLemmas.find_assign.
    destruct (Z.eqb_spec k key) as [->|]; [rewrite Hfind|]; reflexivity.
Qed.

Lemma off_undoes_on_witness :
  let bus := {| callbackSubscriptions_ :=
                  [(makeKey 1 101, [{| sub_id := 1; sub_callback := 7%nat |}])];
                nextId_ := 2 |} in
  exists bus',
    on bus 1 100 (Some 8%nat) = Some (2, bus') /\
    idFree 2 (callbackSubscriptions_ bus) /\
    emit (off bus' 2) (EncoderChangedEvent 301 Float32.one)
    = emit bus (EncoderChangedEvent 301 Float32.one).
Proof.
  intros bus.
  destruct (on bus 1 100 (Some 8%nat)) as [[id bus']|] eqn:Hon; [|discriminate Hon].
  assert (Hid : id = 2) by (vm_compute in Hon; congruence). subst id.
  assert (Hfree : idFree 2 (callbackSubscriptions_ bus)).
  { repeat constructor. cbn. discriminate. }
  exists bus'. split; [reflexivity|]. split; [exact Hfree|].
  exact (off_undoes_on bus bus' 1 100 8%nat 2 Hon Hfree _).
Defined.

(** X4.  Unsubscribing an id that no subscription carries changes nothing. *)
Theorem off_unknown_id (bus : EventBus.t) (id : Z) :
  idFree id (callbackSubscriptions_ bus) -> off bus id = bus.
Proof.
  intros Hfree. unfold off. rewrite EventBusLemmas.off_map_free by exact Hfree.
  destruct bus; reflexivity.
Qed.

Lemma off_unknown_id_witness :
  let bus := {| callbackSubscriptions_ :=
                  [(makeKey 1 101, [{| sub_id := 1; sub_callback := 7%nat |}])];
                nextId_ := 2 |} in
  idFree 9 (callbackSubscriptions_ bus) /\ off bus 9 = bus.
Proof.
  intros bus.
  assert (Hfree : idFree 9 (callbackSubscriptions_ bus)).
  { repeat constructor. cbn. discriminate. }
  split; [exact Hfree | exact (off_unknown_id bus 9 Hfree)].
Defined.

Module EventBusInvariant.

Lemma find_None_keys (m : SubscriptionMap) (key : Z) :
  find m key = None <-> ~ In key (map fst m).
Proof.
  induction m as [|[k l] rest IH]; cbn; [tauto|].
  destruct (Z.eqb_spec k key); [split; [discriminate | tauto]|].
  rewrite IH. tauto.
Qed.

Lemma assign_keys (m : SubscriptionMap) (key : Z) (l : CallbackList) (k : Z) :
  In k (map fst (assign m key l)) <-> k = key \/ In k (map fst m).
Proof.
  induction m as [|[k0 v] rest IH]; cbn; [intuition|].
  destruct (key <? k0); cbn; [intuition|].
  destruct (Z.eqb_spec key k0) as [->|]; cbn; [intuition|].
  rewrite IH. intuition.
Qed.

Lemma assign_Forall (P : Z * CallbackList -> Prop) (m : SubscriptionMap) (key : Z)
    (l : CallbackList) :
  Forall P m -> P (key, l) -> Forall P (assign m key l).
Proof.
  intros Hm Hkey. induction Hm as [|[k v] rest Hv Hrest IH]; cbn.
  - constructor; [exact Hkey | constructor].
  - destruct (key <? k); [repeat (constructor; try assumption)|].
    destruct (Z.eqb_spec key k) as [->|]; constructor; assumption.
Qed.

Lemma ascending_head_None (k : Z) (rest : SubscriptionMap) (key : Z) :
  keysAscending ((k, []) :: rest) -> key <= k -> find rest key = None.
Proof.
  unfold keysAscending. cbn. intros Hs Hle. inversion Hs as [|? ? _ Hall]; subst.
  apply find_None_keys. intros Hin.
  rewrite List.Forall_forall in Hall. specialize (Hall key Hin). lia.
Qed.

Lemma ascending_tail (kv : Z * CallbackList) (rest : SubscriptionMap) :
  keysAscending (kv :: rest) -> keysAscending rest.
Proof. unfold keysAscending. cbn. intros Hs. inversion Hs; assumption. Qed.

Lemma ascending_head (k : Z) (v v' : CallbackList) (rest : SubscriptionMap) :
  keysAscending ((k, v) :: rest) -> keysAscending ((k, v') :: rest).
Proof. intros H. exact H. Qed.

(** On a map with ascending keys [assign] keeps the keys ascending. *)
Lemma assign_ascending (m : SubscriptionMap) (key : Z) (l : CallbackList) :
  keysAscending m -> keysAscending (assign m key l).
Proof.
  induction m as [|[k v] rest IH]; intros Hs; cbn.
  - repeat constructor.
  - destruct (Z.ltb_spec key k) as [Hlt|Hge].
    + unfold keysAscending in *. cbn in *. constructor; [exact Hs|].
      inversion Hs as [|? ? _ Hall]; subst. constructor; [exact Hlt|].
      eapply List.Forall_impl; [|exact Hall]. cbn. intros; lia.
    + destruct (Z.eqb_spec key k) as [->|Hne]; [exact Hs|].
      specialize (IH (ascending_tail _ _ Hs)).
      unfold keysAscending in *. cbn in *.
      inversion Hs as [|? ? _ Hall]; subst. constructor; [exact IH|].
      apply List.Forall_forall. intros x Hx. apply assign_keys in Hx.
      destruct Hx as [->|Hx]; [lia|].
      rewrite List.Forall_forall in Hall. exact (Hall x Hx).
Qed.

(** ... replaces in place when the key is there, and inserts otherwise. *)
Lemma assign_length (m : SubscriptionMap) (key : Z) (l : CallbackList) :
  keysAscending m ->
  length (assign m key l) =
    match find m key with Some _ => length m | None => S (length m) end.
Proof.
  induction m as [|[k v] rest IH]; intros Hs; cbn; [reflexivity|].
  destruct (Z.ltb_spec key k) as [Hlt|Hge].
  - destruct (Z.eqb_spec k key); [lia|].
    rewrite (ascending_head_None k rest key (ascending_head _ _ _ _ Hs)) by lia.
    reflexivity.
  - destruct (Z.eqb_spec key k) as [->|Hne].
    + rewrite Z.eqb_refl. reflexivity.
    + destruct (Z.eqb_spec k key); [lia|]. cbn.
      rewrite (IH (ascending_tail _ _ Hs)). destruct (find rest key); reflexivity.
Qed.

Lemma count_find (m : SubscriptionMap) (key : Z) :
  (length (default [] (find m key))
   <= getSubscriberCount {| callbackSubscriptions_ := m; nextId_ := 0 |})%nat.
Proof.
  unfold getSubscriberCount. cbn [callbackSubscriptions_].
  induction m as [|[k v] rest IH]; cbn; [lia|].
  destruct (k =? key); cbn in *; lia.
Qed.

Lemma assign_count (m : SubscriptionMap) (key : Z) (l : CallbackList) :
  keysAscending m ->
  getSubscriberCount {| callbackSubscriptions_ := assign m key l; nextId_ := 0 |} =
    (getSubscriberCount {| callbackSubscriptions_ := m; nextId_ := 0 |}
     + length l - length (default [] (find m key)))%nat.
Proof.
  unfold getSubscriberCount. cbn [callbackSubscriptions_].
  induction m as [|[k v] rest IH]; intros Hs; cbn; [lia|].
  destruct (Z.ltb_spec key k) as [Hlt|Hge]; cbn.
  - destruct (Z.eqb_spec k key); [lia|].
    rewrite (ascending_head_None k rest key (ascending_head _ _ _ _ Hs)) by lia.
    cbn. lia.
  - destruct (Z.eqb_spec key k) as [->|Hne]; cbn.
    + rewrite Z.eqb_refl. cbn. lia.
    + destruct (Z.eqb_spec k key); [lia|].
      rewrite (IH (ascending_tail _ _ Hs)).
      pose proof (count_find rest key) as Hc.
      unfold getSubscriberCount in Hc. cbn [callbackSubscriptions_] in Hc. lia.
Qed.

Lemma off_map_keys (id : Z) (m : SubscriptionMap) :
  map fst (off_map id m) = map fst m.
Proof.
  induction m as [|[k l] rest IH]; [reflexivity|]. cbn.
  destruct (erase_first id l); cbn; [reflexivity | rewrite IH; reflexivity].
Qed.

Lemma erase_first_length (id : Z) (l l' : CallbackList) :
  erase_first id l = Some l' -> length l = S (length l').
Proof.
  revert l'. induction l as [|sub rest IH]; intros l'; cbn; [discriminate|].
  destruct (sub_id sub =? id); [intros [= <-]; reflexivity|].
  destruct (erase_first id rest) as [r|]; [|discriminate].
  intros [= <-]. cbn. rewrite (IH r eq_refl). reflexivity.
Qed.

Lemma off_map_capacity (id : Z) (m : SubscriptionMap) :
  withinCapacity m -> withinCapacity (off_map id m).
Proof.
  unfold withinCapacity. intros [Hlen Hall]. split.
  - rewrite <- (length_map fst), off_map_keys, length_map. exact Hlen.
  - clear Hlen. induction Hall as [|[k l] rest Hl Hrest IH]; cbn; [constructor|].
    destruct (erase_first id l) as [l'|] eqn:He.
    + constructor; [|assumption]. cbn in *.
      apply erase_first_length in He. lia.
    + constructor; assumption.
Qed.

End EventBusInvariant.

(** X5.  The invariants of the registry.  From the fresh bus on, whatever is
    subscribed or unsubscribed: the keys stay strictly ascending (hence
    unique), there are never more than [MAX_EVENT_TYPES] keys, and no key
    ever holds more than [MAX_CALLBACKS_PER_EVENT] subscribers. *)
Theorem registry_within_capacity (bus : EventBus.t) :
  keysAscending (callbackSubscriptions_ bus) ->
  withinCapacity (callbackSubscriptions_ bus) ->
  (forall category type callback id bus',
     on bus category type callback = Some (id, bus') ->
     keysAscending (callbackSubscriptions_ bus') /\
     withinCapacity (callbackSubscriptions_ bus')) /\
  (forall id,
     keysAscending (callbackSubscriptions_ (off bus id)) /\
     withinCapacity (callbackSubscriptions_ (off bus id))) /\
  keysAscending (callbackSubscriptions_ EventBus.create) /\
  withinCapacity (callbackSubscriptions_ EventBus.create).
Proof.
  intros Hs Hc. split; [|split; [|split]].
  - intros category type [cb|] id bus' Hon; unfold on in Hon;
      [|injection Hon as <- <-; auto].
    set (key := makeKey category type) in *.
    destruct (find (callbackSubscriptions_ bus) key) as [l|] eqn:Hfind.
    + destruct (Nat.leb_spec System.Memory.MAX_CALLBACKS_PER_EVENT (length l));
        injection Hon as <- <-; cbn [callbackSubscriptions_]; [auto|].
      split; [apply EventBusInvariant.assign_ascending; exact Hs|].
      destruct Hc as [Hc1 Hc2]. split.
      * rewrite EventBusInvariant.assign_length, Hfind by exact Hs. exact Hc1.
      * apply EventBusInvariant.assign_Forall; [exact Hc2|].
        cbn. rewrite length_app. cbn. lia.
    + destruct (Nat.ltb_spec (length (callbackSubscriptions_ bus))
                             System.Memory.MAX_EVENT_TYPES); [|discriminate].
      injection Hon as <- <-. cbn [callbackSubscriptions_].
      split; [apply EventBusInvariant.assign_ascending; exact Hs|].
      destruct Hc as [Hc1 Hc2]. split.
      * rewrite EventBusInvariant.assign_length, Hfind by exact Hs. lia.
      * apply EventBusInvariant.assign_Forall; [exact Hc2|].
        cbn. unfold System.Memory.MAX_CALLBACKS_PER_EVENT. lia.
  - intros id. cbn [off callbackSubscriptions_]. split.
    + unfold keysAscending. rewrite EventBusInvariant.off_map_keys. exact Hs.
    + apply EventBusInvariant.off_map_capacity. exact Hc.
  - constructor.
  - split; [cbn; lia | constructor].
Qed.

Lemma registry_within_capacity_witness :
  keysAscending (callbackSubscriptions_ EventBus.create) /\
  withinCapacity (callbackSubscriptions_ EventBus.create) /\
  (forall category type callback id bus',
     on EventBus.create category type callback = Some (id, bus') ->
     keysAscending (callbackSubscriptions_ bus') /\
     withinCapacity (callbackSubscriptions_ bus')).
Proof.
  assert (H1 : keysAscending (callbackSubscriptions_ EventBus.create)) by constructor.
  assert (H2 : withinCapacity (callbackSubscriptions_ EventBus.create))
    by (split; [cbn; lia | constructor]).
  split; [exact H1|]. split; [exact H2|].
  exact (proj1 (registry_within_capacity EventBus.create H1 H2)).
Defined.

(** X6.  Unsubscribing never frees a key: the keys stored are the same after
    [off], so once [MAX_EVENT_TYPES] distinct keys have been used, a
    subscription under a new key is not accepted any more, even when every
    subscriber has gone. *)
Theorem off_never_frees_a_key (bus : EventBus.t) (id : Z) :
  map fst (callbackSubscriptions_ (off bus id)) = map fst (callbackSubscriptions_ bus) /\
  (forall category type cb,
     find (callbackSubscriptions_ bus) (makeKey category type) = None ->
     (System.Memory.MAX_EVENT_TYPES <= length (callbackSubscriptions_ bus))%nat ->
     on (off bus id) category type (Some cb) = None).
Proof.
  assert (Hkeys : map fst (callbackSubscriptions_ (off bus id))
                  = map fst (callbackSubscriptions_ bus))
    by apply EventBusInvariant.off_map_keys.
  split; [exact Hkeys|].
  intros category type cb Hfind Hfull. unfold on.
  assert (Hnone : find (callbackSubscriptions_ (off bus id)) (makeKey category type) = None).
  { apply EventBusInvariant.find_None_keys. rewrite Hkeys.
    apply EventBusInvariant.find_None_keys. exact Hfind. }
  rewrite Hnone.
  assert (Hlen : length (callbackSubscriptions_ (off bus id))
                 = length (callbackSubscriptions_ bus))
    by (rewrite <- (length_map fst), Hkeys, length_map; reflexivity).
  rewrite Hlen.
  destruct (Nat.ltb_spec (length (callbackSubscriptions_ bus))
                         System.Memory.MAX_EVENT_TYPES); [lia | reflexivity].
Qed.

Module EventBusCounter.

Lemma on_nextId (bus bus' : EventBus.t) (category type : Z) (cb : nat) (id : Z) :
  on bus category type (Some cb) = Some (id, bus') ->
  nextId_ bus' = wrapU8 (nextId_ bus + 1).
Proof.
  unfold on. destruct (find _ _).
  - destruct (_ <=? _)%nat; intros [= <- <-]; reflexivity.
  - destruct (_ <? _)%nat; [intros [= <- <-]; reflexivity | discriminate].
Qed.

Lemma onAll_nextId (reqs : list (Z * Z * option nat)) (bus bus' : EventBus.t)
    (ids : list Z) :
  Forall (fun r => snd r <> None) reqs ->
  onAll bus reqs = Some (ids, bus') ->
  0 <= nextId_ bus < 256 ->
  nextId_ bus' = wrapU8 (nextId_ bus + Z.of_nat (length reqs)).
Proof.
  intros Hcb. revert bus ids.
  induction Hcb as [|[[c ty] [cb|]] rest Hr _ IH]; intros bus ids Hall Hid.
  - injection Hall as <- <-. cbn. unfold wrapU8. rewrite Z.add_0_r, Z.mod_small; lia.
  - cbn [onAll] in Hall.
    destruct (on bus c ty (Some cb)) as [[id bus1]|] eqn:Hon; [|discriminate].
    destruct (onAll bus1 rest) as [[ids' bus2]|] eqn:Hrest; [|discriminate].
    injection Hall as <- <-.
    pose proof (on_nextId _ _ _ _ _ _ Hon) as Hn.
    rewrite (IH bus1 ids' Hrest) by (rewrite Hn; unfold wrapU8; apply Z.mod_pos_bound; lia).
    rewrite Hn. unfold wrapU8. cbn [length].
    rewrite Nat2Z.inj_succ, Zplus_mod_idemp_l. f_equal. lia.
  - cbn in Hr. contradiction.
Qed.

End EventBusCounter.

(** X7.  The id counter is 8 bits wide and advances on every call that carries
    a callback.  After 255 such calls on a fresh bus it stands at 0, so the
    next subscription that is accepted is stored under the invalid id 0,
    which is also what [on] returns for it. *)
Theorem id_counter_wraps_to_invalid (reqs : list (Z * Z * option nat))
    (ids : list Z) (bus : EventBus.t) :
  Forall (fun r => snd r <> None) reqs ->
  length reqs = 255%nat ->
  onAll EventBus.create reqs = Some (ids, bus) ->
  nextId_ bus = 0 /\
  forall category type cb,
    find (callbackSubscriptions_ bus) (makeKey category type) = None ->
    (length (callbackSubscriptions_ bus) < System.Memory.MAX_EVENT_TYPES)%nat ->
    exists bus',
      on bus category type (Some cb) = Some (0, bus') /\
      find (callbackSubscriptions_ bus') (makeKey category type)
      = Some [{| sub_id := 0; sub_callback := cb |}].
Proof.
  intros Hcb Hlen Hall.
  assert (Hn : nextId_ bus = 0).
  { rewrite (EventBusCounter.onAll_nextId reqs EventBus.create bus ids Hcb Hall)
      by (cbn; lia).
    rewrite Hlen. reflexivity. }
  split; [exact Hn|].
  intros category type cb Hfind Hroom. unfold on. rewrite Hfind, Hn.
  destruct (Nat.ltb_spec (length (callbackSubscriptions_ bus))
                         System.Memory.MAX_EVENT_TYPES); [|lia].
  eexists. split; [reflexivity|]. cbn [callbackSubscriptions_].
  apply EventBusFacts.find_assign_eq.
Qed.

Lemma id_counter_wraps_to_invalid_witness :
  let reqs := flat_map (fun ty => repeat (1, Z.of_nat ty, Some 7%nat) 15)
                       (seq 1 17) in
  exists ids bus,
    Forall (fun r => snd r <> None) reqs /\
    length reqs = 255%nat /\
    onAll EventBus.create reqs = Some (ids, bus) /\
    nextId_ bus = 0 /\
    exists bus',
      on bus 2 2002 (Some 9%nat) = Some (0, bus') /\
      find (callbackSubscriptions_ bus') (makeKey 2 2002)
      = Some [{| sub_id := 0; sub_callback := 9%nat |}].
Proof.
  intros reqs.
  destruct (onAll EventBus.create reqs) as [[ids bus]|] eqn:Hall;
    [|vm_compute in Hall; discriminate Hall].
  assert (Hcb : Forall (fun r => snd r <> None) reqs).
  { apply List.Forall_forall. intros r Hr. apply in_flat_map in Hr.
    destruct Hr as (ty & _ & Hr). apply repeat_spec in Hr. subst r. discriminate. }
  assert (Hlen : length reqs = 255%nat) by reflexivity.
  exists ids, bus. split; [exact Hcb|]. split; [exact Hlen|]. split; [reflexivity|].
  destruct (id_counter_wraps_to_invalid reqs ids bus Hcb Hlen Hall) as [Hn Hnext].
  split; [exact Hn|].
  apply Hnext.
  - assert (Hb : Some (ids, bus) = onAll EventBus.create reqs) by (symmetry; exact Hall).
    vm_compute in Hb. injection Hb as _ ->. reflexivity.
  - assert (Hb : Some (ids, bus) = onAll EventBus.create reqs) by (symmetry; exact Hall).
    vm_compute in Hb. injection Hb as _ ->. vm_compute. lia.
Defined.

(** X8.  [getSubscriberCount] grows by one with every accepted subscription and
    is unchanged by a refused one. *)
Theorem subscriber_count_on (bus bus' : EventBus.t) (category type : Z) (cb : nat)
    (id : Z) :
  keysAscending (callbackSubscriptions_ bus) ->
  on bus category type (Some cb) = Some (id, bus') ->
  getSubscriberCount bus' =
    if (length (default [] (find (callbackSubscriptions_ bus) (makeKey category type)))
        <? System.Memory.MAX_CALLBACKS_PER_EVENT)%nat
    then S (getSubscriberCount bus) else getSubscriberCount bus.
Proof.
  intros Hs Hon. destruct bus as [m n]. unfold on in Hon.
  cbn [callbackSubscriptions_ nextId_] in *.
  set (key := makeKey category type) in *.
  pose proof (EventBusInvariant.count_find m key) as Hle.
  pose proof (fun l => EventBusInvariant.assign_count m key l Hs) as Hassign.
  unfold getSubscriberCount in *. cbn [callbackSubscriptions_] in *.
  destruct (find m key) as [l|] eqn:Hfind; cbn [default from_option] in *;
    unfold Datatypes.id in *.
  - destruct (Nat.leb_spec System.Memory.MAX_CALLBACKS_PER_EVENT (length l));
      destruct (Nat.ltb_spec (length l) System.Memory.MAX_CALLBACKS_PER_EVENT);
      try lia; injection Hon as <- <-; cbn [callbackSubscriptions_].
    + reflexivity.
    + rewrite Hassign, length_app. cbn [length]. lia.
  - destruct (length m <? System.Memory.MAX_EVENT_TYPES)%nat; [|discriminate].
    injection Hon as <- <-. cbn [callbackSubscriptions_ length].
    rewrite Hassign. cbn [length].
    destruct (Nat.ltb_spec 0 System.Memory.MAX_CALLBACKS_PER_EVENT);
      [lia | unfold System.Memory.MAX_CALLBACKS_PER_EVENT in *; lia].
Qed.

Lemma subscriber_count_on_witness :
  let bus := {| callbackSubscriptions_ :=
                  [(makeKey 1 101, [{| sub_id := 1; sub_callback := 7%nat |}])];
                nextId_ := 2 |} in
  exists bus',
    keysAscending (callbackSubscriptions_ bus) /\
    on bus 1 101 (Some 8%nat) = Some (2, bus') /\
    getSubscriberCount bus' = 2%nat.
Proof.
  intros bus.
  destruct (on bus 1 101 (Some 8%nat)) as [[id bus']|] eqn:Hon; [|discriminate Hon].
  assert (Hid : id = 2) by (vm_compute in Hon; congruence). subst id.
  assert (Hs : keysAscending (callbackSubscriptions_ bus)) by (repeat constructor).
  exists bus'. split; [exact Hs|]. split; [reflexivity|].
  exact (subscriber_count_on bus bus' 1 101 8%nat 2 Hs Hon).
Defined.

(** * More on the button controller *)

Import ButtonController.

Module ButtonControllerMore.

(** One poll: nothing, or one event that flips the reported state. *)
Lemma updateOne_cases (now : Z) (b : Slot) (r : bool) :
  updateOne now b r = (b, []) \/
  (updateOne now b r =
     ({| slot_id := slot_id b; lastState := negb (lastState b); lastChangeTime := now |},
      [if lastState b then ButtonReleaseEvent (slot_id b)
       else ButtonPressEvent (slot_id b) true]) /\
   r = negb (lastState b) /\
   System.Input.BUTTON_DEBOUNCE_MS <= wrapU32 (now - lastChangeTime b)).
Proof.
  unfold updateOne. destruct (Bool.eqb r (lastState b)) eqn:Heq; [left; reflexivity|].
  destruct (Z.ltb_spec (wrapU32 (now - lastChangeTime b)) System.Input.BUTTON_DEBOUNCE_MS);
    [left; reflexivity|].
  right. apply Bool.eqb_false_iff in Heq.
  assert (Hr : r = negb (lastState b))
    by (destruct r, (lastState b); cbn; try reflexivity; exfalso; apply Heq; reflexivity).
  rewrite Hr. destruct (lastState b); auto.
Qed.

End ButtonControllerMore.

(** X9.  Whatever the poll times and the readings, the events reported for one
    button alternate strictly between press and release, starting with the
    one that leaves the reported state: never two presses or two releases
    in a row; every press event carries [pressed = true]. *)
Theorem reported_events_alternate (polls : list (Z * bool)) (b : Slot) :
  alternates (lastState b) (slot_id b) (snd (pollOne b polls)) /\
  slot_id (fst (pollOne b polls)) = slot_id b /\
  lastState (fst (pollOne b polls)) =
    if Nat.even (length (snd (pollOne b polls))) then lastState b
    else negb (lastState b).
Proof.
  revert b. induction polls as [|[now r] rest IH]; intros b; [cbn; auto|].
  cbn [pollOne].
  destruct (ButtonControllerMore.updateOne_cases now b r) as [-> | (-> & _ & _)].
  - specialize (IH b). destruct (pollOne b rest) as [b2 evs]. exact IH.
  - specialize (IH {| slot_id := slot_id b; lastState := negb (lastState b);
                      lastChangeTime := now |}).
    destruct (pollOne _ rest) as [b2 evs]. cbn [fst snd slot_id lastState] in *.
    destruct IH as (Halt & Hid & Hst). repeat split; try assumption.
    cbn [app length]. rewrite Hst, Nat.even_succ, <- Nat.negb_even.
    destruct (Nat.even (length evs)), (lastState b); reflexivity.
Qed.

(** X10.  The debounce interval is the true elapsed time, also when the 32-bit
    millisecond counter wraps around between the last reported change and
    the poll: [d] ms after the last change a differing state is reported
    exactly when [d >= BUTTON_DEBOUNCE_MS]. *)
Theorem debounce_across_clock_wrap (b : Slot) (d : Z) (r : bool) :
  0 <= lastChangeTime b < 4294967296 -> 0 <= d < 4294967296 ->
  let now := wrapU32 (lastChangeTime b + d) in
  updateOne now b r =
  if Bool.eqb r (lastState b) || (d <? System.Input.BUTTON_DEBOUNCE_MS) then (b, [])
  else ({| slot_id := slot_id b; lastState := r; lastChangeTime := now |},
        [if r then ButtonPressEvent (slot_id b) true else ButtonReleaseEvent (slot_id b)]).
Proof.
  intros Ht Hd now.
  assert (He : wrapU32 (now - lastChangeTime b) = d).
  { subst now. unfold wrapU32. rewrite Zminus_mod_idemp_l.
    replace (lastChangeTime b + d - lastChangeTime b) with d by lia.
    apply Z.mod_small. lia. }
  unfold updateOne. rewrite He. destruct (Bool.eqb r (lastState b)); reflexivity.
Qed.

Lemma debounce_across_clock_wrap_witness :
  let b := {| slot_id := 10; lastState := false; lastChangeTime := 4294967286 |} in
  0 <= lastChangeTime b < 4294967296 /\ 0 <= 30 < 4294967296 /\
  wrapU32 (lastChangeTime b + 30) = 20 /\
  updateOne 20 b true = (b, []).
Proof.
  intros b.
  assert (H1 : 0 <= lastChangeTime b < 4294967296) by (cbn; lia).
  assert (H2 : 0 <= 30 < 4294967296) by lia.
  split; [exact H1|]. split; [exact H2|]. split; [reflexivity|].
  exact (debounce_across_clock_wrap b 30 true H1 H2).
Defined.

(** X11.  One call of [updateAll] keeps the buttons and their ids, and what it
    reports is made of one part per button, in button order, each part
    empty or the single press event (always with [pressed = true]) or the
    single release event of that button: at most one event per button, and
    only events of buttons the controller owns. *)
Theorem updateAll_reports (now : Z) (bs : ButtonController.t) (reads : list bool) :
  map slot_id (fst (updateAll now bs reads)) = map slot_id bs /\
  (exists per : list (list Event),
     snd (updateAll now bs reads) = concat per /\
     Forall2 (fun b evs => evs = [] \/
                           evs = [ButtonPressEvent (slot_id b) true] \/
                           evs = [ButtonReleaseEvent (slot_id b)])
             bs per) /\
  (length (snd (updateAll now bs reads)) <= length bs)%nat /\
  Forall (fun e => exists id, In id (map slot_id bs) /\
                              (e = ButtonPressEvent id true \/ e = ButtonReleaseEvent id))
         (snd (updateAll now bs reads)).
Proof.
  revert reads. induction bs as [|b rest IH]; intros reads.
  { cbn. repeat split; try lia; try constructor.
    exists []. split; [reflexivity | constructor]. }
  destruct reads as [|r reads].
  { cbn [updateAll fst snd length]. repeat split; try lia; try constructor.
    exists (map (fun _ => []) (b :: rest)). split.
    - clear IH. generalize (b :: rest). intros l.
      induction l as [|x l IHl]; [reflexivity | exact IHl].
    - clear IH. generalize (b :: rest). intros l.
      induction l as [|x l IHl]; constructor; [left; reflexivity | exact IHl]. }
  cbn [updateAll]. specialize (IH reads).
  destruct (updateAll now rest reads) as [bs1 evs]. cbn [fst snd] in IH.
  destruct IH as (Hids & (per & Hper & Hparts) & Hlen & Hall).
  assert (Hall' : Forall (fun e => exists id, In id (map slot_id (b :: rest)) /\
                     (e = ButtonPressEvent id true \/ e = ButtonReleaseEvent id)) evs).
  { eapply List.Forall_impl; [|exact Hall]. cbn. intros e (id & Hin & He).
    exists id. split; [right; exact Hin | exact He]. }
  destruct (ButtonControllerMore.updateOne_cases now b r) as [-> | (-> & _ & _)];
    cbn [fst snd map app length slot_id].
  - repeat split; [congruence | | lia | exact Hall'].
    exists ([] :: per). split; [cbn; exact Hper|].
    constructor; [left; reflexivity | exact Hparts].
  - repeat split; [congruence | | lia |].
    + exists ([if lastState b then ButtonReleaseEvent (slot_id b)
               else ButtonPressEvent (slot_id b) true] :: per).
      split; [cbn; rewrite Hper; reflexivity|].
      constructor; [|exact Hparts]. destruct (lastState b); auto.
    + constructor; [|exact Hall'].
      exists (slot_id b). split; [left; reflexivity|].
      destruct (lastState b); auto.
Qed.

(** X12.  The factory is stricter than [GpioPin::isValid]: whatever it accepts is
    valid, but a valid direct pin above 41 is refused; multiplexer channels
    are accepted exactly when valid. *)
Theorem factory_stricter_than_isValid (gpio : GpioPin) :
  (is_Some (createPinReader gpio) -> isValid gpio = true) /\
  (isValid gpio = true ->
   (createPinReader gpio = None <-> source gpio = MCU /\ 41 < pin gpio)).
Proof.
  unfold createPinReader, isValid. destruct gpio as [[|] p]; cbn.
  - destruct (Z.gtb_spec p 41); split.
    + intros [x Hx]. discriminate.
    + intros _. split; [intros _; split; [reflexivity | lia] | reflexivity].
    + intros _. apply Z.leb_le. lia.
    + intros _. split; [discriminate | intros [_ H']; lia].
  - destruct (Z.gtb_spec p 15); split.
    + intros [x Hx]. discriminate.
    + intros H'. apply Z.leb_le in H'. lia.
    + intros _. apply Z.leb_le. lia.
    + intros _. split; [discriminate | intros [H' _]; discriminate].
Qed.

Module ConstructFacts.

Lemma addButtons_indexed (buttonSetups : list ButtonController.Setup) (c : Controller) :
  indexed c -> indexed (addButtons c buttonSetups).
Proof.
  revert c. induction buttonSetups as [|setup rest IH]; intros c Hc; [exact Hc|].
  cbn [addButtons]. destruct (createPinReader (setup_pin setup)); [|apply IH; exact Hc].
  apply IH. intros id index. cbn [idToIndex_ buttons].
  destruct (Z.eq_dec (setup_id setup) id) as [<-|Hne].
  - rewrite lookup_insert_eq. intros [= <-].
    eexists. split; [apply list_lookup_middle; reflexivity | reflexivity].
  - rewrite lookup_insert_ne by exact Hne. intros Hidx.
    destruct (Hc id index Hidx) as (b & Hb & Hid).
    exists b. split; [|exact Hid].
    apply lookup_app_l_Some. exact Hb.
Qed.

Lemma addButtons_keeps (buttonSetups : list ButtonController.Setup) (c : Controller) (id : Z) :
  is_Some (idToIndex_ c !! id) -> is_Some (idToIndex_ (addButtons c buttonSetups) !! id).
Proof.
  revert c. induction buttonSetups as [|setup rest IH]; intros c Hc; [exact Hc|].
  cbn [addButtons]. destruct (createPinReader (setup_pin setup)); [|apply IH; exact Hc].
  apply IH. cbn [idToIndex_]. rewrite lookup_insert_is_Some'. right. exact Hc.
Qed.

Lemma addButtons_wired (buttonSetups : list ButtonController.Setup) (c : Controller) (id : Z) :
  (exists setup, In setup buttonSetups /\ setup_id setup = id /\
                 is_Some (createPinReader (setup_pin setup))) ->
  is_Some (idToIndex_ (addButtons c buttonSetups) !! id).
Proof.
  revert c. induction buttonSetups as [|setup rest IH]; intros c (s & Hin & Hid & Hr).
  - destruct Hin.
  - cbn [addButtons]. destruct Hin as [<-|Hin].
    + destruct Hr as [r Hr]. rewrite Hr. apply addButtons_keeps.
      cbn [idToIndex_]. rewrite Hid, lookup_insert_eq. eauto.
    + destruct (createPinReader (setup_pin setup)); apply IH; eauto.
Qed.

Lemma addButtons_only (buttonSetups : list ButtonController.Setup) (c : Controller) (id : Z) :
  is_Some (idToIndex_ (addButtons c buttonSetups) !! id) ->
  is_Some (idToIndex_ c !! id) \/
  exists setup, In setup buttonSetups /\ setup_id setup = id /\
                is_Some (createPinReader (setup_pin setup)).
Proof.
  revert c. induction buttonSetups as [|setup rest IH]; intros c H; [left; exact H|].
  cbn [addButtons] in H.
  destruct (createPinReader (setup_pin setup)) as [r|] eqn:Hr.
  - apply IH in H. destruct H as [H|(s & Hin & Hid & Hs)].
    + cbn [idToIndex_] in H. rewrite lookup_insert_is_Some' in H.
      destruct H as [<-|H]; [|left; exact H].
      right. exists setup. rewrite Hr. split; [left; reflexivity | eauto].
    + right. exists s. split; [right; exact Hin | eauto].
  - apply IH in H. destruct H as [H|(s & Hin & Hid & Hs)]; [left; exact H|].
    right. exists s. split; [right; exact Hin | eauto].
Qed.

End ConstructFacts.

(** X13.  After construction [getButton] finds a button for an id exactly when
    some set-up with that id has a pin the factory accepts, and the button
    found carries that id: a set-up with a refused pin is skipped without
    affecting the others. *)
Theorem getButton_finds_wired_buttons (buttonSetups : list ButtonController.Setup)
    (id : Z) :
  let c := construct buttonSetups in
  (is_Some (getButton c id) <->
   exists setup, In setup buttonSetups /\ ButtonController.setup_id setup = id /\
                 is_Some (createPinReader (setup_pin setup))) /\
  (forall b, getButton c id = Some b -> slot_id b = id).
Proof.
  intros c.
  assert (Hidx : indexed c).
  { apply ConstructFacts.addButtons_indexed. intros i n. cbn. rewrite lookup_empty.
    discriminate. }
  split; [split|].
  - intros [b Hb]. unfold getButton in Hb.
    destruct (idToIndex_ c !! id) as [index|] eqn:Hi; [|discriminate].
    destruct (ConstructFacts.addButtons_only buttonSetups
                {| buttons := []; idToIndex_ := ∅ |} id) as [H|H].
    + fold (construct buttonSetups). fold c. rewrite Hi. eauto.
    + cbn in H. rewrite lookup_empty in H. destruct H as [? [=]].
    + exact H.
  - intros H.
    pose proof (ConstructFacts.addButtons_wired buttonSetups
                  {| buttons := []; idToIndex_ := ∅ |} id H) as [index Hi].
    fold (construct buttonSetups) in Hi. fold c in Hi.
    destruct (Hidx id index Hi) as (b & Hb & _).
    unfold getButton. rewrite Hi, Hb. eauto.
  - intros b Hb. unfold getButton in Hb.
    destruct (idToIndex_ c !! id) as [index|] eqn:Hi; [|discriminate].
    destruct (Hidx id index Hi) as (b' & Hb' & Hid). congruence.
Qed.

(** * More on the binding dispatcher *)

Import InputBinding.

Module EncoderDispatchFacts.
Section Dispatch.
Variable hidden : nat -> bool.

Lemma triggerScopedEncoderBindings_spec (states : gmap Z bool)
    (bs : list EncoderBinding) (id : Z) (v : Float32.float) :
  let scoped :=
    List.filter (fun b => matchesEncoder states id b && encoderScopedVisible hidden b) bs in
  triggerScopedEncoderBindings hidden states bs id v
  = (existsb encoderHasAction scoped, encoderActionsOf v scoped).
Proof.
  induction bs as [|b rest IH]; [reflexivity|].
  cbn [triggerScopedEncoderBindings List.filter]. cbv zeta in IH. rewrite IH.
  unfold matchesEncoder, encoderScopedVisible, encoderHasAction.
  destruct (eb_enabled b), (eb_encoderId b =? id), (is_null (eb_scope b)),
    (isBindingActive hidden (eb_scope b)), (requiredButtonMissing states b);
    cbn [negb andb existsb encoderActionsOf]; try reflexivity;
    destruct (eb_action b); reflexivity.
Qed.

Lemma triggerGlobalEncoderBindings_spec (states : gmap Z bool)
    (bs : list EncoderBinding) (id : Z) (v : Float32.float) :
  let globals :=
    List.filter (fun b => matchesEncoder states id b && is_null (eb_scope b)) bs in
  triggerGlobalEncoderBindings states bs id v
  = (existsb encoderHasAction globals, encoderActionsOf v globals).
Proof.
  induction bs as [|b rest IH]; [reflexivity|].
  cbn [triggerGlobalEncoderBindings List.filter]. cbv zeta in IH. rewrite IH.
  unfold matchesEncoder, encoderHasAction.
  destruct (eb_enabled b), (eb_encoderId b =? id), (is_null (eb_scope b)),
    (requiredButtonMissing states b);
    cbn [negb andb existsb encoderActionsOf]; try reflexivity;
    destruct (eb_action b); reflexivity.
Qed.

End Dispatch.
End EncoderDispatchFacts.

(** X14.  The scoped-first rule for encoders.  With bindings enabled, an encoder
    event runs, with the event's value, the callbacks of the enabled
    bindings of that encoder whose scope is a visible object, and no global
    one, as soon as one of them holds a callback; otherwise those of the
    enabled bindings without scope.  In both passes a turn-while-pressed
    binding whose companion button is not held is left out altogether. *)
Theorem encoder_scoped_bindings_preempt_globals (hidden : nat -> bool)
    (s : InputBinding.t) (encoderId : Z) (value : Float32.float) :
  bindingsEnabled_ s = true ->
  let scoped :=
    List.filter (fun b => matchesEncoder (buttonStates_ s) encoderId b
                          && encoderScopedVisible hidden b)
                (encoderBindings_ s) in
  let globals :=
    List.filter (fun b => matchesEncoder (buttonStates_ s) encoderId b
                          && is_null (eb_scope b))
                (encoderBindings_ s) in
  onEncoderChanged hidden s encoderId value =
  if existsb encoderHasAction scoped then encoderActionsOf value scoped
  else encoderActionsOf value globals.
Proof.
  intros Hen scoped globals. unfold onEncoderChanged, triggerMatchingEncoderBindings.
  rewrite Hen. cbn [negb].
  rewrite EncoderDispatchFacts.triggerScopedEncoderBindings_spec.
  rewrite EncoderDispatchFacts.triggerGlobalEncoderBindings_spec.
  reflexivity.
Qed.

Lemma encoder_scoped_bindings_preempt_globals_witness :
  let hidden := fun _ : nat => false in
  let s := onTurnedWhilePressed
             (onTurned (onTurned InputBinding.create 301 (Some 7%nat) None)
                       301 (Some 8%nat) (Some 1%nat))
             301 40 (Some 9%nat) (Some 1%nat) in
  bindingsEnabled_ s = true /\
  onEncoderChanged hidden s 301 Float32.one = [CallEncoderAction 8%nat Float32.one].
Proof.
  intros hidden s. split; [reflexivity|].
  exact (encoder_scoped_bindings_preempt_globals hidden s 301 Float32.one eq_refl).
Defined.

Module ReleaseFacts.
Section Dispatch.
Variable hidden : nat -> bool.

(** What [onButtonRelease] leaves in the service. *)
Lemma onButtonRelease_state (s : InputBinding.t) (now id : Z) :
  let s1 := fst (onButtonRelease hidden s now id) in
  buttonStates_ s1 = <[id := false]> (buttonStates_ s) /\
  longPressTriggered_ s1 = <[id := false]> (longPressTriggered_ s) /\
  buttonBindings_ s1 = buttonBindings_ s /\
  encoderBindings_ s1 = encoderBindings_ s /\
  bindingsEnabled_ s1 = bindingsEnabled_ s /\
  buttonPressTime_ s1 = buttonPressTime_ s.
Proof.
  destruct s as [bb eb st pt rt tc lp en ct].
  unfold onButtonRelease, checkAndTriggerDoubleTap. cbn.
  rewrite lookup_insert_eq.
  destruct (tc !! id) as [c|]; cbn; [|tauto].
  destruct (c <? 2); cbn; [tauto|].
  destruct (wrapU32 (now - now) <? System.Input.DOUBLE_TAP_WINDOW_MS); cbn; tauto.
Qed.

Lemma onButtonPress_state (s : InputBinding.t) (now id : Z) :
  let s1 := fst (onButtonPress hidden s now id) in
  buttonStates_ s1 = <[id := true]> (buttonStates_ s) /\
  longPressTriggered_ s1 = longPressTriggered_ s /\
  buttonBindings_ s1 = buttonBindings_ s /\
  encoderBindings_ s1 = encoderBindings_ s /\
  bindingsEnabled_ s1 = bindingsEnabled_ s /\
  buttonPressTime_ s1 = <[id := now]> (buttonPressTime_ s).
Proof.
  destruct s as [bb eb st pt rt tc lp en ct]. unfold onButtonPress, index. cbn.
  destruct (rt !! id) as [r|]; destruct (tc !! id) as [c|]; cbn;
    destruct (wrapU32 _ <? _); cbn; tauto.
Qed.

End Dispatch.
End ReleaseFacts.

(** X15.  A turn-while-pressed binding follows its companion button: it is
    skipped on a service that has never seen the button, taken after the
    button's press, and skipped again after its release. *)
Theorem turn_while_pressed_follows_button (hidden : nat -> bool) (s : InputBinding.t)
    (now encoderId buttonId : Z) (cb scope : option nat) :
  let binding := newEncoderBinding TURN_WHILE_PRESSED encoderId (Some buttonId) cb scope in
  requiredButtonMissing (buttonStates_ InputBinding.create) binding = true /\
  requiredButtonMissing (buttonStates_ (fst (onButtonPress hidden s now buttonId)))
                        binding = false /\
  requiredButtonMissing (buttonStates_ (fst (onButtonRelease hidden s now buttonId)))
                        binding = true.
Proof.
  intros binding. split; [reflexivity|].
  destruct (ReleaseFacts.onButtonPress_state hidden s now buttonId) as (Hp & _).
  destruct (ReleaseFacts.onButtonRelease_state hidden s now buttonId) as (Hr & _).
  cbv zeta in Hp, Hr. rewrite Hp, Hr.
  unfold requiredButtonMissing, binding, newEncoderBinding.
  cbn [eb_type eb_requiredButton]. rewrite !lookup_insert_eq. split; reflexivity.
Qed.

(** X16.  With the bindings disabled a press and a turn invoke nothing, and a
    release invokes the combo callbacks only: the combo check does not look
    at the flag. *)
Theorem disabled_bindings_are_silent (hidden : nat -> bool) (s : InputBinding.t)
    (now buttonId encoderId : Z) (value : Float32.float) :
  bindingsEnabled_ s = false ->
  snd (onButtonPress hidden s now buttonId) = [] /\
  onEncoderChanged hidden s encoderId value = [] /\
  snd (onButtonRelease hidden s now buttonId)
  = checkAndTriggerCombosOnRelease hidden s buttonId.
Proof.
  intros Hen. destruct s as [bb eb st pt rt tc lp en ct]. cbn in Hen. subst en.
  split; [|split].
  - unfold onButtonPress, index. cbn.
    destruct (rt !! buttonId); destruct (tc !! buttonId); cbn;
      destruct (wrapU32 _ <? _); reflexivity.
  - reflexivity.
  - unfold onButtonRelease, checkAndTriggerDoubleTap. cbn.
    rewrite lookup_insert_eq.
    destruct (tc !! buttonId) as [c|]; cbn; [|apply app_nil_r].
    destruct (c <? 2); cbn; [apply app_nil_r|].
    destruct (wrapU32 (now - now) <? System.Input.DOUBLE_TAP_WINDOW_MS); cbn;
      apply app_nil_r.
Qed.

Lemma disabled_bindings_are_silent_witness :
  let hidden := fun _ : nat => false in
  let s0 := onCombo (onReleased (onPressed InputBinding.create 10 (Some 1%nat) None)
                                10 (Some 2%nat) None)
                    10 11 (Some 3%nat) None in
  let s := setBindingsEnabled
             (fst (onButtonPress hidden (fst (onButtonPress hidden s0 0 10)) 5 11)) false in
  bindingsEnabled_ s = false /\
  snd (onButtonPress hidden s 9 10) = [] /\
  snd (onButtonRelease hidden s 9 10) = [CallAction 3%nat].
Proof.
  intros hidden s0 s. split; [reflexivity|].
  destruct (disabled_bindings_are_silent hidden s 9 10 301 Float32.one eq_refl)
    as (Hp & _ & Hr).
  split; [exact Hp|]. rewrite Hr. reflexivity.
Defined.

Module PassFacts.
Section Dispatch.
Variable hidden : nat -> bool.

Lemma actionsOf_none (bs : list ButtonBinding) :
  existsb hasAction bs = false -> actionsOf bs = [].
Proof.
  induction bs as [|b rest IH]; [reflexivity|].
  cbn [existsb actionsOf]. unfold hasAction at 1.
  destruct (bb_action b); cbn [orb]; [discriminate|exact IH].
Qed.

Lemma actionsOf_some (bs : list ButtonBinding) :
  actionsOf bs <> [] -> existsb hasAction bs = true.
Proof.
  intros H. destruct (existsb hasAction bs) eqn:E; [reflexivity|].
  apply actionsOf_none in E. contradiction.
Qed.

Lemma existsb_any {A : Type} (f : A -> bool) (l : list A) :
  existsb f l = true -> existsb (fun _ => true) l = true.
Proof. destruct l; [discriminate|reflexivity]. Qed.

Lemma filter_none {A : Type} (f : A -> bool) (l : list A) :
  (forall x, In x l -> f x = false) -> List.filter f l = [].
Proof.
  induction l as [|a l IH]; intros H; [reflexivity|].
  cbn [List.filter]. rewrite (H a (or_introl eq_refl)).
  apply IH. intros x Hx. apply H. right. exact Hx.
Qed.

Lemma longPressPass_spec (scoped : bool) (bs : list ButtonBinding)
    (buttonId now pressTime : Z) :
  let sel := List.filter (longPressSelected hidden scoped buttonId now pressTime) bs in
  longPressPass hidden scoped bs buttonId now pressTime
  = (existsb (fun _ => true) sel, existsb hasAction sel, actionsOf sel).
Proof.
  induction bs as [|b rest IH]; [reflexivity|].
  cbn [longPressPass List.filter]. cbv zeta in IH. rewrite IH.
  unfold longPressSelected, matchesButton, scopedVisible, longPressDue, hasAction.
  destruct (bb_enabled b), (ButtonBindingType_eqb (bb_type b) LONG_PRESS),
    (bb_buttonId b =? buttonId), (is_null (bb_scope b)),
    (isBindingActive hidden (bb_scope b)), scoped,
    (wrapU32 (now - pressTime)
     >=? (if bb_longPressMs b >? 0 then bb_longPressMs b
          else System.Input.LONG_PRESS_DEFAULT_MS));
    cbn [negb andb orb existsb actionsOf]; try reflexivity;
    destruct (bb_action b); reflexivity.
Qed.

Lemma comboPass_spec (scoped : bool) (s : InputBinding.t) (bs : list ButtonBinding)
    (released : Z) :
  let sel := List.filter (comboSelected hidden scoped s released) bs in
  comboPass hidden scoped s bs released = (existsb hasAction sel, actionsOf sel).
Proof.
  induction bs as [|b rest IH]; [reflexivity|].
  cbn [comboPass List.filter]. cbv zeta in IH. rewrite IH.
  unfold comboSelected, isCombo, scopedVisible, comboHeld, hasAction.
  destruct (bb_enabled b), (ButtonBindingType_eqb (bb_type b) COMBO),
    (is_null (bb_scope b)), (isBindingActive hidden (bb_scope b)), scoped,
    (isPartOfCombo b released);
    cbn [negb andb orb existsb actionsOf]; try reflexivity;
    destruct (bb_secondaryButton b) as [b2|]; try reflexivity;
    destruct (isButtonComboActive s (bb_buttonId b) b2);
    cbn [negb andb orb existsb actionsOf]; try reflexivity;
    destruct (bb_action b); reflexivity.
Qed.

Lemma checkAndTriggerCombosOnRelease_spec (s : InputBinding.t) (released : Z) :
  let scoped := List.filter (comboSelected hidden true s released) (buttonBindings_ s) in
  let globals := List.filter (comboSelected hidden false s released) (buttonBindings_ s) in
  checkAndTriggerCombosOnRelease hidden s released
  = if existsb hasAction scoped then actionsOf scoped else actionsOf globals.
Proof.
  unfold checkAndTriggerCombosOnRelease. rewrite !comboPass_spec. reflexivity.
Qed.

(** Once the long-press flag of a button is set, the check is silent. *)
Lemma checkAndTriggerLongPress_fired (s : InputBinding.t) (id now : Z) :
  longPressTriggered_ s !! id = Some true ->
  snd (checkAndTriggerLongPress hidden s id now) = [].
Proof.
  destruct s as [bb eb st pt rt tc lp en ct]. cbn. intros Hlp.
  unfold checkAndTriggerLongPress, index. cbn.
  destruct (st !! id) as [[|]|]; cbn; try reflexivity.
  rewrite Hlp. reflexivity.
Qed.

(** The two passes, from a service [s2] on. *)
Lemma longPressPasses_spec (s2 : InputBinding.t) (id now pressTime : Z) :
  let r :=
    let '(flagged1, scopedTriggered, calls1) :=
      longPressPass hidden true (buttonBindings_ s2) id now pressTime in
    let s3 :=
      if flagged1
      then set_longPressTriggered s2 (<[id := true]> (longPressTriggered_ s2))
      else s2 in
    if scopedTriggered then (s3, calls1)
    else
      let '(flagged2, _, calls2) :=
        longPressPass hidden false (buttonBindings_ s3) id now pressTime in
      let s4 :=
        if flagged2
        then set_longPressTriggered s3 (<[id := true]> (longPressTriggered_ s3))
        else s3 in
      (s4, calls1 ++ calls2) in
  let scoped :=
    List.filter (longPressSelected hidden true id now pressTime) (buttonBindings_ s2) in
  let globals :=
    List.filter (longPressSelected hidden false id now pressTime) (buttonBindings_ s2) in
  snd r = (if existsb hasAction scoped then actionsOf scoped else actionsOf globals) /\
  (snd r <> [] -> longPressTriggered_ (fst r) !! id = Some true).
Proof.
  cbv zeta. rewrite longPressPass_spec. cbv zeta.
  destruct (existsb hasAction
              (List.filter (longPressSelected hidden true id now pressTime)
                           (buttonBindings_ s2))) eqn:EA.
  - rewrite (existsb_any _ _ EA). cbn [fst snd]. split; [reflexivity|].
    intros _. destruct s2. cbn. apply lookup_insert_eq.
  - rewrite (actionsOf_none _ EA).
    assert (Hb : forall f : bool,
      buttonBindings_
        (if f then set_longPressTriggered s2 (<[id := true]> (longPressTriggered_ s2))
         else s2) = buttonBindings_ s2) by (intros [|]; destruct s2; reflexivity).
    rewrite Hb, longPressPass_spec. cbv zeta. cbn [fst snd app].
    split; [reflexivity|].
    intros Hne. apply actionsOf_some, existsb_any in Hne. rewrite Hne.
    destruct (existsb (fun _ => true) _); destruct s2; cbn; apply lookup_insert_eq.
Qed.

Lemma checkAndTriggerLongPress_unfold (s : InputBinding.t) (id now pressTime : Z) :
  buttonStates_ s !! id = Some true ->
  longPressTriggered_ s !! id <> Some true ->
  buttonPressTime_ s !! id = Some pressTime ->
  let scoped :=
    List.filter (longPressSelected hidden true id now pressTime) (buttonBindings_ s) in
  let globals :=
    List.filter (longPressSelected hidden false id now pressTime) (buttonBindings_ s) in
  snd (checkAndTriggerLongPress hidden s id now)
  = (if existsb hasAction scoped then actionsOf scoped else actionsOf globals) /\
  (snd (checkAndTriggerLongPress hidden s id now) <> [] ->
   longPressTriggered_ (fst (checkAndTriggerLongPress hidden s id now)) !! id
   = Some true).
Proof.
  intros Hst Hlp Hpt. unfold checkAndTriggerLongPress, index. rewrite Hst.
  cbv beta iota zeta. cbn [negb].
  change (longPressTriggered_ (set_buttonStates s (buttonStates_ s)))
    with (longPressTriggered_ s).
  destruct (longPressTriggered_ s !! id) as [[|]|] eqn:El; [congruence| |];
    cbv beta iota zeta.
  - change (buttonPressTime_
              (set_longPressTriggered (set_buttonStates s (buttonStates_ s))
                 (longPressTriggered_ s))) with (buttonPressTime_ s).
    rewrite Hpt.
    apply (longPressPasses_spec
             (set_longPressTriggered (set_buttonStates s (buttonStates_ s))
                (longPressTriggered_ s)) id now pressTime).
  - change (buttonPressTime_
              (set_longPressTriggered (set_buttonStates s (buttonStates_ s))
                 (<[id := false]> (longPressTriggered_ s)))) with (buttonPressTime_ s).
    rewrite Hpt.
    apply (longPressPasses_spec
             (set_longPressTriggered (set_buttonStates s (buttonStates_ s))
                (<[id := false]> (longPressTriggered_ s))) id now pressTime).
Qed.

End Dispatch.
End PassFacts.

(** X17.  The long-press rule.  For a held button whose long press has not fired
    yet, a check at [now] selects the enabled long-press bindings of the
    button whose threshold (their own, or 500 ms when it is 0) the hold has
    reached, the hold being measured modulo 2^32.  It runs the callbacks of
    the selected bindings scoped to a visible object as soon as one of them
    holds a callback, and otherwise those of the selected global ones.  The
    enabled flag of the service plays no part. *)
Theorem long_press_dispatch (hidden : nat -> bool) (s : InputBinding.t)
    (id now pressTime : Z) :
  buttonStates_ s !! id = Some true ->
  longPressTriggered_ s !! id <> Some true ->
  buttonPressTime_ s !! id = Some pressTime ->
  let scoped :=
    List.filter (longPressSelected hidden true id now pressTime) (buttonBindings_ s) in
  let globals :=
    List.filter (longPressSelected hidden false id now pressTime) (buttonBindings_ s) in
  snd (checkAndTriggerLongPress hidden s id now)
  = if existsb hasAction scoped then actionsOf scoped else actionsOf globals.
Proof.
  intros Hst Hlp Hpt.
  exact (proj1 (PassFacts.checkAndTriggerLongPress_unfold hidden s id now pressTime
                  Hst Hlp Hpt)).
Qed.

Lemma long_press_dispatch_witness :
  let hidden := fun _ : nat => false in
  let s0 := setBindingsEnabled
              (onLongPress (onLongPress InputBinding.create 10 (Some 1%nat) 0 None)
                           10 (Some 2%nat) 2000 None) false in
  let s := fst (onButtonPress hidden s0 1000 10) in
  (buttonStates_ s !! 10 = Some true /\
   longPressTriggered_ s !! 10 <> Some true /\
   buttonPressTime_ s !! 10 = Some 1000) /\
  snd (checkAndTriggerLongPress hidden s 10 1499) = [] /\
  snd (checkAndTriggerLongPress hidden s 10 1500) = [CallAction 1%nat] /\
  snd (checkAndTriggerLongPress hidden s 10 3000) = [CallAction 1%nat; CallAction 2%nat].
Proof.
  intros hidden s0 s.
  assert (H1 : buttonStates_ s !! 10 = Some true) by reflexivity.
  assert (H2 : longPressTriggered_ s !! 10 <> Some true) by discriminate.
  assert (H3 : buttonPressTime_ s !! 10 = Some 1000) by reflexivity.
  split; [auto|].
  rewrite (long_press_dispatch hidden s 10 1499 1000 H1 H2 H3).
  rewrite (long_press_dispatch hidden s 10 1500 1000 H1 H2 H3).
  rewrite (long_press_dispatch hidden s 10 3000 1000 H1 H2 H3).
  repeat split.
Defined.

Module FiredFacts.
Section Dispatch.
Variable hidden : nat -> bool.

(** A check that invokes a callback sets the long-press flag. *)
Lemma checkAndTriggerLongPress_sets_flag (s : InputBinding.t) (id now : Z) :
  snd (checkAndTriggerLongPress hidden s id now) <> [] ->
  longPressTriggered_ (fst (checkAndTriggerLongPress hidden s id now)) !! id = Some true.
Proof.
  intros Hne.
  destruct (buttonStates_ s !! id) as [[|]|] eqn:Hst;
    [|exfalso; apply Hne; unfold checkAndTriggerLongPress, index; rewrite Hst;
      reflexivity..].
  destruct (longPressTriggered_ s !! id) as [[|]|] eqn:Hlp.
  - exfalso. apply Hne. apply PassFacts.checkAndTriggerLongPress_fired. exact Hlp.
  - destruct (buttonPressTime_ s !! id) as [pt|] eqn:Hpt.
    + apply (PassFacts.checkAndTriggerLongPress_unfold hidden s id now pt); auto.
      congruence.
    + exfalso. apply Hne. unfold checkAndTriggerLongPress, index. rewrite Hst.
      cbv beta iota zeta. cbn [negb].
      change (longPressTriggered_ (set_buttonStates s (buttonStates_ s)))
        with (longPressTriggered_ s).
      rewrite Hlp. cbv beta iota zeta.
      change (buttonPressTime_
                (set_longPressTriggered (set_buttonStates s (buttonStates_ s))
                   (longPressTriggered_ s))) with (buttonPressTime_ s).
      rewrite Hpt. reflexivity.
  - destruct (buttonPressTime_ s !! id) as [pt|] eqn:Hpt.
    + apply (PassFacts.checkAndTriggerLongPress_unfold hidden s id now pt); auto.
      congruence.
    + exfalso. apply Hne. unfold checkAndTriggerLongPress, index. rewrite Hst.
      cbv beta iota zeta. cbn [negb].
      change (longPressTriggered_ (set_buttonStates s (buttonStates_ s)))
        with (longPressTriggered_ s).
      rewrite Hlp. cbv beta iota zeta.
      change (buttonPressTime_
                (set_longPressTriggered (set_buttonStates s (buttonStates_ s))
                   (<[id := false]> (longPressTriggered_ s)))) with (buttonPressTime_ s).
      rewrite Hpt. reflexivity.
Qed.

(** No check, of the button or of another one, clears a flag that is set. *)
Lemma checkAndTriggerLongPress_keeps_flag (s : InputBinding.t) (id k now : Z) :
  longPressTriggered_ s !! id = Some true ->
  longPressTriggered_ (fst (checkAndTriggerLongPress hidden s k now)) !! id = Some true.
Proof.
  destruct s as [bb eb st pt rt tc lp en ct]. cbn. intros Hlp.
  unfold checkAndTriggerLongPress, index. cbn.
  destruct (Z.eq_dec k id) as [->|Hk].
  - destruct (st !! id) as [[|]|]; cbn; try exact Hlp. rewrite Hlp. cbn. exact Hlp.
  - destruct (st !! k) as [[|]|]; cbn; try exact Hlp.
    destruct (lp !! k) as [[|]|]; cbn; try exact Hlp;
      destruct (pt !! k) as [p|]; cbn;
      rewrite ?(lookup_insert_ne _ _ _ _ Hk); try exact Hlp;
      destruct (longPressPass hidden true bb k now p) as [[f1 a1] c1];
      destruct a1, f1; cbn;
      rewrite ?(lookup_insert_ne _ _ _ _ Hk); try exact Hlp;
      destruct (longPressPass hidden false bb k now p) as [[f2 a2] c2];
      destruct f2; cbn;
      rewrite ?(lookup_insert_ne _ _ _ _ Hk); exact Hlp.
Qed.

Lemma processTick_keeps_flag (visit : list Z) (s : InputBinding.t) (id now : Z) :
  longPressTriggered_ s !! id = Some true ->
  longPressTriggered_ (fst (processTick hidden visit s now)) !! id = Some true.
Proof.
  intros Hlp. unfold processTick.
  assert (H0 : longPressTriggered_ (set_currentTime s now) !! id = Some true)
    by (destruct s; exact Hlp).
  generalize dependent (set_currentTime s now). intros acc.
  generalize (@nil Call). revert acc.
  induction visit as [|k rest IH]; intros acc calls Hacc; [exact Hacc|].
  cbn [fold_left fst snd].
  destruct (buttonStates_ acc !! k) as [[|]|]; try (apply IH; exact Hacc).
  destruct (checkAndTriggerLongPress hidden acc k now) as [s1 c] eqn:Hcheck.
  apply IH. change s1 with (fst (s1, c)). rewrite <- Hcheck.
  apply checkAndTriggerLongPress_keeps_flag. exact Hacc.
Qed.

Lemma apply_keeps_flag (s : InputBinding.t) (op : Op) (id : Z) :
  isReleaseOf id op = false ->
  longPressTriggered_ s !! id = Some true ->
  longPressTriggered_ (fst (apply hidden s op)) !! id = Some true.
Proof.
  intros Hop Hlp. destruct op; cbn [apply fst]; try (destruct s; exact Hlp).
  - destruct (ReleaseFacts.onButtonPress_state hidden s now buttonId) as (_ & H & _).
    cbv zeta in H. rewrite H. exact Hlp.
  - destruct (ReleaseFacts.onButtonRelease_state hidden s now buttonId) as (_ & H & _).
    cbv zeta in H. rewrite H. cbn [isReleaseOf] in Hop.
    apply Z.eqb_neq in Hop. rewrite lookup_insert_ne by exact Hop. exact Hlp.
  - apply processTick_keeps_flag. exact Hlp.
Qed.

Lemma applyAll_keeps_flag (ops : list Op) (s : InputBinding.t) (id : Z) :
  Forall (fun op => isReleaseOf id op = false) ops ->
  longPressTriggered_ s !! id = Some true ->
  longPressTriggered_ (fst (applyAll hidden s ops)) !! id = Some true.
Proof.
  intros Hops. revert s. induction Hops as [|op rest Hop _ IH]; intros s Hlp;
    [exact Hlp|].
  cbn [applyAll].
  pose proof (apply_keeps_flag s op id Hop Hlp) as H1.
  destruct (apply hidden s op) as [s1 c1]. cbn [fst] in H1.
  specialize (IH s1 H1).
  destruct (applyAll hidden s1 rest) as [s2 c2]. exact IH.
Qed.

End Dispatch.
End FiredFacts.

(** X18.  A long press fires once per hold.  After a check that invoked a
    callback, the button's long-press flag stays set through every run of
    the service's operations (presses, releases of other buttons, encoder
    turns, ticks in any visiting order, registrations, [clearScope],
    [clearBindings], [setBindingsEnabled]) that holds no release of that
    button; so after any such run a check of the button invokes nothing,
    whatever the time, and a longer threshold on the same button never
    fires.  The button's release clears the flag. *)
Theorem long_press_fires_once (hidden : nat -> bool) (s : InputBinding.t)
    (id now later : Z) (ops : list Op) :
  snd (checkAndTriggerLongPress hidden s id now) <> [] ->
  Forall (fun op => isReleaseOf id op = false) ops ->
  let s' := fst (applyAll hidden (fst (checkAndTriggerLongPress hidden s id now)) ops) in
  longPressTriggered_ s' !! id = Some true /\
  snd (checkAndTriggerLongPress hidden s' id later) = [] /\
  longPressTriggered_ (fst (onButtonRelease hidden s' later id)) !! id = Some false.
Proof.
  intros Hne Hops s'.
  assert (Hflag : longPressTriggered_ s' !! id = Some true).
  { apply FiredFacts.applyAll_keeps_flag; [exact Hops|].
    apply FiredFacts.checkAndTriggerLongPress_sets_flag. exact Hne. }
  split; [exact Hflag|]. split.
  - apply PassFacts.checkAndTriggerLongPress_fired. exact Hflag.
  - destruct (ReleaseFacts.onButtonRelease_state hidden s' later id) as (_ & Hlp & _).
    cbv zeta in Hlp. rewrite Hlp. apply lookup_insert_eq.
Qed.

Lemma long_press_fires_once_witness :
  let hidden := fun _ : nat => false in
  let s0 := onLongPress (onLongPress InputBinding.create 10 (Some 1%nat) 0 None)
                        10 (Some 2%nat) 2000 None in
  let s := fst (onButtonPress hidden s0 1000 10) in
  let ops := [OpPress 1600 11; OpTick [11; 10] 1700; OpRelease 1800 11;
              OpSetBindingsEnabled false; OpTick [10; 11] 3100] in
  snd (checkAndTriggerLongPress hidden s 10 1500) = [CallAction 1%nat] /\
  Forall (fun op => isReleaseOf 10 op = false) ops /\
  snd (applyAll hidden (fst (checkAndTriggerLongPress hidden s 10 1500)) ops) = [] /\
  snd (checkAndTriggerLongPress hidden
         (fst (applyAll hidden (fst (checkAndTriggerLongPress hidden s 10 1500)) ops))
         10 3200) = [].
Proof.
  intros hidden s0 s ops.
  assert (H : snd (checkAndTriggerLongPress hidden s 10 1500) <> [])
    by (vm_compute; discriminate).
  assert (Hops : Forall (fun op => isReleaseOf 10 op = false) ops)
    by (repeat constructor).
  split; [reflexivity|]. split; [exact Hops|]. split; [reflexivity|].
  exact (proj1 (proj2 (long_press_fires_once hidden s 10 1500 3200 ops H Hops))).
Defined.

(** X19.  The combo rule.  Releasing a button selects the enabled combo bindings
    the button is part of whose two buttons are both held at that moment.
    It runs the callbacks of the selected bindings scoped to a visible
    object as soon as one of them holds a callback, and otherwise those of
    the selected global ones.  The enabled flag of the service plays no
    part. *)
Theorem combo_dispatch (hidden : nat -> bool) (s : InputBinding.t) (released : Z) :
  let scoped := List.filter (comboSelected hidden true s released) (buttonBindings_ s) in
  let globals := List.filter (comboSelected hidden false s released) (buttonBindings_ s) in
  checkAndTriggerCombosOnRelease hidden s released
  = if existsb hasAction scoped then actionsOf scoped else actionsOf globals.
Proof.
  intros scoped globals. unfold checkAndTriggerCombosOnRelease.
  rewrite (PassFacts.comboPass_spec hidden true), (PassFacts.comboPass_spec hidden false).
  reflexivity.
Qed.

(** X20.  A combo fires once per hold: when every combo binding of the service
    involves a button, the release of that button leaves the service in a
    state where no release, of that or of any other button, fires a combo. *)
Theorem combo_fires_once_per_hold (hidden : nat -> bool) (s : InputBinding.t)
    (now id released : Z) :
  (forall b, In b (buttonBindings_ s) -> isCombo b = true -> isPartOfCombo b id = true) ->
  checkAndTriggerCombosOnRelease hidden (fst (onButtonRelease hidden s now id)) released
  = [].
Proof.
  intros Hall. rewrite PassFacts.checkAndTriggerCombosOnRelease_spec. cbv zeta.
  destruct (ReleaseFacts.onButtonRelease_state hidden s now id)
    as (Hst & _ & Hbb & _).
  cbv zeta in Hst, Hbb. rewrite Hbb.
  assert (Hsel : forall scoped b, In b (buttonBindings_ s) ->
            comboSelected hidden scoped (fst (onButtonRelease hidden s now id))
                          released b = false).
  { intros scoped b Hin. unfold comboSelected.
    destruct (isCombo b) eqn:Hc; [|reflexivity].
    specialize (Hall b Hin Hc).
    assert (Hheld : comboHeld (fst (onButtonRelease hidden s now id)) released b = false).
    { unfold comboHeld. destruct (isPartOfCombo b released); [|reflexivity].
      cbn [andb]. unfold isPartOfCombo in Hall.
      destruct (bb_secondaryButton b) as [b2|]; [|reflexivity].
      unfold isButtonComboActive. rewrite Hst.
      apply orb_true_iff in Hall. destruct Hall as [Hall|Hall];
        apply Z.eqb_eq in Hall; rewrite Hall; rewrite lookup_insert_eq.
      - reflexivity.
      - destruct (<[id := false]> (buttonStates_ s) !! bb_buttonId b) as [[|]|];
          reflexivity. }
    rewrite Hheld. apply andb_false_r. }
  rewrite !(PassFacts.filter_none _ _ (Hsel _)). reflexivity.
Qed.

Lemma combo_fires_once_per_hold_witness :
  let hidden := fun _ : nat => false in
  let s0 := onCombo (onPressed InputBinding.create 10 (Some 1%nat) None)
                    10 11 (Some 3%nat) None in
  let s := fst (onButtonPress hidden (fst (onButtonPress hidden s0 0 10)) 5 11) in
  (forall b, In b (buttonBindings_ s) -> isCombo b = true -> isPartOfCombo b 11 = true) /\
  snd (onButtonRelease hidden s 9 11) = [CallAction 3%nat] /\
  checkAndTriggerCombosOnRelease hidden (fst (onButtonRelease hidden s 9 11)) 10 = [].
Proof.
  intros hidden s0 s.
  assert (H : forall b, In b (buttonBindings_ s) -> isCombo b = true ->
                        isPartOfCombo b 11 = true).
  { intros b [<-|[<-|[]]]; [discriminate|reflexivity]. }
  split; [exact H|]. split; [reflexivity|].
  exact (combo_fires_once_per_hold hidden s 9 11 10 H).
Defined.

(** X21.  Gesture tracking does not stop while the bindings are disabled: the
    state a press or a release leaves is the same whatever the flag, so a
    double tap completed while disabled is consumed; and the long-press and
    combo checks invoke the same callbacks whatever the flag. *)
Theorem gesture_tracking_ignores_enabled_flag (hidden : nat -> bool)
    (s : InputBinding.t) (enabled : bool) (now id : Z) :
  fst (onButtonPress hidden (setBindingsEnabled s enabled) now id)
  = setBindingsEnabled (fst (onButtonPress hidden s now id)) enabled /\
  fst (onButtonRelease hidden (setBindingsEnabled s enabled) now id)
  = setBindingsEnabled (fst (onButtonRelease hidden s now id)) enabled /\
  checkAndTriggerLongPress hidden (setBindingsEnabled s enabled) id now
  = (setBindingsEnabled (fst (checkAndTriggerLongPress hidden s id now)) enabled,
     snd (checkAndTriggerLongPress hidden s id now)) /\
  checkAndTriggerCombosOnRelease hidden (setBindingsEnabled s enabled) id
  = checkAndTriggerCombosOnRelease hidden s id.
Proof.
  destruct s as [bb eb st pt rt tc lp en ct]. repeat split.
  - unfold onButtonPress, index. cbn.
    destruct (rt !! id); destruct (tc !! id); cbn; destruct (wrapU32 _ <? _); reflexivity.
  - unfold onButtonRelease, checkAndTriggerDoubleTap. cbn.
    destruct (tc !! id) as [c|]; cbn; [|reflexivity].
    destruct (c <? 2); cbn; [reflexivity|].
    rewrite lookup_insert_eq.
    destruct (wrapU32 (now - now) <? System.Input.DOUBLE_TAP_WINDOW_MS); reflexivity.
  - unfold checkAndTriggerLongPress, index. cbn.
    destruct (st !! id) as [[|]|]; cbn; try reflexivity.
    destruct (lp !! id) as [[|]|]; cbn; try reflexivity;
      destruct (pt !! id) as [p|]; try reflexivity;
      destruct (longPressPass hidden true bb id now p) as [[f1 a1] c1];
      destruct a1, f1; cbn; try reflexivity;
      destruct (longPressPass hidden false bb id now p) as [[f2 a2] c2];
      destruct f2; reflexivity.
  - rewrite !PassFacts.checkAndTriggerCombosOnRelease_spec. reflexivity.
Qed.

(** X22.  [clearScope] undoes the registrations made in the scope: registering a
    binding of any kind in a scope and then clearing that scope gives the
    service that clearing alone gives.  The null scope is no exception:
    clearing it removes the global bindings. *)
Theorem clearScope_undoes_registration (s : InputBinding.t) (scope : option nat)
    (id other ms : Z) (cb : option nat) :
  clearScope (onPressed s id cb scope) scope = clearScope s scope /\
  clearScope (onReleased s id cb scope) scope = clearScope s scope /\
  clearScope (onLongPress s id cb ms scope) scope = clearScope s scope /\
  clearScope (onDoubleTap s id cb scope) scope = clearScope s scope /\
  clearScope (onCombo s id other cb scope) scope = clearScope s scope /\
  clearScope (onTurned s id cb scope) scope = clearScope s scope /\
  clearScope (onTurnedWhilePressed s id other cb scope) scope = clearScope s scope.
Proof.
  assert (Hs : scope_eqb scope scope = true)
    by (destruct scope; cbn; [apply Nat.eqb_refl|reflexivity]).
  destruct s as [bb eb st pt rt tc lp en ct].
  unfold clearScope, onPressed, onReleased, onLongPress, onDoubleTap, onCombo, onTurned,
    onTurnedWhilePressed, push_button, push_encoder, newButtonBinding, newEncoderBinding.
  cbn [set_buttonBindings set_encoderBindings buttonBindings_ encoderBindings_
       buttonStates_ buttonPressTime_ buttonReleaseTime_ buttonTapCount_
       longPressTriggered_ bindingsEnabled_ currentTime_].
  rewrite !List.filter_app. cbn [List.filter bb_scope eb_scope].
  rewrite Hs. cbn [negb]. rewrite !app_nil_r. repeat split.
Qed.

(** * The tick *)

Module TickFacts.
Import InputBinding.
Section Dispatch.
Variable hidden : nat -> bool.

(** What a long-press check of [id] reads is what it is given under [id],
    and the bindings. *)
Lemma checkAndTriggerLongPress_congr (s s' : InputBinding.t) (id now : Z) :
  agreeAt id s s' ->
  snd (checkAndTriggerLongPress hidden s id now)
  = snd (checkAndTriggerLongPress hidden s' id now).
Proof.
  destruct s as [bb eb st pt rt tc lp en ct], s' as [bb' eb' st' pt' rt' tc' lp' en' ct'].
  unfold agreeAt. cbn. intros (<- & Hst & Hlp & Hpt).
  unfold checkAndTriggerLongPress, index. cbn. rewrite <- Hst.
  destruct (st !! id) as [[|]|]; cbn; try reflexivity.
  rewrite <- Hlp.
  destruct (lp !! id) as [[|]|]; cbn; try reflexivity; rewrite <- Hpt;
    destruct (pt !! id) as [p|]; try reflexivity;
    destruct (longPressPass hidden true bb id now p) as [[f1 a1] c1];
    destruct a1, f1; cbn; try reflexivity;
    destruct (longPressPass hidden false bb id now p) as [[f2 a2] c2];
    destruct f2; reflexivity.
Qed.

(** A check of a tracked button [id] leaves alone what a check of another
    button reads. *)
Lemma checkAndTriggerLongPress_frame (s : InputBinding.t) (id now k : Z) :
  is_Some (buttonStates_ s !! id) -> k <> id ->
  agreeAt k (fst (checkAndTriggerLongPress hidden s id now)) s.
Proof.
  destruct s as [bb eb st pt rt tc lp en ct]. unfold agreeAt. cbn.
  intros [b Hb] Hk. unfold checkAndTriggerLongPress, index. cbn. rewrite Hb. cbn.
  destruct b; cbn; [|auto].
  destruct (lp !! id) as [[|]|]; cbn; auto;
    destruct (pt !! id) as [p|]; cbn;
    rewrite ?(lookup_insert_ne _ _ _ _ (not_eq_sym Hk)); auto;
    destruct (longPressPass hidden true bb id now p) as [[f1 a1] c1];
    destruct a1, f1; cbn;
    rewrite ?(lookup_insert_ne _ _ _ _ (not_eq_sym Hk)); auto;
    destruct (longPressPass hidden false bb id now p) as [[f2 a2] c2];
    destruct f2; cbn;
    rewrite ?(lookup_insert_ne _ _ _ _ (not_eq_sym Hk)); auto.
Qed.

Lemma agreeAt_trans (k : Z) (a b c : InputBinding.t) :
  agreeAt k a b -> agreeAt k b c -> agreeAt k a c.
Proof.
  unfold agreeAt. intros (A1 & A2 & A3 & A4) (B1 & B2 & B3 & B4).
  repeat split; congruence.
Qed.

(** The loop of [processTick] over distinct buttons. *)
Lemma tick_loop (now : Z) (l : list Z) (s0 : InputBinding.t) :
  NoDup l ->
  forall (acc : InputBinding.t) (calls : list Call),
    (forall k, In k l -> agreeAt k acc s0) ->
    snd (fold_left
           (fun (a : InputBinding.t * list Call) (buttonId : Z) =>
              match buttonStates_ (fst a) !! buttonId with
              | Some true =>
                  let '(s1, c) := checkAndTriggerLongPress hidden (fst a) buttonId now in
                  (s1, snd a ++ c)
              | _ => a
              end)
           l (acc, calls))
    = calls ++ flat_map (heldCheck hidden s0 now) l.
Proof.
  induction l as [|k rest IH]; intros Hnd acc calls Hagree.
  - cbn. rewrite app_nil_r. reflexivity.
  - cbn [fold_left flat_map fst snd].
    apply NoDup_cons in Hnd. destruct Hnd as [Hk Hnd].
    pose proof (Hagree k (or_introl eq_refl)) as Hak.
    assert (Hst : buttonStates_ acc !! k = buttonStates_ s0 !! k) by apply Hak.
    unfold heldCheck at 1. rewrite <- Hst.
    assert (Hskip : snd (fold_left
           (fun (a : InputBinding.t * list Call) (buttonId : Z) =>
              match buttonStates_ (fst a) !! buttonId with
              | Some true =>
                  let '(s1, c) := checkAndTriggerLongPress hidden (fst a) buttonId now in
                  (s1, snd a ++ c)
              | _ => a
              end) rest (acc, calls))
            = calls ++ [] ++ flat_map (heldCheck hidden s0 now) rest).
    { apply IH; [exact Hnd|]. intros j Hj. apply Hagree. right. exact Hj. }
    destruct (buttonStates_ acc !! k) as [[|]|] eqn:Hheld; try exact Hskip.
    clear Hskip.
    destruct (checkAndTriggerLongPress hidden acc k now) as [s1 c] eqn:Hcheck.
    cbn [fst snd].
    assert (Hc : c = snd (checkAndTriggerLongPress hidden s0 k now)).
    { change c with (snd (s1, c)). rewrite <- Hcheck.
      apply checkAndTriggerLongPress_congr. exact Hak. }
    assert (Hs1 : s1 = fst (checkAndTriggerLongPress hidden acc k now))
      by (rewrite Hcheck; reflexivity).
    rewrite (IH Hnd s1 (calls ++ c)).
    + rewrite Hc, app_assoc. reflexivity.
    + intros j Hj. rewrite Hs1.
      assert (Hne : j <> k).
      { intros Heq. apply Hk. rewrite <- Heq. apply list_elem_of_In. exact Hj. }
      apply (agreeAt_trans j _ acc).
      * apply checkAndTriggerLongPress_frame; [rewrite Hheld; eexists; reflexivity|].
        exact Hne.
      * apply Hagree. right. exact Hj.
Qed.

End Dispatch.
End TickFacts.

Import InputBinding.

(** X23.  A tick checks every held button on its own.  Whatever the order [visit]
    in which the container yields the keys of the state map, the callbacks
    a tick invokes are, key by key in that order, those the long-press
    check of that button invokes on the service as the tick found it, for
    the buttons recorded as held, and none for the others.  So two
    iteration orders give the same callbacks up to their order. *)
Theorem tick_checks_each_held_button (hidden : nat -> bool) (s : InputBinding.t)
    (visit : list Z) (now : Z) :
  iterationOf visit (buttonStates_ s) ->
  snd (processTick hidden visit s now) = flat_map (heldCheck hidden s now) visit /\
  forall visit',
    iterationOf visit' (buttonStates_ s) ->
    Permutation (snd (processTick hidden visit' s now))
                (snd (processTick hidden visit s now)).
Proof.
  assert (Hcalls : forall l, NoDup l ->
            snd (processTick hidden l s now) = flat_map (heldCheck hidden s now) l).
  { intros l Hnd. unfold processTick.
    rewrite (TickFacts.tick_loop hidden now l s Hnd).
    - reflexivity.
    - intros k _. unfold agreeAt. destruct s; cbn. auto. }
  intros [Hnd Hkeys]. split; [apply Hcalls; exact Hnd|].
  intros visit' [Hnd' Hkeys'].
  rewrite (Hcalls visit Hnd), (Hcalls visit' Hnd').
  apply Permutation_flat_map.
  apply NoDup_Permutation; [exact Hnd' | exact Hnd |].
  intros k. rewrite !list_elem_of_In, Hkeys, Hkeys'. reflexivity.
Qed.

Lemma tick_checks_each_held_button_witness :
  let hidden := fun _ : nat => false in
  let s0 := onLongPress (onLongPress InputBinding.create 10 (Some 1%nat) 0 None)
                        40 (Some 2%nat) 0 None in
  let s := fst (onButtonPress hidden (fst (onButtonPress hidden s0 0 10)) 5 40) in
  iterationOf [40; 10] (buttonStates_ s) /\
  snd (processTick hidden [40; 10] s 600) = [CallAction 2%nat; CallAction 1%nat] /\
  Permutation (snd (processTick hidden [10; 40] s 600))
              (snd (processTick hidden [40; 10] s 600)).
Proof.
  intros hidden s0 s.
  assert (Hst : buttonStates_ s = <[40 := true]> (<[10 := true]> ∅)) by reflexivity.
  assert (Hit : forall l, NoDup l -> (forall k, In k l <-> k = 10 \/ k = 40) ->
                          iterationOf l (buttonStates_ s)).
  { intros l Hnd Hl. split; [exact Hnd|]. intros k. rewrite Hl, Hst. split.
    - intros [-> | ->]; eexists; reflexivity.
    - intros [b Hb]. destruct (Z.eq_dec k 40) as [->|H40]; [right; reflexivity|].
      rewrite lookup_insert_ne in Hb by (apply not_eq_sym; exact H40).
      destruct (Z.eq_dec k 10) as [->|H10]; [left; reflexivity|].
      rewrite lookup_insert_ne in Hb by (apply not_eq_sym; exact H10).
      rewrite lookup_empty in Hb. discriminate. }
  assert (H1 : iterationOf [40; 10] (buttonStates_ s)).
  { apply Hit.
    - repeat constructor; rewrite ?list_elem_of_In; cbn; intuition lia.
    - intros k. cbn. intuition lia. }
  assert (H2 : iterationOf [10; 40] (buttonStates_ s)).
  { apply Hit.
    - repeat constructor; rewrite ?list_elem_of_In; cbn; intuition lia.
    - intros k. cbn. intuition lia. }
  destruct (tick_checks_each_held_button hidden s [40; 10] 600 H1) as [Hc Hp].
  split; [exact H1|]. split; [exact Hc | exact (Hp [10; 40] H2)].
Defined.

(** * More on the MIDI mapper *)

Module LoadFacts.
Import MidiMapper.

(** What the constructor's loop leaves under an id, whatever the maps
    held before. *)
Lemma loadMappings_lookup (mappings : list MidiCCMapping)
    (encoders buttons : gmap Z MidiConfig) (id : Z) :
  let '(encoders', buttons') := loadMappings encoders buttons mappings in
  encoders' !! id
  = (if (300 <=? id) && (id <? 500)
     then match lastMapping id mappings with
          | Some config => Some config
          | None => encoders !! id
          end
     else encoders !! id) /\
  buttons' !! id
  = (if ((300 <=? id) && (id <? 500)) then buttons !! id
     else if (10 <=? id) && (id <? 100)
     then match lastMapping id mappings with
          | Some config => Some config
          | None => buttons !! id
          end
     else buttons !! id).
Proof.
  revert encoders buttons.
  destruct (Z.leb_spec 300 id), (Z.ltb_spec id 500), (Z.leb_spec 10 id),
    (Z.ltb_spec id 100); try lia; cbn [andb];
    (induction mappings as [|m rest IH]; intros encoders buttons;
     cbn [loadMappings lastMapping]; [split; reflexivity|]);
    destruct (Z.geb_spec (inputId m) 300), (Z.ltb_spec (inputId m) 500),
      (Z.geb_spec (inputId m) 10), (Z.ltb_spec (inputId m) 100); try lia; cbn [andb];
    match goal with
    | |- context [loadMappings ?e ?b rest] =>
        specialize (IH e b); destruct (loadMappings e b rest) as [e' b'];
        destruct IH as [-> ->]
    end;
    destruct (lastMapping id rest);
    destruct (Z.eqb_spec (inputId m) id) as [Heq|Hne];
    try (exfalso; lia);
    try rewrite Heq;
    rewrite ?lookup_insert_eq;
    rewrite ?(lookup_insert_ne _ _ _ _ Hne);
    split; reflexivity.
Qed.
End LoadFacts.

Import MidiMapper.

(** X24.  The mapper's tables after construction: an encoder id in 300..499 and
    a button id in 10..99 carry the channel and controller of the last
    entry of the mapping list for that id, and no other id carries
    anything.  So an entry listed again overrides the earlier one, and an
    encoder id from 500 up, which [EncoderID] allows, is never mapped. *)
Theorem mapping_table_lookup (bus bus' : EventBus.t) (mappings : list MidiCCMapping)
    (m : MidiMapper.t) (id : Z) :
  MidiMapper.create bus mappings = Some (m, bus') ->
  findEncoder m id
  = (if (300 <=? id) && (id <? 500) then lastMapping id mappings else None) /\
  findButton m id
  = (if (10 <=? id) && (id <? 100) then lastMapping id mappings else None).
Proof.
  intros Hc. unfold MidiMapper.create in Hc.
  pose proof (LoadFacts.loadMappings_lookup mappings ∅ ∅ id) as Hl.
  destruct (loadMappings ∅ ∅ mappings) as [encoders buttons].
  destruct (EventBus.on bus _ _ _) as [[encoderSub bus1]|]; [|discriminate].
  destruct (EventBus.on bus1 _ _ _) as [[buttonSub bus2]|]; [|discriminate].
  injection Hc as <- <-. unfold findEncoder, findButton. cbn [encoders_ buttons_].
  destruct Hl as [-> ->]. rewrite !lookup_empty.
  destruct (Z.leb_spec 300 id), (Z.ltb_spec id 500), (Z.leb_spec 10 id),
    (Z.ltb_spec id 100); try lia; cbn [andb];
    destruct (lastMapping id mappings); split; reflexivity.
Qed.

Lemma mapping_table_lookup_witness :
  let mappings := [ {| inputId := 301; channel := 0; cc := 1 |};
                    {| inputId := 600; channel := 0; cc := 2 |};
                    {| inputId := 301; channel := 3; cc := 74 |} ] in
  exists m bus',
    MidiMapper.create EventBus.create mappings = Some (m, bus') /\
    findEncoder m 301 = Some {| cfg_channel := 3; cfg_control := 74 |} /\
    findEncoder m 600 = None.
Proof.
  intros mappings.
  destruct (MidiMapper.create EventBus.create mappings) as [[m bus']|] eqn:Hc;
    [|discriminate Hc].
  exists m, bus'. split; [reflexivity|]. split.
  - exact (proj1 (mapping_table_lookup EventBus.create bus' mappings m 301 Hc)).
  - exact (proj1 (mapping_table_lookup EventBus.create bus' mappings m 600 Hc)).
Defined.

Module SizeFacts.

Lemma size_insert_le (m : gmap Z MidiConfig) (k : Z) (v : MidiConfig) :
  (size (<[k := v]> m) <= S (size m))%nat.
Proof.
  destruct (m !! k) eqn:E.
  - rewrite map_size_insert_Some by (eexists; exact E). lia.
  - rewrite map_size_insert_None by exact E. lia.
Qed.

Lemma loadMappings_size (mappings : list MidiCCMapping)
    (encoders buttons : gmap Z MidiConfig) :
  let '(encoders', buttons') := loadMappings encoders buttons mappings in
  (size encoders' + size buttons' <= size encoders + size buttons + length mappings)%nat.
Proof.
  revert encoders buttons.
  induction mappings as [|m rest IH]; intros encoders buttons;
    cbn [loadMappings length]; [lia|].
  destruct ((inputId m >=? 300) && (inputId m <? 500));
    [|destruct ((inputId m >=? 10) && (inputId m <? 100))];
    match goal with
    | |- context [loadMappings ?e ?b rest] =>
        specialize (IH e b); destruct (loadMappings e b rest) as [e' b']
    end.
  - pose proof (size_insert_le encoders (inputId m)
                  {| cfg_channel := channel m; cfg_control := cc m |}). lia.
  - pose proof (size_insert_le buttons (inputId m)
                  {| cfg_channel := channel m; cfg_control := cc m |}). lia.
  - lia.
Qed.

End SizeFacts.

(** X25.  The two tables together hold at most as many entries as the mapping
    list has, so a list that fits its vector of [MAX_MIDI_MAPPINGS] entries
    cannot overflow either table, whose capacity is the same. *)
Theorem mapping_tables_fit (bus bus' : EventBus.t) (mappings : list MidiCCMapping)
    (m : MidiMapper.t) :
  MidiMapper.create bus mappings = Some (m, bus') ->
  (size (encoders_ m) + size (buttons_ m) <= length mappings)%nat /\
  ((length mappings <= System.Memory.MAX_MIDI_MAPPINGS)%nat ->
   (size (encoders_ m) <= System.Memory.MAX_MIDI_MAPPINGS)%nat /\
   (size (buttons_ m) <= System.Memory.MAX_MIDI_MAPPINGS)%nat).
Proof.
  intros Hc. unfold MidiMapper.create in Hc.
  pose proof (SizeFacts.loadMappings_size mappings ∅ ∅) as Hl.
  destruct (loadMappings ∅ ∅ mappings) as [encoders buttons].
  destruct (EventBus.on bus _ _ _) as [[encoderSub bus1]|]; [|discriminate].
  destruct (EventBus.on bus1 _ _ _) as [[buttonSub bus2]|]; [|discriminate].
  injection Hc as <- <-. cbn [encoders_ buttons_].
  rewrite map_size_empty in Hl. lia.
Qed.

Lemma mapping_tables_fit_witness :
  let mappings := [ {| inputId := 301; channel := 0; cc := 1 |};
                    {| inputId := 600; channel := 0; cc := 2 |};
                    {| inputId := 301; channel := 3; cc := 74 |} ] in
  exists m bus',
    MidiMapper.create EventBus.create mappings = Some (m, bus') /\
    (size (encoders_ m) + size (buttons_ m) <= 3)%nat.
Proof.
  intros mappings.
  destruct (MidiMapper.create EventBus.create mappings) as [[m bus']|] eqn:Hc;
    [|discriminate Hc].
  exists m, bus'. split; [reflexivity|].
  exact (proj1 (mapping_tables_fit EventBus.create bus' mappings m Hc)).
Defined.

Module WiringFacts.
Import EventBus.

(** What a subscription changes for the events delivered: the callback is
    added at the end for its own key when the list had room, and nothing
    else changes. *)
Lemma emit_on (bus bus' : EventBus.t) (category type : Z) (cb : nat) (id : Z) (e : Event) :
  on bus category type (Some cb) = Some (id, bus') ->
  emit bus' e
  = emit bus e ++
    (if (makeKey (getCategory e) (getType e) =? makeKey category type)
        && (length (default [] (find (callbackSubscriptions_ bus) (makeKey category type)))
            <? System.Memory.MAX_CALLBACKS_PER_EVENT)%nat
     then [(cb, e)] else []).
Proof.
  intros Hon. unfold on in Hon. unfold emit.
  set (key := makeKey category type) in *.
  set (k := makeKey (getCategory e) (getType e)).
  destruct (find (callbackSubscriptions_ bus) key) as [l|] eqn:Hfind;
    cbn [default Datatypes.id].
  - change (default [] (Some l)) with l.
    destruct (Nat.leb_spec System.Memory.MAX_CALLBACKS_PER_EVENT (length l)) as [Hfull|Hroom].
    + injection Hon as <- <-. cbn [callbackSubscriptions_].
      destruct (Nat.ltb_spec (length l) System.Memory.MAX_CALLBACKS_PER_EVENT); [lia|].
      rewrite andb_false_r, app_nil_r. reflexivity.
    + injection Hon as <- <-. cbn [callbackSubscriptions_].
      destruct (Nat.ltb_spec (length l) System.Memory.MAX_CALLBACKS_PER_EVENT); [|lia].
      rewrite andb_true_r, EventBusLemmas.find_assign.
      destruct (Z.eqb_spec k key) as [->|Hne].
      * rewrite Hfind, map_app. reflexivity.
      * rewrite app_nil_r. reflexivity.
  - change (default [] None) with (@nil CallbackSubscription).
    destruct (length (callbackSubscriptions_ bus) <? System.Memory.MAX_EVENT_TYPES)%nat;
      [|discriminate].
    injection Hon as <- <-. cbn [callbackSubscriptions_].
    change (length [] <? System.Memory.MAX_CALLBACKS_PER_EVENT)%nat with true.
    rewrite andb_true_r, EventBusLemmas.find_assign.
    destruct (Z.eqb_spec k key) as [->|Hne].
    + rewrite Hfind. reflexivity.
    + rewrite app_nil_r. reflexivity.
Qed.

End WiringFacts.

(** X26.  The mapper on the bus.  After construction the mapper's two callbacks
    are called last for encoder events and for button press events, each
    provided the callback list of its event still had room (a full list
    leaves the mapper unsubscribed without any sign), and for nothing
    else: a button release and a MIDI event are delivered exactly as before,
    so the release of a mapped button sends no control change. *)
Theorem mapper_subscribes_to_turns_and_presses (bus bus' : EventBus.t)
    (mappings : list MidiCCMapping) (m : MidiMapper.t) :
  MidiMapper.create bus mappings = Some (m, bus') ->
  let room (type : Z) :=
    (length (default [] (EventBus.find (EventBus.callbackSubscriptions_ bus)
                           (EventBus.makeKey EventBus.EventCategory.Input type)))
     <? System.Memory.MAX_CALLBACKS_PER_EVENT)%nat in
  (forall id, EventBus.emit bus' (ButtonReleaseEvent id)
              = EventBus.emit bus (ButtonReleaseEvent id)) /\
  (forall c k v s, EventBus.emit bus' (MidiCCEvent c k v s)
                   = EventBus.emit bus (MidiCCEvent c k v s)) /\
  (forall id v, EventBus.emit bus' (EncoderChangedEvent id v)
                = EventBus.emit bus (EncoderChangedEvent id v)
                  ++ (if room EventBus.InputEvent.EncoderChanged
                      then [(cb_onEncoderChangedEvent, EncoderChangedEvent id v)]
                      else [])) /\
  (forall id p, EventBus.emit bus' (ButtonPressEvent id p)
                = EventBus.emit bus (ButtonPressEvent id p)
                  ++ (if room EventBus.InputEvent.ButtonPress
                      then [(cb_onButtonPressEvent, ButtonPressEvent id p)]
                      else [])).
Proof.
  intros Hc room. unfold MidiMapper.create in Hc.
  destruct (loadMappings ∅ ∅ mappings) as [encoders buttons].
  destruct (EventBus.on bus _ _ _) as [[encoderSub bus1]|] eqn:H1; [|discriminate].
  destruct (EventBus.on bus1 _ _ _) as [[buttonSub bus2]|] eqn:H2; [|discriminate].
  injection Hc as <- <-.
  assert (Hroom : forall type,
            type <> EventBus.InputEvent.EncoderChanged ->
            EventBus.makeKey EventBus.EventCategory.Input type
            <> EventBus.makeKey EventBus.EventCategory.Input
                 EventBus.InputEvent.EncoderChanged ->
            default [] (EventBus.find (EventBus.callbackSubscriptions_ bus1)
                          (EventBus.makeKey EventBus.EventCategory.Input type))
            = default [] (EventBus.find (EventBus.callbackSubscriptions_ bus)
                            (EventBus.makeKey EventBus.EventCategory.Input type))).
  { intros type _ Hne. unfold EventBus.on in H1.
    destruct (EventBus.find (EventBus.callbackSubscriptions_ bus) _) as [l|];
      [destruct (System.Memory.MAX_CALLBACKS_PER_EVENT <=? length l)%nat|
       destruct (length (EventBus.callbackSubscriptions_ bus)
                 <? System.Memory.MAX_EVENT_TYPES)%nat; [|discriminate]];
      injection H1 as <- <-; cbn [EventBus.callbackSubscriptions_];
      rewrite ?EventBusLemmas.find_assign;
      try (destruct (Z.eqb_spec
                       (EventBus.makeKey EventBus.EventCategory.Input type)
                       (EventBus.makeKey EventBus.EventCategory.Input
                          EventBus.InputEvent.EncoderChanged)) as [Heq|_];
           [contradiction|]); reflexivity. }
  repeat split; intros.
  - rewrite (WiringFacts.emit_on _ _ _ _ _ _ _ H2), (WiringFacts.emit_on _ _ _ _ _ _ _ H1).
    cbn [EventBus.getCategory EventBus.getType].
    change (EventBus.makeKey EventBus.EventCategory.Input EventBus.InputEvent.ButtonRelease
            =? EventBus.makeKey EventBus.EventCategory.Input EventBus.InputEvent.ButtonPress)
      with false.
    change (EventBus.makeKey EventBus.EventCategory.Input EventBus.InputEvent.ButtonRelease
            =? EventBus.makeKey EventBus.EventCategory.Input
                 EventBus.InputEvent.EncoderChanged)
      with false.
    cbn [andb]. rewrite !app_nil_r. reflexivity.
  - rewrite (WiringFacts.emit_on _ _ _ _ _ _ _ H2), (WiringFacts.emit_on _ _ _ _ _ _ _ H1).
    cbn [EventBus.getCategory EventBus.getType].
    change (EventBus.makeKey EventBus.EventCategory.MIDI EventBus.MidiEvent.CC
            =? EventBus.makeKey EventBus.EventCategory.Input EventBus.InputEvent.ButtonPress)
      with false.
    change (EventBus.makeKey EventBus.EventCategory.MIDI EventBus.MidiEvent.CC
            =? EventBus.makeKey EventBus.EventCategory.Input
                 EventBus.InputEvent.EncoderChanged)
      with false.
    cbn [andb]. rewrite !app_nil_r. reflexivity.
  - rewrite (WiringFacts.emit_on _ _ _ _ _ _ _ H2), (WiringFacts.emit_on _ _ _ _ _ _ _ H1).
    cbn [EventBus.getCategory EventBus.getType].
    change (EventBus.makeKey EventBus.EventCategory.Input EventBus.InputEvent.EncoderChanged
            =? EventBus.makeKey EventBus.EventCategory.Input EventBus.InputEvent.ButtonPress)
      with false.
    rewrite Z.eqb_refl. cbn [andb]. rewrite app_nil_r. reflexivity.
  - rewrite (WiringFacts.emit_on _ _ _ _ _ _ _ H2), (WiringFacts.emit_on _ _ _ _ _ _ _ H1).
    cbn [EventBus.getCategory EventBus.getType].
    change (EventBus.makeKey EventBus.EventCategory.Input EventBus.InputEvent.ButtonPress
            =? EventBus.makeKey EventBus.EventCategory.Input
                 EventBus.InputEvent.EncoderChanged)
      with false.
    rewrite Z.eqb_refl. cbn [andb]. rewrite app_nil_r.
    rewrite Hroom; [reflexivity | discriminate | discriminate].
Qed.

Lemma mapper_subscribes_to_turns_and_presses_witness :
  let bus := {| EventBus.callbackSubscriptions_ :=
                  [(EventBus.makeKey 1 102,
                    [{| EventBus.sub_id := 1; EventBus.sub_callback := 7%nat |}])];
                EventBus.nextId_ := 2 |} in
  exists m bus',
    MidiMapper.create bus Config.MIDI_MAPPINGS = Some (m, bus') /\
    EventBus.emit bus' (ButtonReleaseEvent 10) = [(7%nat, ButtonReleaseEvent 10)] /\
    EventBus.emit bus' (ButtonPressEvent 10 true)
    = [(cb_onButtonPressEvent, ButtonPressEvent 10 true)].
Proof.
  intros bus.
  destruct (MidiMapper.create bus Config.MIDI_MAPPINGS) as [[m bus']|] eqn:Hc;
    [|discriminate Hc].
  exists m, bus'. split; [reflexivity|].
  destruct (mapper_subscribes_to_turns_and_presses bus bus' Config.MIDI_MAPPINGS m Hc)
    as (Hrel & _ & _ & Hpress).
  split; [exact (Hrel 10) | exact (Hpress 10 true)].
Defined.

(** * Construction and destruction of the mapper on the bus *)

Module RoundTripFacts.
Import EventBus.

(** Storing under two different keys, in either order. *)
Lemma assign_comm (m : SubscriptionMap) (k1 k2 : Z) (l1 l2 : CallbackList) :
  k1 <> k2 ->
  assign (assign m k1 l1) k2 l2 = assign (assign m k2 l2) k1 l1.
Proof.
  intros Hne. induction m as [|[k v] rest IH]; cbn [assign].
  - destruct (Z.ltb_spec k2 k1), (Z.ltb_spec k1 k2), (Z.eqb_spec k2 k1),
      (Z.eqb_spec k1 k2); try lia; reflexivity.
  - destruct (Z.ltb_spec k1 k), (Z.ltb_spec k2 k), (Z.eqb_spec k1 k), (Z.eqb_spec k2 k);
      try lia; cbn [assign];
      repeat match goal with
             | |- context [?a <? ?b] => destruct (Z.ltb_spec a b); try lia
             | |- context [?a =? ?b] => destruct (Z.eqb_spec a b); try lia
             end;
      try reflexivity; rewrite IH; reflexivity.
Qed.

Lemma default_free (id : Z) (m : SubscriptionMap) (key : Z) :
  idFree id m -> Forall (fun sub => sub_id sub <> id) (default [] (find m key)).
Proof.
  intros Hfree. destruct (find m key) as [l|] eqn:Hfind.
  - exact (EventBusLemmas.find_free id m key l Hfree Hfind).
  - constructor.
Qed.

Lemma idFree_assign (id : Z) (m : SubscriptionMap) (key : Z) (l : CallbackList) :
  idFree id m -> Forall (fun sub => sub_id sub <> id) l -> idFree id (assign m key l).
Proof.
  intros Hm Hl. apply EventBusInvariant.assign_Forall; assumption.
Qed.

(** What [on] stores: nothing when it refuses, and otherwise the list
    found under the key with the new subscription at its end. *)
Lemma on_stores (bus bus' : EventBus.t) (category type : Z) (cb : nat) (id : Z) :
  on bus category type (Some cb) = Some (id, bus') ->
  nextId_ bus' = wrapU8 (nextId_ bus + 1) /\
  ((id = 0 /\ callbackSubscriptions_ bus' = callbackSubscriptions_ bus) \/
   (id = nextId_ bus /\
    callbackSubscriptions_ bus'
    = assign (callbackSubscriptions_ bus) (makeKey category type)
             (default [] (find (callbackSubscriptions_ bus) (makeKey category type))
              ++ [{| sub_id := nextId_ bus; sub_callback := cb |}]))).
Proof.
  intros Hon. unfold on in Hon.
  destruct (find (callbackSubscriptions_ bus) (makeKey category type)) as [l|].
  - change (default [] (Some l)) with l.
    destruct (System.Memory.MAX_CALLBACKS_PER_EVENT <=? length l)%nat;
      injection Hon as <- <-; cbn [nextId_ callbackSubscriptions_];
      (split; [reflexivity|]); [left | right]; split; reflexivity.
  - change (default [] None) with (@nil CallbackSubscription).
    destruct (length (callbackSubscriptions_ bus) <? System.Memory.MAX_EVENT_TYPES)%nat;
      [|discriminate].
    injection Hon as <- <-. cbn [nextId_ callbackSubscriptions_].
    split; [reflexivity|]. right. split; reflexivity.
Qed.

(** Removing the subscription [assign] has just put at the end of a list. *)
Lemma off_map_last (id : Z) (cb : nat) (m : SubscriptionMap) (key : Z) (l : CallbackList) :
  idFree id m -> Forall (fun sub => sub_id sub <> id) l ->
  off_map id (assign m key (l ++ [{| sub_id := id; sub_callback := cb |}]))
  = assign m key l.
Proof.
  intros Hm Hl. apply EventBusLemmas.off_map_assign; [exact Hm|].
  apply EventBusLemmas.erase_first_last. exact Hl.
Qed.

(** Storing under a key the list already found there changes nothing
    that [emit] sees. *)
Lemma view_assign_same (m : SubscriptionMap) (key k : Z) :
  default [] (find (assign m key (default [] (find m key))) k) = default [] (find m k).
Proof.
  rewrite EventBusLemmas.find_assign.
  destruct (Z.eqb_spec k key) as [->|]; reflexivity.
Qed.

End RoundTripFacts.

Import MidiMapper.

(** X27.  Construction and destruction are inverse on the bus.  When the id
    counter of the bus is not about to wrap (1 <= nextId_ <= 254) and the
    next two ids are not in use, destroying a mapper built on the bus
    leaves every event delivered exactly as before the mapper was built,
    whether its two subscriptions had been accepted or refused. *)
Theorem destroy_undoes_create (bus bus' : EventBus.t) (mappings : list MidiCCMapping)
    (m : MidiMapper.t) :
  MidiMapper.create bus mappings = Some (m, bus') ->
  1 <= EventBus.nextId_ bus <= 254 ->
  EventBus.idFree (EventBus.nextId_ bus) (EventBus.callbackSubscriptions_ bus) ->
  EventBus.idFree (EventBus.nextId_ bus + 1) (EventBus.callbackSubscriptions_ bus) ->
  forall e, EventBus.emit (destroy m bus') e = EventBus.emit bus e.
Proof.
  intros Hc Hn Hfree1 Hfree2 e. apply EventBusLemmas.emit_find. intros k.
  unfold MidiMapper.create in Hc.
  destruct (loadMappings ∅ ∅ mappings) as [encoders buttons].
  destruct (EventBus.on bus _ _ _) as [[encoderSub bus1]|] eqn:H1; [|discriminate].
  destruct (EventBus.on bus1 _ _ _) as [[buttonSub bus2]|] eqn:H2; [|discriminate].
  injection Hc as <- <-. unfold destroy. cbn [encoderSub_ buttonSub_].
  set (n := EventBus.nextId_ bus) in *.
  set (subs := EventBus.callbackSubscriptions_ bus) in *.
  set (kE := EventBus.makeKey EventBus.EventCategory.Input
               EventBus.InputEvent.EncoderChanged) in *.
  set (kB := EventBus.makeKey EventBus.EventCategory.Input
               EventBus.InputEvent.ButtonPress) in *.
  assert (HkEB : kE <> kB) by discriminate.
  apply RoundTripFacts.on_stores in H1. destruct H1 as [Hn1 H1].
  apply RoundTripFacts.on_stores in H2. destruct H2 as [_ H2].
  fold n subs kE in H1. fold kB in H2. fold n in Hn1.
  assert (Hw : wrapU8 (n + 1) = n + 1) by (unfold wrapU8; apply Z.mod_small; lia).
  rewrite Hn1, Hw in H2.
  destruct H1 as [[-> Hs1] | [-> Hs1]]; destruct H2 as [[-> Hs2] | [-> Hs2]];
    rewrite ?Z.eqb_refl.
  - (* both refused *)
    cbn [Z.eqb]. rewrite Hs2, Hs1. reflexivity.
  - (* only the second accepted *)
    destruct (Z.eqb_spec (n + 1) 0); [lia|].
    change (0 =? 0) with true. cbv iota.
    cbn [EventBus.off EventBus.callbackSubscriptions_]. rewrite Hs2, Hs1.
    rewrite RoundTripFacts.off_map_last
      by (try exact Hfree2; apply RoundTripFacts.default_free; exact Hfree2).
    apply RoundTripFacts.view_assign_same.
  - (* only the first accepted *)
    destruct (Z.eqb_spec n 0); [lia|].
    change (0 =? 0) with true. cbv iota.
    cbn [EventBus.off EventBus.callbackSubscriptions_]. rewrite Hs2, Hs1.
    rewrite RoundTripFacts.off_map_last
      by (try exact Hfree1; apply RoundTripFacts.default_free; exact Hfree1).
    apply RoundTripFacts.view_assign_same.
  - (* both accepted *)
    destruct (Z.eqb_spec n 0); [lia|]. destruct (Z.eqb_spec (n + 1) 0); [lia|].
    cbn [EventBus.off EventBus.callbackSubscriptions_ EventBus.nextId_].
    rewrite Hs2, Hs1.
    rewrite EventBusLemmas.find_assign.
    destruct (Z.eqb_spec kB kE) as [Heq|_]; [symmetry in Heq; contradiction|].
    rewrite (RoundTripFacts.assign_comm subs kE kB) by exact HkEB.
    rewrite RoundTripFacts.off_map_last.
    + rewrite (RoundTripFacts.assign_comm subs kB kE) by (apply not_eq_sym; exact HkEB).
      rewrite RoundTripFacts.off_map_last.
      * rewrite !EventBusLemmas.find_assign.
        destruct (Z.eqb_spec k kB) as [->|]; [reflexivity|].
        destruct (Z.eqb_spec k kE) as [->|]; reflexivity.
      * apply RoundTripFacts.idFree_assign; [exact Hfree2|].
        apply RoundTripFacts.default_free. exact Hfree2.
      * apply RoundTripFacts.default_free. exact Hfree2.
    + apply RoundTripFacts.idFree_assign; [exact Hfree1|].
      apply Forall_app. split; [apply RoundTripFacts.default_free; exact Hfree1|].
      constructor; [cbn; lia | constructor].
    + apply RoundTripFacts.default_free. exact Hfree1.
Qed.

Lemma destroy_undoes_create_witness :
  let bus := {| EventBus.callbackSubscriptions_ :=
                  [(EventBus.makeKey 1 101,
                    [{| EventBus.sub_id := 1; EventBus.sub_callback := 7%nat |}])];
                EventBus.nextId_ := 2 |} in
  exists m bus',
    MidiMapper.create bus Config.MIDI_MAPPINGS = Some (m, bus') /\
    1 <= EventBus.nextId_ bus <= 254 /\
    EventBus.emit bus' (ButtonPressEvent 10 true)
    = [(7%nat, ButtonPressEvent 10 true); (cb_onButtonPressEvent, ButtonPressEvent 10 true)] /\
    EventBus.emit (destroy m bus') (ButtonPressEvent 10 true)
    = [(7%nat, ButtonPressEvent 10 true)].
Proof.
  intros bus.
  destruct (MidiMapper.create bus Config.MIDI_MAPPINGS) as [[m bus']|] eqn:Hc;
    [|discriminate Hc].
  assert (Hn : 1 <= EventBus.nextId_ bus <= 254) by (cbn; lia).
  assert (H1 : EventBus.idFree (EventBus.nextId_ bus) (EventBus.callbackSubscriptions_ bus)).
  { repeat constructor. cbn. discriminate. }
  assert (H2 : EventBus.idFree (EventBus.nextId_ bus + 1)
                 (EventBus.callbackSubscriptions_ bus)).
  { repeat constructor. cbn. discriminate. }
  exists m, bus'. split; [reflexivity|]. split; [exact Hn|]. split.
  - assert (Hb : Some (m, bus') = MidiMapper.create bus Config.MIDI_MAPPINGS)
      by (symmetry; exact Hc).
    vm_compute in Hb. injection Hb as _ ->. reflexivity.
  - exact (destroy_undoes_create bus bus' Config.MIDI_MAPPINGS m Hc Hn H1 H2
             (ButtonPressEvent 10 true)).
Defined.

(** * More on the encoder *)

Module DefaultRangeFacts.
Import Float32 Encoder.

Lemma defaultRangeIsTriple_all : defaultRangeIsTriple (Z.to_nat 65536) 0 = true.
Proof. vm_compute. reflexivity. Qed.

Lemma defaultRangeIsTriple_sound (count : nat) (from ppr : Z) :
  defaultRangeIsTriple count from = true ->
  from <= ppr < from + Z.of_nat count ->
  calculateDefaultVirtualRange ppr = 3 * ppr.
Proof.
  revert from. induction count as [|count IH]; intros from Hc Hr; [lia|].
  cbn [defaultRangeIsTriple] in Hc. apply andb_true_iff in Hc. destruct Hc as [Hh Ht].
  destruct (Z.eq_dec ppr from) as [->|Hne].
  - apply Z.eqb_eq. exact Hh.
  - apply (IH (from + 1) Ht). lia.
Qed.

Lemma calculateDefaultVirtualRange_triple (ppr : Z) :
  0 <= ppr <= 65535 -> calculateDefaultVirtualRange ppr = 3 * ppr.
Proof.
  intros H.
  apply (defaultRangeIsTriple_sound (Z.to_nat 65536) 0 ppr defaultRangeIsTriple_all).
  rewrite Z2Nat.id by lia. lia.
Qed.

End DefaultRangeFacts.

Import Float32 Encoder.

(** X28.  Every encoder starts in a sound state: for any set-up, whatever its
    pulses-per-revolution count (a [uint16_t]), the virtual range comes out
    as exactly 3 * ppr (three quarters of the 4 * ppr quadrature counts of
    a turn; the float computation is exact) and the position as its half,
    rounded down; so for ppr >= 1 the range is at least 2 and the position
    inside it. *)
Theorem create_establishes_range (setup : Encoder.Setup) :
  0 <= setup_ppr setup <= 65535 ->
  let e := create setup in
  virtualRange_ e = 3 * setup_ppr setup /\
  virtualPosition_ e = (3 * setup_ppr setup) / 2 /\
  (1 <= setup_ppr setup -> inRange e).
Proof.
  intros H e.
  assert (Hr : virtualRange_ e = 3 * setup_ppr setup)
    by (apply DefaultRangeFacts.calculateDefaultVirtualRange_triple; exact H).
  assert (Hp : virtualPosition_ e = (3 * setup_ppr setup) / 2).
  { unfold e, create. cbn [virtualPosition_].
    rewrite DefaultRangeFacts.calculateDefaultVirtualRange_triple by exact H.
    apply Z.quot_div_nonneg; lia. }
  split; [exact Hr|]. split; [exact Hp|].
  intros H1. unfold inRange. rewrite Hr, Hp.
  assert (0 <= (3 * setup_ppr setup) / 2 < 3 * setup_ppr setup)
    by (split; [apply Z.div_pos; lia | apply Z.div_lt_upper_bound; lia]).
  change (2 ^ 24) with 16777216. lia.
Qed.

Lemma create_establishes_range_witness :
  let setup := {| setup_id := 410; setup_ppr := 600;
                  setup_stepsPerDetent := 1; setup_mode := Absolute |} in
  0 <= setup_ppr setup <= 65535 /\
  virtualRange_ (create setup) = 1800 /\ virtualPosition_ (create setup) = 900.
Proof.
  intros setup.
  assert (H : 0 <= setup_ppr setup <= 65535) by (cbn; lia).
  split; [exact H|].
  destruct (create_establishes_range setup H) as (Hr & Hp & _).
  split; [exact Hr | exact Hp].
Defined.

Module DetentFacts.
Local Opaque Float32.add Float32.one Float32.minus_one.

Lemma c_abs_unit (d a : Z) :
  d = 1 \/ d = -1 -> 0 < a <= 255 -> c_abs (wrap32 (d * a)) = a.
Proof.
  intros Hd Ha. rewrite EncoderFacts.wrap32_small by lia. unfold c_abs.
  destruct Hd as [-> | ->].
  - destruct (Z.gtb_spec (1 * a) 0); lia.
  - destruct (Z.gtb_spec (-1 * a) 0); [lia|].
    rewrite EncoderFacts.wrap32_small by lia. lia.
Qed.

(** A run of unit transitions in one direction, from [a] counts already
    accumulated in that direction. *)
Lemma processAll_units (n : nat) (e : Encoder.t) (d a : Z) :
  mode_ e = Relative -> 1 <= stepsPerDetent_ e <= 255 ->
  d = 1 \/ d = -1 ->
  accumulatedDelta_ e = d * a -> 0 <= a < stepsPerDetent_ e ->
  accumulatedDelta_ (fst (processAll e (repeat d n)))
  = d * ((a + Z.of_nat n) mod stepsPerDetent_ e) /\
  bufferedCount (snd (processAll e (repeat d n)))
  = (a + Z.of_nat n) / stepsPerDetent_ e /\
  stepsPerDetent_ (fst (processAll e (repeat d n))) = stepsPerDetent_ e.
Proof.
  revert e a. induction n as [|n IH]; intros e a Hm Hk Hd Hacc Ha.
  - cbn [repeat processAll fst snd bufferedCount]. rewrite Z.add_0_r.
    rewrite Z.mod_small, Z.div_small by lia. auto.
  - cbn [repeat processAll]. unfold processEncoderChange.
    destruct (Z.eqb_spec d 0); [lia|]. rewrite Hm.
    assert (Habs : c_abs (wrap32 (accumulatedDelta_ e + d)) = a + 1).
    { rewrite Hacc. replace (d * a + d) with (d * (a + 1)) by lia.
      apply c_abs_unit; [exact Hd | lia]. }
    replace (a + Z.of_nat (S n)) with ((a + 1) + Z.of_nat n) by lia.
    destruct (Z.eq_dec (a + 1) (stepsPerDetent_ e)) as [Hfull|Hnot].
    + rewrite (EncoderFacts.handleRelativeMode_reached e d) by lia.
      cbv zeta.
      set (e1 := emitPendingEvent _ _).
      assert (He1 : mode_ e1 = Relative /\ stepsPerDetent_ e1 = stepsPerDetent_ e /\
                    accumulatedDelta_ e1 = d * 0).
      { subst e1. destruct e. cbn. cbn in Hm. rewrite Z.mul_0_r. auto. }
      destruct He1 as (Hm1 & Hk1 & Hacc1).
      specialize (IH e1 0 Hm1 ltac:(lia) Hd Hacc1 ltac:(lia)).
      destruct (processAll e1 (repeat d n)) as [e2 os].
      cbn [fst snd bufferedCount] in *. rewrite Hk1 in IH.
      destruct IH as (IHa & IHc & IHk).
      rewrite IHa, IHc, IHk, Hfull.
      replace (stepsPerDetent_ e + Z.of_nat n)
        with (Z.of_nat n + 1 * stepsPerDetent_ e) by lia.
      rewrite Z.mod_add, Z.div_add by lia. rewrite Z.add_0_l. repeat split. lia.
    + rewrite (EncoderFacts.handleRelativeMode_below e d) by lia.
      set (e1 := set_accumulatedDelta _ _).
      assert (He1 : mode_ e1 = Relative /\ stepsPerDetent_ e1 = stepsPerDetent_ e /\
                    accumulatedDelta_ e1 = d * (a + 1)).
      { subst e1. destruct e. cbn. cbn in Hm, Hacc. subst.
        rewrite EncoderFacts.wrap32_small by lia. repeat split; try assumption; lia. }
      destruct He1 as (Hm1 & Hk1 & Hacc1).
      specialize (IH e1 (a + 1) Hm1 ltac:(lia) Hd Hacc1 ltac:(lia)).
      destruct (processAll e1 (repeat d n)) as [e2 os].
      cbn [fst snd bufferedCount] in *. rewrite Hk1 in IH. exact IH.
Qed.

End DetentFacts.

(** X29.  Counting detents.  A relative-mode encoder with [k] steps per detent
    (1 <= k <= 255) that holds [a] counts in one direction and sees [n]
    more unit transitions in that direction buffers a value exactly
    (a + n) / k times and is left with (a + n) mod k counts: no count is
    lost between detents. *)
Theorem relative_detents_counted (e : Encoder.t) (d a : Z) (n : nat) :
  mode_ e = Relative -> 1 <= stepsPerDetent_ e <= 255 ->
  d = 1 \/ d = -1 ->
  accumulatedDelta_ e = d * a -> 0 <= a < stepsPerDetent_ e ->
  bufferedCount (snd (processAll e (repeat d n)))
  = (a + Z.of_nat n) / stepsPerDetent_ e /\
  accumulatedDelta_ (fst (processAll e (repeat d n)))
  = d * ((a + Z.of_nat n) mod stepsPerDetent_ e).
Proof.
  intros Hm Hk Hd Hacc Ha.
  destruct (DetentFacts.processAll_units n e d a Hm Hk Hd Hacc Ha) as (H1 & H2 & _).
  split; assumption.
Qed.

Lemma relative_detents_counted_witness :
  let e := create {| setup_id := 400; setup_ppr := 24;
                     setup_stepsPerDetent := 4; setup_mode := Relative |} in
  (mode_ e = Relative /\ 1 <= stepsPerDetent_ e <= 255 /\ accumulatedDelta_ e = -1 * 0) /\
  bufferedCount (snd (processAll e (repeat (-1) 10))) = 2 /\
  accumulatedDelta_ (fst (processAll e (repeat (-1) 10))) = -2.
Proof.
  intros e.
  assert (Hm : mode_ e = Relative) by reflexivity.
  assert (Hk : 1 <= stepsPerDetent_ e <= 255) by (cbn; lia).
  assert (Hacc : accumulatedDelta_ e = -1 * 0) by reflexivity.
  assert (Ha : 0 <= 0 < stepsPerDetent_ e) by (cbn; lia).
  split; [auto|].
  exact (relative_detents_counted e (-1) 0 10 Hm Hk (or_intror eq_refl) Hacc Ha).
Defined.

(** * The default configuration against the code that loads it *)

(** X30.  The shipped tables agree with the limits the code imposes.  The three
    tables fit the fixed-capacity vectors the factories copy them into.
    Every entry of the default MIDI table is live in a mapper built from
    it: none is dropped by the id ranges and none is overridden by a later
    one.  Every configured button has a pin the button factory accepts, so
    the controller constructs it, and has a MIDI mapping.  Every configured
    encoder has a MIDI mapping and starts with a range of at least 2 and a
    position inside it. *)
Theorem default_configuration_is_consistent (bus bus' : EventBus.t) (m : MidiMapper.t) :
  MidiMapper.create bus Config.MIDI_MAPPINGS = Some (m, bus') ->
  (MidiFactory.createDefault = Some Config.MIDI_MAPPINGS /\
   InputFactory.createEncoders = Some Config.ENCODERS /\
   InputFactory.createButtons = Some Config.BUTTONS) /\
  Forall (fun mapping =>
            let config := {| MidiMapper.cfg_channel := MidiMapper.channel mapping;
                             MidiMapper.cfg_control := MidiMapper.cc mapping |} in
            if 300 <=? MidiMapper.inputId mapping
            then MidiMapper.findEncoder m (MidiMapper.inputId mapping) = Some config
            else MidiMapper.findButton m (MidiMapper.inputId mapping) = Some config)
         Config.MIDI_MAPPINGS /\
  Forall (fun setup =>
            is_Some (ButtonController.getButton
                       (ButtonController.construct Config.BUTTONS)
                       (ButtonController.setup_id setup)) /\
            is_Some (MidiMapper.findButton m (ButtonController.setup_id setup)))
         Config.BUTTONS /\
  Forall (fun setup =>
            is_Some (MidiMapper.findEncoder m (Encoder.setup_id setup)) /\
            Encoder.inRange (Encoder.create setup))
         Config.ENCODERS.
Proof.
  intros Hc. unfold MidiMapper.create in Hc.
  destruct (MidiMapper.loadMappings ∅ ∅ Config.MIDI_MAPPINGS) as [encoders buttons] eqn:Hl.
  destruct (EventBus.on bus _ _ _) as [[encoderSub bus1]|]; [|discriminate].
  destruct (EventBus.on bus1 _ _ _) as [[buttonSub bus2]|]; [|discriminate].
  injection Hc as <- <-.
  assert (He : encoders = fst (MidiMapper.loadMappings ∅ ∅ Config.MIDI_MAPPINGS))
    by (rewrite Hl; reflexivity).
  assert (Hb : buttons = snd (MidiMapper.loadMappings ∅ ∅ Config.MIDI_MAPPINGS))
    by (rewrite Hl; reflexivity).
  clear Hl. subst encoders buttons.
  unfold MidiMapper.findEncoder, MidiMapper.findButton.
  cbn [MidiMapper.encoders_ MidiMapper.buttons_].
  split; [repeat split|]. split; [|split].
  - unfold Config.MIDI_MAPPINGS. repeat (apply List.Forall_cons);
      try apply List.Forall_nil; vm_compute; reflexivity.
  - unfold Config.BUTTONS. repeat (apply List.Forall_cons);
      try apply List.Forall_nil; split; vm_compute; eexists; reflexivity.
  - unfold Config.ENCODERS. repeat (apply List.Forall_cons);
      try apply List.Forall_nil;
      (split; [vm_compute; eexists; reflexivity|]);
      unfold Encoder.inRange; vm_compute; repeat split; discriminate.
Qed.

Lemma default_configuration_is_consistent_witness :
  exists m bus',
    MidiMapper.create EventBus.create Config.MIDI_MAPPINGS = Some (m, bus') /\
    MidiMapper.findEncoder m Config.EncoderID.OPT
    = Some {| MidiMapper.cfg_channel := 0; MidiMapper.cfg_control := 10 |}.
Proof.
  destruct (MidiMapper.create EventBus.create Config.MIDI_MAPPINGS) as [[m bus']|] eqn:Hc;
    [|discriminate Hc].
  exists m, bus'. split; [reflexivity|].
  destruct (default_configuration_is_consistent EventBus.create bus' m Hc)
    as (_ & Hm & _).
  rewrite List.Forall_forall in Hm.
  exact (Hm (Config.mapping Config.EncoderID.OPT 0 10)
            ltac:(do 9 right; left; reflexivity)).
Defined.
